(** * repyhelper.py: translation of Repy files into importable Python modules

    A shallow embedding of [repyhelper.py] (SeattleTestbed/portability).
    Python 2 [str] values are byte strings and are modelled by [string];
    the interpreter's globals, the file system and the open-file table are
    the fields of a [World] threaded through a state-and-exception monad. *)

From Stdlib Require Import String Ascii ZArith List Bool Lia.
From stdpp Require Import base option gmap strings list fin_maps pretty.
Import ListNotations.

Local Open Scope string_scope.
Local Open Scope list_scope.

(** ** Python string primitives *)

Module PyStr.

Definition nl : ascii := "010"%char.
Definition newline : string := String nl "".

(** [string.whitespace] of the C locale: space, \t, \n, \v, \f, \r. *)
Definition isspace (c : ascii) : bool :=
  let n := nat_of_ascii c in
  Nat.eqb n 32 || (Nat.leb 9 n && Nat.leb n 13).

(** [s.startswith(p)] *)
Definition startswith (s p : string) : bool := String.prefix p s.

(** [s[n:]] for [0 <= n] *)
Fixpoint slice_from (n : nat) (s : string) : string :=
  match n, s with
  | O, _ => s
  | S _, EmptyString => EmptyString
  | S n', String _ s' => slice_from n' s'
  end.

(** [s.lstrip()] *)
Fixpoint lstrip (s : string) : string :=
  match s with
  | EmptyString => EmptyString
  | String c s' => if isspace c then lstrip s' else s
  end.

(** [s.rstrip()] *)
Fixpoint rstrip (s : string) : string :=
  match s with
  | EmptyString => EmptyString
  | String c s' =>
      match rstrip s' with
      | EmptyString => if isspace c then EmptyString else String c EmptyString
      | r => String c r
      end
  end.

(** [s.strip()] *)
Definition strip (s : string) : string := rstrip (lstrip s).

(** [s.replace(a, b)] for single characters [a], [b] *)
Fixpoint replace_char (a b : ascii) (s : string) : string :=
  match s with
  | EmptyString => EmptyString
  | String c s' =>
      String (if Ascii.eqb c a then b else c) (replace_char a b s')
  end.

(** [c in s] *)
Fixpoint contains (c : ascii) (s : string) : bool :=
  match s with
  | EmptyString => false
  | String d s' => Ascii.eqb d c || contains c s'
  end.

(** [s.endswith(c)] for a single character *)
Fixpoint endswith_char (s : string) (c : ascii) : bool :=
  match s with
  | EmptyString => false
  | String d EmptyString => Ascii.eqb d c
  | String _ s' => endswith_char s' c
  end.

(** [s.split(c)]: the fields between the occurrences of [c]; never empty. *)
Fixpoint split_char (c : ascii) (s : string) : list string :=
  match s with
  | EmptyString => [EmptyString]
  | String d s' =>
      if Ascii.eqb d c then EmptyString :: split_char c s'
      else match split_char c s' with
           | [] => [String d EmptyString]
           | f :: fs => String d f :: fs
           end
  end.

(** [sep.join(l)] *)
Fixpoint join (sep : string) (l : list string) : string :=
  match l with
  | [] => EmptyString
  | [x] => x
  | x :: l' => x +:+ sep +:+ join sep l'
  end.

(** [fh.readlines()] on the whole contents of a file opened in mode "r":
    the lines, each with its terminating newline except possibly the last. *)
Fixpoint readlines (s : string) : list string :=
  match s with
  | EmptyString => []
  | String c s' =>
      if Ascii.eqb c nl then newline :: readlines s'
      else match readlines s' with
           | [] => [String c EmptyString]
           | l :: ls => String c l :: ls
           end
  end.

(** [repr(s)] of a [str] (CPython 2 [string_repr]). *)
Definition hexdigit (n : nat) : ascii :=
  ascii_of_nat (if Nat.ltb n 10 then 48 + n else 87 + n).

Definition repr_char (quote : ascii) (c : ascii) : string :=
  let n := nat_of_ascii c in
  if Ascii.eqb c quote || Ascii.eqb c "\"%char then String "\"%char (String c "")
  else if Nat.eqb n 9 then "\t"
  else if Nat.eqb n 10 then "\n"
  else if Nat.eqb n 13 then "\r"
  else if Nat.ltb n 32 || Nat.leb 127 n
       then String "\"%char (String "x"%char
              (String (hexdigit (n / 16)) (String (hexdigit (n mod 16)) "")))
  else String c "".

Definition dquote : ascii := ascii_of_nat 34.
Definition squote : ascii := "'"%char.

Definition repr_str (s : string) : string :=
  let quote :=
    if contains squote s && negb (contains dquote s) then dquote else squote in
  String quote
    ((fix go (t : string) : string :=
        match t with
        | EmptyString => String quote ""
        | String c t' => repr_char quote c +:+ go t'
        end) s).

(** [repr(l)] of a list of [str] *)
Definition repr_list (l : list string) : string :=
  "[" +:+ join ", " (map repr_str l) +:+ "]".

End PyStr.

(** ** [os.path] on POSIX ([posixpath.py]) *)

Module PosixPath.
Import PyStr.

Definition sep : ascii := "/"%char.

(** [(p[:i], p[i:])] with [i = p.rfind('/') + 1] *)
Fixpoint rsplit (p : string) : string * string :=
  match p with
  | EmptyString => (EmptyString, EmptyString)
  | String c p' =>
      let (h, t) := rsplit p' in
      match h with
      | EmptyString =>
          if Ascii.eqb c sep then (String c EmptyString, t)
          else (EmptyString, String c t)
      | _ => (String c h, t)
      end
  end.

(** [head.rstrip('/')] *)
Fixpoint rstrip_sep (s : string) : string :=
  match s with
  | EmptyString => EmptyString
  | String c s' =>
      match rstrip_sep s' with
      | EmptyString => if Ascii.eqb c sep then EmptyString else String c EmptyString
      | r => String c r
      end
  end.

(** [head != '/' * len(head)] *)
Fixpoint all_sep (s : string) : bool :=
  match s with
  | EmptyString => true
  | String c s' => Ascii.eqb c sep && all_sep s'
  end.

Definition strip_head (head : string) : string :=
  if negb (String.eqb head "") && negb (all_sep head) then rstrip_sep head
  else head.

(** [os.path.split(p)] *)
Definition split (p : string) : string * string :=
  let (head, tail) := rsplit p in (strip_head head, tail).

(** [os.path.basename(p)] *)
Definition basename (p : string) : string := snd (rsplit p).

(** [os.path.dirname(p)] *)
Definition dirname (p : string) : string := strip_head (fst (rsplit p)).

(** [os.path.isabs(p)] *)
Definition isabs (p : string) : bool := startswith p "/".

(** [os.path.join(a, b)] *)
Definition join (a b : string) : string :=
  if startswith b "/" then b
  else if String.eqb a "" || endswith_char a sep then a +:+ b
  else a +:+ "/" +:+ b.

(** The loop of [os.path.normpath] over the components. *)
Fixpoint norm_comps (rooted : bool) (comps : list string)
    (new_comps : list string) : list string :=
  match comps with
  | [] => new_comps
  | comp :: rest =>
      if String.eqb comp "" || String.eqb comp "." then
        norm_comps rooted rest new_comps
      else if negb (String.eqb comp "..")
              || (negb rooted && Nat.eqb (length new_comps) 0)
              || match last new_comps with
                 | Some l => String.eqb l ".."
                 | None => false
                 end
      then norm_comps rooted rest (new_comps ++ [comp])
      else norm_comps rooted rest (removelast new_comps)
  end.

(** [os.path.normpath(path)] *)
Definition normpath (path : string) : string :=
  if String.eqb path "" then "."
  else
    let initial_slashes : nat :=
      if startswith path "/" then
        if startswith path "//" && negb (startswith path "///") then 2 else 1
      else 0 in
    let comps := norm_comps (negb (Nat.eqb initial_slashes 0))
                   (split_char sep path) [] in
    let path' :=
      match initial_slashes with
      | 0 => PyStr.join "/" comps
      | 1 => "/" +:+ PyStr.join "/" comps
      | _ => "//" +:+ PyStr.join "/" comps
      end in
    if String.eqb path' "" then "." else path'.

(** [os.path.abspath(path)] with [os.getcwd() = cwd] *)
Definition abspath (cwd path : string) : string :=
  if isabs path then normpath path else normpath (join cwd path).

End PosixPath.

(** ** The interpreter and operating-system state *)

(** Python values that reach the configuration functions.  [PyRef l] is a
    reference to a mutable object (a dict) stored at [l] in the heap. *)
Inductive pyval : Type :=
  | PyNone
  | PyBool (b : bool)
  | PyInt (z : Z)
  | PyStr (s : string)
  | PyRef (l : nat).

#[global] Instance pyval_eq_dec : EqDecision pyval.
Proof. solve_decision. Defined.

(** Exceptions, each with its [args]. *)
Inductive exn : Type :=
  | TranslationError (args : list string)
  | ValueError (args : list string)
  | TypeError (args : list string)
  | IOError (args : list string)
  | OSError (args : list string)
  | IndexError (args : list string).

(** [str(e)] for an exception raised with one argument. *)
Definition str_exn (e : exn) : string :=
  match e with
  | TranslationError a | ValueError a | TypeError a
  | IOError a | OSError a | IndexError a => PyStr.join ", " a
  end.

(** A node of the file system.  Permissions are those of the running
    process.  A directory carries the time of its creation: the code never
    reads a directory's timestamp, and it is not brought up to date here
    when an entry is added or removed. *)
Inductive node : Type :=
  | File (readable writable : bool) (mtime : Z) (data : string)
  | Dir (writable : bool) (mtime : Z).

(** A file object open for writing: the file it names and its
    [softspace] attribute, which the [print] statement reads and sets.  What
    it has buffered is kept with the file's data (see [OS.pending]). *)
Record ofile : Type := mkOfile { of_path : string; of_softspace : bool }.

Record World : Type := mkWorld {
  cwd : string;                      (* os.getcwd() *)
  files : gmap string node;          (* keyed by absolute, normalised path *)
  sys_path : list string;            (* sys.path *)
  clock : Z;                         (* stamps the next file creation *)
  wfault : option nat;               (* device writes left before it fails *)
  ofiles : gmap nat ofile;           (* file objects open for writing *)
  heap : gmap nat (gmap string pyval); (* dict objects *)
  _importcachedir : option string;   (* module global; [None] is Python's None *)
  shared_context : pyval             (* module global *)
}.

Definition set_files (f : gmap string node) (w : World) : World :=
  mkWorld (cwd w) f (sys_path w) (clock w) (wfault w) (ofiles w) (heap w)
    (_importcachedir w) (shared_context w).
Definition set_clock (c : Z) (w : World) : World :=
  mkWorld (cwd w) (files w) (sys_path w) c (wfault w) (ofiles w) (heap w)
    (_importcachedir w) (shared_context w).
Definition set_wfault (n : option nat) (w : World) : World :=
  mkWorld (cwd w) (files w) (sys_path w) (clock w) n (ofiles w) (heap w)
    (_importcachedir w) (shared_context w).
Definition set_ofiles (o : gmap nat ofile) (w : World) : World :=
  mkWorld (cwd w) (files w) (sys_path w) (clock w) (wfault w) o (heap w)
    (_importcachedir w) (shared_context w).
Definition set_heap (h : gmap nat (gmap string pyval)) (w : World) : World :=
  mkWorld (cwd w) (files w) (sys_path w) (clock w) (wfault w) (ofiles w) h
    (_importcachedir w) (shared_context w).
Definition set__importcachedir (d : option string) (w : World) : World :=
  mkWorld (cwd w) (files w) (sys_path w) (clock w) (wfault w) (ofiles w) (heap w)
    d (shared_context w).
Definition set_shared (c : pyval) (w : World) : World :=
  mkWorld (cwd w) (files w) (sys_path w) (clock w) (wfault w) (ofiles w) (heap w)
    (_importcachedir w) c.

(** ** A state-and-exception monad *)

Inductive result (A : Type) : Type :=
  | Ok (a : A)
  | Raise (e : exn).
Arguments Ok {A} a.
Arguments Raise {A} e.

Definition M (A : Type) : Type := World -> result A * World.

Definition ret {A} (a : A) : M A := fun w => (Ok a, w).
Definition raise {A} (e : exn) : M A := fun w => (Raise e, w).
Definition bind {A B} (m : M A) (k : A -> M B) : M B :=
  fun w => match m w with
           | (Ok a, w') => k a w'
           | (Raise e, w') => (Raise e, w')
           end.

Notation "'do' x <- c1 ; c2" := (bind c1 (fun x => c2))
  (at level 10, x name, c1 at level 100, c2 at level 200).
Notation "'do' ' pat <- c1 ; c2" :=
  (bind c1 (fun x => match x with pat => c2 end))
  (at level 10, pat pattern, c1 at level 100, c2 at level 200).
Notation "c1 ;; c2" := (bind c1 (fun _ => c2))
  (at level 100, c2 at level 200, right associativity).

(** [try: m  except <handled by h>: ...]: [h] returns [None] for the
    exceptions the clause does not catch. *)
Definition try_except {A} (m : M A) (h : exn -> option (M A)) : M A :=
  fun w => match m w with
           | (Ok a, w') => (Ok a, w')
           | (Raise e, w') =>
               match h e with
               | Some k => k w'
               | None => (Raise e, w')
               end
           end.

(** [except IOError, e: k e] *)
Definition on_IOError {A} (k : exn -> M A) (e : exn) : option (M A) :=
  match e with IOError _ => Some (k e) | _ => None end.

(** [except (IOError, OSError): k] *)
Definition on_IOError_OSError {A} (k : M A) (e : exn) : option (M A) :=
  match e with IOError _ | OSError _ => Some k | _ => None end.

(** [try: m  finally: f] *)
Definition try_finally {A} (m : M A) (f : M unit) : M A :=
  fun w => match m w with
           | (r, w') =>
               match f w' with
               | (Ok _, w'') => (r, w'')
               | (Raise e, w'') => (Raise e, w'')
               end
           end.

Definition gets {A} (f : World -> A) : M A := fun w => (Ok (f w), w).
Definition modify (f : World -> World) : M unit := fun w => (Ok tt, f w).

(** ** Operating-system and file-object primitives *)

Module OS.

(** The node a path names.  The empty path names nothing, and a path
    with a trailing separator names directories only. *)
Definition resolve (w : World) (p : string) : option node :=
  if String.eqb p "" then None
  else match files w !! PosixPath.abspath (cwd w) p with
       | Some (File r wr t d) =>
           if PyStr.endswith_char p PosixPath.sep then None
           else Some (File r wr t d)
       | o => o
       end.

(** [os.path.abspath(p)] *)
Definition abspath (p : string) : M string :=
  gets (fun w => PosixPath.abspath (cwd w) p).

(** [os.path.isfile(p)] *)
Definition isfile (p : string) : M bool :=
  gets (fun w => match resolve w p with Some (File _ _ _ _) => true | _ => false end).

(** [os.path.isdir(p)] *)
Definition isdir (p : string) : M bool :=
  gets (fun w => match resolve w p with Some (Dir _ _) => true | _ => false end).

(** [os.stat(p).st_mtime] *)
Definition stat_mtime (p : string) : M Z :=
  fun w => match resolve w p with
           | Some (File _ _ t _) | Some (Dir _ t) => (Ok t, w)
           | None => (Raise (OSError ["No such file or directory"]), w)
           end.

(** A file object open for reading, as the lines it has yet to deliver. *)
Definition rfile : Type := list string.

(** [open(p, "r")] *)
Definition open_r (p : string) : M rfile :=
  fun w => match resolve w p with
           | Some (File true _ _ d) => (Ok (PyStr.readlines d), w)
           | Some (File false _ _ _) => (Raise (IOError ["Permission denied"]), w)
           | Some (Dir _ _) => (Raise (IOError ["Is a directory"]), w)
           | None => (Raise (IOError ["No such file or directory"]), w)
           end.

(** [fh.readline()]: the next line, or [''] at the end of the file. *)
Definition readline (fh : rfile) : string * rfile :=
  match fh with
  | [] => (EmptyString, [])
  | l :: rest => (l, rest)
  end.

(** [fh.readlines()]: the lines not yet delivered.  Closing a file object
    open for reading changes nothing, and is left out. *)
Definition readlines (fh : rfile) : list string := fh.

(** [open(p, "w")]: truncates or creates, and stamps the file. *)
Definition open_w (p : string) : M nat :=
  fun w =>
    let a := PosixPath.abspath (cwd w) p in
    let fd := fresh (dom (ofiles w)) in
    let opened (r : bool) :=
      (Ok fd,
       set_ofiles (<[fd := mkOfile a false]> (ofiles w))
         (set_clock (clock w + 1)
            (set_files (<[a := File r true (clock w) EmptyString]> (files w)) w))) in
    if String.eqb p "" || PyStr.endswith_char p PosixPath.sep then
      (Raise (IOError ["No such file or directory"]), w)
    else match files w !! a with
         | Some (Dir _ _) => (Raise (IOError ["Is a directory"]), w)
         | Some (File r true _ _) => opened r
         | Some (File _ false _ _) => (Raise (IOError ["Permission denied"]), w)
         | None =>
             match files w !! PosixPath.dirname a with
             | Some (Dir true _) => opened true
             | Some (Dir false _) => (Raise (IOError ["Permission denied"]), w)
             | _ => (Raise (IOError ["No such file or directory"]), w)
             end
         end.

(** File objects are block buffered, as C stdio has them for a regular
    file: what is written collects in the file object's buffer and goes to
    the device one block of [BUFSIZ] bytes at a time, as blocks fill, and
    the rest when the file is closed.  The data kept for a file that is open
    for writing is the stream as the file object has it, the bytes still in
    its buffer included: the last [pending d] bytes of [d]. *)
Definition BUFSIZ : nat := 4096.

Definition pending (d : string) : nat := String.length d mod BUFSIZ.

(** What of [d] has reached the device. *)
Definition flushed (d : string) : string :=
  String.substring 0 (String.length d - pending d) d.

(** [fh.write(s)].  As long as [s] fits into the buffer nothing is written
    to the device, and nothing can fail.  When a block fills it is written:
    if the device fails, the write raises IOError and what was in the
    buffer is lost, with [s].  Data written after the file was unlinked is
    lost with it. *)
Definition fwrite (fd : nat) (s : string) : M unit :=
  fun w =>
    match ofiles w !! fd with
    | None => (Raise (ValueError ["I/O operation on closed file"]), w)
    | Some o =>
        match files w !! of_path o with
        | Some (File r wr t d) =>
            let appended := set_files (<[of_path o := File r wr t (d +:+ s)]> (files w)) in
            if Nat.ltb (pending d + String.length s) BUFSIZ then (Ok tt, appended w)
            else match wfault w with
                 | Some O =>
                     (Raise (IOError ["No space left on device"]),
                      set_files (<[of_path o := File r wr t (flushed d)]> (files w)) w)
                 | _ => (Ok tt, appended (set_wfault (Nat.pred <$> wfault w) w))
                 end
        | _ => (Ok tt, w)
        end
    end.

(** [PyFile_SoftSpace(fh, newflag)]: sets the flag, returns the old one. *)
Definition softspace (fd : nat) (newflag : bool) : M bool :=
  fun w =>
    match ofiles w !! fd with
    | None => (Ok false, w)
    | Some o =>
        (Ok (of_softspace o),
         set_ofiles (<[fd := mkOfile (of_path o) newflag]> (ofiles w)) w)
    end.

(** [fh.close()]: writes what is left in the buffer and closes the file
    object, also when that last write fails and [close] raises IOError. *)
Definition fclose (fd : nat) : M unit :=
  fun w =>
    let closed := set_ofiles (delete fd (ofiles w)) in
    match ofiles w !! fd with
    | None => (Ok tt, w)
    | Some o =>
        match files w !! of_path o with
        | Some (File r wr t d) =>
            if Nat.eqb (pending d) 0 then (Ok tt, closed w)
            else match wfault w with
                 | Some O =>
                     (Raise (IOError ["No space left on device"]),
                      closed (set_files (<[of_path o := File r wr t (flushed d)]>
                                           (files w)) w))
                 | _ => (Ok tt, closed (set_wfault (Nat.pred <$> wfault w) w))
                 end
        | _ => (Ok tt, closed w)
        end
    end.

(** One item of a [print >> fh, ...] statement (the interpreter's
    PRINT_ITEM_TO): a separating space if [softspace] is set, the string,
    and [softspace] set again unless the string ends a line. *)
Definition ends_line (s : string) : bool :=
  match last (list_ascii_of_string s) with
  | Some c => PyStr.isspace c && negb (Ascii.eqb c " "%char)
  | None => false
  end.

Definition print_item (fd : nat) (s : string) : M unit :=
  do soft <- softspace fd false;
  (if soft then fwrite fd " " else ret tt);;
  fwrite fd s;;
  if ends_line s then ret tt else (softspace fd true;; ret tt).

(** The end of a [print >> fh, ...] statement without trailing comma
    (PRINT_NEWLINE_TO). *)
Definition print_newline (fd : nat) : M unit :=
  fwrite fd PyStr.newline;;
  softspace fd false;;
  ret tt.

(** [print >> fh, a] and [print >> fh, a, b] *)
Definition print1 (fd : nat) (a : string) : M unit :=
  print_item fd a;; print_newline fd.
Definition print2 (fd : nat) (a b : string) : M unit :=
  print_item fd a;; print_item fd b;; print_newline fd.

(** [os.remove(p)] *)
Definition remove (p : string) : M unit :=
  fun w =>
    let a := PosixPath.abspath (cwd w) p in
    match resolve w p with
    | Some (File _ _ _ _) =>
        match files w !! PosixPath.dirname a with
        | Some (Dir true _) => (Ok tt, set_files (delete a (files w)) w)
        | _ => (Raise (OSError ["Permission denied"]), w)
        end
    | Some (Dir _ _) => (Raise (OSError ["Is a directory"]), w)
    | None => (Raise (OSError ["No such file or directory"]), w)
    end.

(** The ancestors of an absolute normalised path, outermost first, the
    path itself last: ["/a"; "/a/b"] for ["/a/b"]. *)
Fixpoint prefixes (acc : string) (comps : list string) : list string :=
  match comps with
  | [] => []
  | c :: rest =>
      let p := acc +:+ "/" +:+ c in p :: prefixes p rest
  end.

Fixpoint mkdirs (ps : list string) (t : Z) (fs : gmap string node)
    : option (gmap string node) :=
  match ps with
  | [] => Some fs
  | p :: rest =>
      match fs !! p with
      | Some (Dir _ _) =>
          match rest with
          | [] => None                      (* the leaf exists *)
          | _ => mkdirs rest t fs
          end
      | Some (File _ _ _ _) => None
      | None =>
          match fs !! PosixPath.dirname p with
          | Some (Dir true _) => mkdirs rest t (<[p := Dir true t]> fs)
          | _ => None
          end
      end
  end.

(** [os.makedirs(d)]: creates [d] and its missing ancestors. *)
Definition makedirs (d : string) : M unit :=
  fun w =>
    let a := PosixPath.abspath (cwd w) d in
    let comps := filter (fun c => c <> EmptyString)
                   (PyStr.split_char PosixPath.sep a) in
    match mkdirs (prefixes EmptyString comps) (clock w) (files w) with
    | Some fs => (Ok tt, set_clock (clock w + 1) (set_files fs w))
    | None => (Raise (OSError ["cannot create directory"]), w)
    end.

End OS.

(** ** repyhelper.py *)

Import PyStr.

Definition TRANSLATION_TAGLINE : string :=
  "### Automatically generated by repyhelper.py ###".

Definition WARNING_LABEL : string :=
  newline +:+
  "### THIS FILE WILL BE OVERWRITTEN!" +:+ newline +:+
  "### DO NOT MAKE CHANGES HERE, INSTEAD EDIT THE ORIGINAL SOURCE FILE" +:+ newline +:+
  "###" +:+ newline +:+
  "### If changes to the src aren't propagating here, try manually deleting this file. " +:+ newline +:+
  "### Deleting this file forces regeneration of a repy translation" +:+ newline +:+
  newline.

Definition ENCODING_STRING : string := "# -*- coding: utf-8 -*-".

(** [shared_context = {}] and [_importcachedir = None], run once when the
    module is loaded: the shared context is a newly allocated dict. *)
Definition new_dict : M pyval :=
  fun w =>
    let l := fresh (dom (heap w)) in
    (Ok (PyRef l), set_heap (<[l := ∅]> (heap w)) w).

Definition module_init : M unit :=
  do d <- new_dict;
  modify (set_shared d);;
  modify (set__importcachedir None).

Definition get_shared_context : M pyval :=
  gets shared_context.

(** [str(v)], used in the messages of [set_importcachedir]. *)
Definition py_str (v : pyval) : string :=
  match v with
  | PyNone => "None"
  | PyBool true => "True"
  | PyBool false => "False"
  | PyInt z => pretty z
  | PyStr s => s
  | PyRef _ => "{...}"
  end.

Definition set_importcachedir (newimportcachedir : pyval) : M unit :=
  (* handle None... *)
  match newimportcachedir with
  | PyNone => modify (set__importcachedir None)
  | PyStr s =>
      (* If it's an empty string, assume it's '.' *)
      let newimportcachedir := if String.eqb s "" then "." else s in
      do d <- OS.isdir newimportcachedir;
      if negb d then
        raise (TypeError ["Path given for newimportcachedir '" +:+ newimportcachedir
                            +:+ "' is not a directory"])
      else
        do path <- gets sys_path;
        if negb (bool_decide (newimportcachedir ∈ path)) then
          raise (ValueError ["The import cache dir '" +:+ newimportcachedir
                               +:+ "' isn't in the Python path"])
        else
          (* set the path...   We're done. *)
          modify (set__importcachedir (Some newimportcachedir))
  | v =>
      (* else, is this a valid path? *)
      raise (TypeError ["Type of newimportcachedir '" +:+ py_str v
                          +:+ "' is not a string"])
  end.

Definition set_shared_context (context : pyval) : M unit :=
  match context with
  | PyNone => raise (TypeError ["Context can't be none"])
  | _ => modify (set_shared context)
  end.

(** Ensure the generated module has a safe name: [.] becomes [_]. *)
Definition _get_module_name (repyfilename : string) : string :=
  let (head, tail) := PosixPath.split repyfilename in
  let tail := replace_char "."%char "_"%char tail in
  PosixPath.join head tail.

Definition _translation_is_needed (repyfilename generatedfile : string) : M bool :=
  do src_is_file <- OS.isfile repyfilename;
  if negb src_is_file then
    raise (TranslationError ["no such file:"; repyfilename])
  else
  do gen_is_file <- OS.isfile generatedfile;
  if negb gen_is_file then ret true
  else
  (* Read the first line *)
  do '(first_line, second_line, last_line) <-
    try_except
      (do fh <- OS.open_r generatedfile;
       let (l1, fh) := OS.readline fh in
       let first_line := rstrip l1 in
       let (l2, fh) := OS.readline fh in
       let second_line := rstrip l2 in
       let current_line := fold_left (fun _ line => line) fh EmptyString in
       let last_line := current_line in
       ret (first_line, second_line, last_line))
      (on_IOError (fun e =>
         raise (TranslationError ["Error opening old generated file: "
                                    +:+ generatedfile +:+ ": " +:+ str_exn e])));
  (* Check to see if the file was generated by repyhelper, to prevent
     clobbering a file that we didn't create *)
  (if negb (startswith first_line ENCODING_STRING)
      || negb (startswith second_line TRANSLATION_TAGLINE)
   then
     (* it also could have been created by an earlier version of repyhelper. *)
     if negb (startswith first_line TRANSLATION_TAGLINE) then
       raise (TranslationError ["File name exists but wasn't automatically generated: "
                                  +:+ generatedfile])
     else ret tt
   else ret tt);;
  if negb (startswith last_line TRANSLATION_TAGLINE) then
    (* The file generation wasn't completed: silently regenerate (#617) *)
    ret true
  else
  (* Check to see if the generated file has the same original source *)
  let old_translation_path :=
    strip (slice_from (String.length TRANSLATION_TAGLINE) first_line) in
  do generated_abs_path <- OS.abspath repyfilename;
  if negb (String.eqb old_translation_path generated_abs_path) then
    (* It doesn't match, but the other file was also a translation! *)
    ret true
  else
  (* If we get here and modification time of orig is older than gen, this
     is still a valid generation *)
  do repystat <- OS.stat_mtime repyfilename;
  do genstat <- OS.stat_mtime generatedfile;
  if (repystat <? genstat)%Z then ret false
  else ret true.

(** The body of the loop of [_process_output_file]. *)
Definition process_line (outfh : nat) (line : string) : M unit :=
  (* look for includes, and substitute them with calls to translate *)
  if startswith line "include " then
    let includename := strip (slice_from (String.length "include ") line) in
    let modulename := _get_module_name includename in
    OS.print1 outfh ("repyhelper.translate_and_import('" +:+ includename +:+ "')")
  else
    (* line includes a newline, so dont add another *)
    OS.print_item outfh line.

Fixpoint for_each {A} (f : A -> M unit) (l : list A) : M unit :=
  match l with
  | [] => ret tt
  | x :: l' => f x;; for_each f l'
  end.

Definition _process_output_file (outfh : nat) (filename generatedfilename : string)
    : M unit :=
  do repyfiledata <-
    try_except
      (do repyfh <- OS.open_r filename;
       let repyfiledata := OS.readlines repyfh in
       ret repyfiledata)
      (on_IOError (fun e =>
         (* Delete the partially translated file, to ensure this partial
            translation doesn't get used *)
         try_except (OS.remove generatedfilename) (on_IOError_OSError (ret tt));;
         raise (TranslationError ["Error opening " +:+ filename +:+ ": " +:+ str_exn e])));
  (* Having read all the data, lets output it again, performing
     translations as needed *)
  for_each (process_line outfh) repyfiledata.

Definition _generate_python_file_from_repy (repyfilename generatedfilename : string)
    (shared_mycontext : bool) (callfunc : string) (callargs : list string) : M unit :=
  do fh <-
    try_except
      ((* Create path if it doesn't exist. *)
       let dir := PosixPath.dirname generatedfilename in
       (if negb (String.eqb dir "") then
          do d <- OS.isdir dir;
          if negb d then OS.makedirs dir else ret tt
        else ret tt);;
       OS.open_w generatedfilename)
      (on_IOError (fun e =>
         (* this is likely a directory permissions error *)
         raise (TranslationError ["Cannot open file for translation '" +:+ repyfilename
                                    +:+ "': " +:+ str_exn e])));
  (* always close the file *)
  try_finally
    (try_except
       (OS.print1 fh ENCODING_STRING;;
        do p <- OS.abspath repyfilename;
        OS.print2 fh TRANSLATION_TAGLINE p;;
        OS.print1 fh WARNING_LABEL;;
        OS.print1 fh "from repyportability import *";;
        OS.print1 fh "from repyportability import _context";;
        OS.print1 fh "import repyhelper";;
        (if shared_mycontext then
           OS.print1 fh "mycontext = repyhelper.get_shared_context()"
         else
           OS.print1 fh "mycontext = {}");;
        OS.print2 fh "callfunc =" (repr_str callfunc);;
        (* Properly format the callargs list. *)
        OS.print2 fh "callargs =" (repr_list callargs);;
        OS.print_newline fh;;
        _process_output_file fh repyfilename generatedfilename;;
        (* append the TRANSLATION_TAGLINE so that we can see if the operation
           was interrupted (#617) *)
        OS.print_newline fh;;
        do p <- OS.abspath repyfilename;
        OS.print2 fh TRANSLATION_TAGLINE p)
       (on_IOError (fun e =>
          raise (TranslationError ["Error translating file " +:+ repyfilename
                                     +:+ ": " +:+ str_exn e]))))
    (OS.fclose fh).

(** [sys.path[0]] *)
Definition sys_path_0 : M string :=
  do path <- gets sys_path;
  match path with
  | d :: _ => ret d
  | [] => raise (IndexError ["list index out of range"])
  end.

(** The search loop of [translate]: the first directory of the path that
    holds the file, with the file's path there. *)
Fixpoint search_path (filename : string) (path : list string)
    : M (option (string * string)) :=
  match path with
  | [] => ret None
  | pathdir :: rest =>
      let possiblefilenamewithpath := PosixPath.join pathdir filename in
      do found <- OS.isfile possiblefilenamewithpath;
      if found then ret (Some (possiblefilenamewithpath, pathdir))
      else search_path filename rest
  end.

(** Lines 343-390 of [translate]: the file to read, the directory to write
    to and the file to write. *)
Definition translate_paths (filename : string) : M (string * string * string) :=
  do '(filenamewithpath, destdir) <-
    (* If the file name contains a directory, honor that exactly... *)
    (if negb (String.eqb filename (PosixPath.basename filename)) then
       let filenamewithpath := filename in
       do filedir <- OS.abspath (PosixPath.dirname filename);
       (* write it to the first directory in the python path (by default) *)
       do destdir <- sys_path_0;
       (* Let's verify these exist and if not exit... *)
       do dir_ok <- OS.isdir filedir;
       if negb dir_ok then
         raise (ValueError ["In repyhelper, the directory '" +:+ filedir
                              +:+ "' does not exist for file '" +:+ filename +:+ "'"])
       else
       do file_ok <- OS.isfile filename;
       if negb file_ok then
         raise (ValueError ["In repyhelper, the file '" +:+ filename
                              +:+ "' does not exist."])
       else ret (filenamewithpath, destdir)
     else
       (* Determine in which directory in the file is located *)
       do path <- gets sys_path;
       do found <- search_path filename path;
       match found with
       | None =>
           raise (ValueError ["File " +:+ filename
                                +:+ " does not exist in the Python path."])
       | Some (filenamewithpath, filedir) =>
           (* write it where it was (by default) *)
           ret (filenamewithpath, filedir)
       end);
  (* expand the name from foo.repy to foo_repy (change '.' to '_') *)
  let modulenameonly := _get_module_name (PosixPath.basename filename) in
  let generatedfilenameonly := modulenameonly +:+ ".py" in
  (* if it shouldn't be in the default location, put it in the correct dir *)
  do cachedir <- gets _importcachedir;
  let destdir := match cachedir with Some d => d | None => destdir end in
  (* let's generate it *)
  let generatedfilenamewithpath := PosixPath.join destdir generatedfilenameonly in
  ret (filenamewithpath, destdir, generatedfilenamewithpath).

Definition translate (filename : string) (shared_mycontext : bool) (callfunc : string)
    (callargs : option (list string)) (force_overwrite : bool) : M string :=
  do '(filenamewithpath, _, generatedfilenamewithpath) <- translate_paths filename;
  let callargs := match callargs with None => [] | Some a => a end in
  let modulenameonly := _get_module_name (PosixPath.basename filename) in
  do needed <-
    (if force_overwrite then ret true
     else _translation_is_needed filenamewithpath generatedfilenamewithpath);
  (if needed then
     _generate_python_file_from_repy filenamewithpath generatedfilenamewithpath
       shared_mycontext callfunc callargs
   else ret tt);;
  (* return the name so that we can import it *)
  ret modulenameonly.

(** List of globals to skip when inserting the imported module's vars into
    the caller's namespace. *)
Definition GLOBAL_VARS_BLACKLIST : gset string :=
  {[ "mycontext"; "callfunc"; "callargs"; "repyhelper" ]}.

(** The loop body of [_import_file_contents_to_caller_namespace]. *)
Definition import_member (preserve_globals : bool)
    (caller_globals : gmap string pyval) (member : string * pyval)
    : gmap string pyval :=
  let (name, definition) := member in
  (* like normal python from imports, don't import names starting with "_" *)
  if startswith name "_" then caller_globals
  (* Skip blacklisted items *)
  else if bool_decide (name ∈ GLOBAL_VARS_BLACKLIST) then caller_globals
  (* skip already defined vars if told to do so *)
  else if bool_decide (name ∈ dom caller_globals) && preserve_globals then caller_globals
  else <[name := definition]> caller_globals.

(** [_import_file_contents_to_caller_namespace], from the point where the
    module is loaded: [import_module] is [inspect.getmembers] of the module
    [__import__] returned, [caller_globals] the globals dict found two
    frames up, which the loop updates in place. *)
Definition _import_file_contents_to_caller_namespace
    (import_module : list (string * pyval)) (preserve_globals : bool)
    (caller_globals : gmap string pyval) : gmap string pyval :=
  fold_left (import_member preserve_globals) import_module caller_globals.

(** * Vocabulary of the statements *)

(** What the staleness check reads from an artifact with contents [d]. *)
Definition first_line (d : string) : string := rstrip (nth 0 (readlines d) EmptyString).

Definition second_line (d : string) : string := rstrip (nth 1 (readlines d) EmptyString).

(** The last of the lines after the first two, [''] when there is none. *)
Definition last_line_read (d : string) : string :=
  List.last (skipn 2 (readlines d)) EmptyString.

(** The last line of the file, [''] for an empty file. *)
Definition last_line (d : string) : string := List.last (readlines d) EmptyString.

(** The header check: encoding marker then tag, or the tag alone on the
    first line (the format of earlier versions). *)
Definition generated_header (d : string) : bool :=
  (startswith (first_line d) ENCODING_STRING
   && startswith (second_line d) TRANSLATION_TAGLINE)
  || startswith (first_line d) TRANSLATION_TAGLINE.

Definition is_file (w : World) (p : string) : Prop :=
  exists r wr t d, OS.resolve w p = Some (File r wr t d).

Definition is_dir (w : World) (p : string) : Prop :=
  exists wr t, OS.resolve w p = Some (Dir wr t).

(** [open(p, "r")] fails. *)
Definition unreadable (w : World) (p : string) : Prop :=
  forall wr t d, OS.resolve w p <> Some (File true wr t d).

(** [open(p, "w")] succeeds without any directory having to be created. *)
Definition can_open_for_writing (w : World) (p : string) : Prop :=
  (PosixPath.dirname p = EmptyString
   \/ exists wr t, OS.resolve w (PosixPath.dirname p) = Some (Dir wr t))
  /\ exists fd w', OS.open_w p w = (Ok fd, w').

(** Lines 225-229 of the generator, the body of its first [try]: the
    directory of the artifact is created if it is missing, and the
    artifact opened for writing. *)
Definition open_artifact (generatedfilename : string) : M nat :=
  let dir := PosixPath.dirname generatedfilename in
  (if negb (String.eqb dir "") then
     do d <- OS.isdir dir;
     if negb d then OS.makedirs dir else ret tt
   else ret tt);;
  OS.open_w generatedfilename.

Definition is_TranslationError {A} (r : result A) : Prop :=
  exists args, r = Raise (TranslationError args).

Definition is_ValueError {A} (r : result A) : Prop :=
  exists args, r = Raise (ValueError args).

Definition is_TypeError {A} (r : result A) : Prop :=
  exists args, r = Raise (TypeError args).

(** The staleness check, once both files are known to exist and the
    artifact has been read. *)
Definition decide_stale (w : World) (repyfilename generatedfile d : string)
    : result bool :=
  if negb (generated_header d) then
    Raise (TranslationError ["File name exists but wasn't automatically generated: "
                               +:+ generatedfile])
  else if negb (startswith (last_line_read d) TRANSLATION_TAGLINE) then Ok true
  else if negb (String.eqb
                  (strip (slice_from (String.length TRANSLATION_TAGLINE) (first_line d)))
                  (PosixPath.abspath (cwd w) repyfilename))
  then Ok true
  else match fst (OS.stat_mtime repyfilename w), fst (OS.stat_mtime generatedfile w) with
       | Ok s, Ok g => if (s <? g)%Z then Ok false else Ok true
       | Raise e, _ | _, Raise e => Raise e
       end.

(** The world in which file object [fd] is open for writing on the file at
    [a], which holds [d], and no write fails. *)
Definition writing (w : World) (fd : nat) (a : string) (r wr : bool) (t : Z)
    (d : string) (soft : bool) : World :=
  mkWorld (cwd w) (<[a := File r wr t d]> (files w)) (sys_path w) (clock w) None
    (<[fd := mkOfile a soft]> (ofiles w)) (heap w) (_importcachedir w)
    (shared_context w).

(** The world after the artifact at [a] has been written and closed. *)
Definition written (w : World) (a : string) (r : bool) (text : string) : World :=
  set_clock (clock w + 1)
    (set_files (<[a := File r true (clock w) text]> (files w)) w).

(** The translation of one source line: an include directive becomes a call
    of [translate_and_import] on the stripped remainder of the line, any
    other line is copied as it is. *)
Definition expand_line (line : string) : string :=
  if startswith line "include " then
    "repyhelper.translate_and_import('" +:+ strip (slice_from 8 line) +:+ "')"
      +:+ newline
  else line.

Definition translated_body (source : string) : string :=
  foldr String.append EmptyString (map expand_line (readlines source)).

(** Every line but the last ends its line. *)
Fixpoint terminated (ls : list string) : Prop :=
  match ls with
  | [] => True
  | l :: ls' =>
      match ls' with
      | [] => True
      | _ => OS.ends_line l = true /\ terminated ls'
      end
  end.

Definition mycontext_binding (shared_mycontext : bool) : string :=
  if shared_mycontext then "mycontext = repyhelper.get_shared_context()"
  else "mycontext = {}".

(** The contents of an artifact, as the file format lays them out. *)
Definition artifact_header (source_abs : string) (shared_mycontext : bool)
    (callfunc : string) (callargs : list string) : string :=
  ENCODING_STRING +:+ newline +:+
  TRANSLATION_TAGLINE +:+ " " +:+ source_abs +:+ newline +:+
  WARNING_LABEL +:+ newline +:+
  "from repyportability import *" +:+ newline +:+
  "from repyportability import _context" +:+ newline +:+
  "import repyhelper" +:+ newline +:+
  mycontext_binding shared_mycontext +:+ newline +:+
  "callfunc = " +:+ repr_str callfunc +:+ newline +:+
  "callargs = " +:+ repr_list callargs +:+ newline +:+
  newline.

Definition artifact_text (source_abs : string) (shared_mycontext : bool)
    (callfunc : string) (callargs : list string) (source : string) : string :=
  artifact_header source_abs shared_mycontext callfunc callargs +:+
  translated_body source +:+
  newline +:+
  TRANSLATION_TAGLINE +:+ " " +:+ source_abs +:+ newline.

Definition module_name (filename : string) : string :=
  _get_module_name (PosixPath.basename filename).

Definition default_callargs (callargs : option (list string)) : list string :=
  match callargs with None => [] | Some a => a end.

(** The output directory and the artifact's path, given the default
    directory of the branch taken. *)
Definition destdir_of (w : World) (default : string) : string :=
  match _importcachedir w with Some d => d | None => default end.

Definition artifact_path (destdir filename : string) : string :=
  PosixPath.join destdir (module_name filename +:+ ".py").

(** Names the merge never injects. *)
Definition excluded (name : string) : Prop :=
  startswith name "_" = true \/ name ∈ GLOBAL_VARS_BLACKLIST.

(** The directory [set_importcachedir] validates: ['.'] for the empty
    string. *)
Definition cachedir_of (s : string) : string :=
  if String.eqb s "" then "." else s.

(** ** Running the binding of a loaded artifact

    The statement that binds [mycontext] in an artifact is an assignment
    whose right-hand side is a dict display or a call, without arguments,
    of a function of this module, which the artifact has imported on the
    line before. *)
Inductive py_expr : Type :=
  | Dict_display                                  (* {} *)
  | Attribute_call (module attribute : string).   (* module.attribute() *)

Definition is_identifier_char (c : ascii) : bool :=
  let n := nat_of_ascii c in
  (Nat.leb 65 n && Nat.leb n 90) || (Nat.leb 97 n && Nat.leb n 122)
  || (Nat.leb 48 n && Nat.leb n 57) || Nat.eqb n 95.

Definition is_identifier (s : string) : bool :=
  match s with
  | EmptyString => false
  | String c _ =>
      negb (Nat.leb 48 (nat_of_ascii c) && Nat.leb (nat_of_ascii c) 57)
      && forallb is_identifier_char (list_ascii_of_string s)
  end.

Definition parse_expr (s : string) : option py_expr :=
  if String.eqb s "{}" then Some Dict_display
  else match split_char "("%char s with
       | [callee; ")"] =>
           match split_char "."%char callee with
           | [m; f] =>
               if is_identifier m && is_identifier f then Some (Attribute_call m f)
               else None
           | _ => None
           end
       | _ => None
       end.

(** [NAME = EXPR], on a line of its own at the top level of a module. *)
Definition parse_assignment (line : string) : option (string * py_expr) :=
  match split_char " "%char (rstrip line) with
  | [name; "="; e] =>
      if is_identifier name then pair name <$> parse_expr e else None
  | _ => None
  end.

(** What the attribute reference [repyhelper.name] finds, of the functions
    of this module that take no argument. *)
Definition repyhelper_function (name : string) : option (M pyval) :=
  if String.eqb name "get_shared_context" then Some get_shared_context else None.

(** The value of an expression: a dict display allocates a new dict, as
    the one at line 54 does when the module is loaded. *)
Definition eval_expr (e : py_expr) : option (M pyval) :=
  match e with
  | Dict_display => Some new_dict
  | Attribute_call m f =>
      if String.eqb m "repyhelper" then repyhelper_function f else None
  end.

(** Running the assignment on [line] in the global scope [globals] of the
    artifact. *)
Definition exec_assignment (line : string) (globals : gmap string pyval)
    : option (M (gmap string pyval)) :=
  match parse_assignment line with
  | Some (name, e) =>
      (fun value => do v <- value; ret (<[name := v]> globals)) <$> eval_expr e
  | None => None
  end.

(** The lines of the header before the binding, and the rest of the
    artifact after it. *)
Definition artifact_imports (source_abs : string) : string :=
  ENCODING_STRING +:+ newline +:+
  TRANSLATION_TAGLINE +:+ " " +:+ source_abs +:+ newline +:+
  WARNING_LABEL +:+ newline +:+
  "from repyportability import *" +:+ newline +:+
  "from repyportability import _context" +:+ newline +:+
  "import repyhelper" +:+ newline.

Definition artifact_rest (source_abs callfunc : string) (callargs : list string)
    (source : string) : string :=
  "callfunc = " +:+ repr_str callfunc +:+ newline +:+
  "callargs = " +:+ repr_list callargs +:+ newline +:+
  newline +:+
  translated_body source +:+
  newline +:+
  TRANSLATION_TAGLINE +:+ " " +:+ source_abs +:+ newline.

(** A value the program holds is not a dangling reference. *)
Definition value_live (w : World) (v : pyval) : Prop :=
  forall l, v = PyRef l -> is_Some (heap w !! l).

(** Every reference the module holds points into the heap. *)
Definition shared_context_live (w : World) : Prop :=
  forall l, shared_context w = PyRef l -> is_Some (heap w !! l).

(** A computation respects a relation [R] on worlds when every run ends,
    normally or with an exception, in a world related to the one it started
    in. *)
Definition respects (R : World -> World -> Prop) {A} (m : M A) : Prop :=
  forall w, R w (snd (m w)).

Abbreviation read_only := (respects eq).

Definition same_globals (w w' : World) : Prop :=
  shared_context w' = shared_context w
  /\ _importcachedir w' = _importcachedir w
  /\ heap w' = heap w
  /\ sys_path w' = sys_path w
  /\ cwd w' = cwd w.

Abbreviation keeps_globals := (respects same_globals).

(** ** Frames, exception sets and the cache directory *)

(** The node is a directory. *)
Definition is_dir_node (n : node) : Prop :=
  match n with Dir _ _ => True | File _ _ _ _ => False end.

(** Every node of [fs] other than a file at [a] is still in [fs'], as it
    was. *)
Definition retained (a : string) (fs fs' : gmap string node) : Prop :=
  forall p n, p <> a \/ is_dir_node n -> fs !! p = Some n -> fs' !! p = Some n.

(** File object [fd], when open, writes to the file at [gen]. *)
Definition writes_to (fd : nat) (gen : string) (w : World) : Prop :=
  forall o, ofiles w !! fd = Some o -> of_path o = PosixPath.abspath (cwd w) gen.

(** What a step of the generator may change while [fd] is its output file:
    the file at [gen] and the state of [fd]. *)
Definition confined (fd : nat) (gen : string) (w w' : World) : Prop :=
  cwd w' = cwd w
  /\ (writes_to fd gen w ->
      writes_to fd gen w'
      /\ (forall k, k <> fd -> ofiles w' !! k = ofiles w !! k)
      /\ retained (PosixPath.abspath (cwd w) gen) (files w) (files w')).

(** What creating directories may change: nodes are added, none is lost. *)
Definition grows (w w' : World) : Prop :=
  cwd w' = cwd w
  /\ ofiles w' = ofiles w
  /\ forall p n, files w !! p = Some n -> files w' !! p = Some n.

(** The exceptions a computation can end with as long as no write to the
    device fails; it then leaves the device as sound as it found it. *)
Definition raises_only (P : exn -> Prop) {A} (m : M A) : Prop :=
  forall w, wfault w = None ->
    wfault (snd (m w)) = None /\ forall e, fst (m w) = Raise e -> P e.

(** Neither an IOError nor a TypeError. *)
Definition wrapped (e : exn) : Prop :=
  match e with IOError _ | TypeError _ => False | _ => True end.

(** Not a TypeError. *)
Definition io_level (e : exn) : Prop :=
  match e with TypeError _ => False | _ => True end.

(** The cache directory, when set, is a directory on the search path. *)
Definition cachedir_valid (w : World) : Prop :=
  forall d, _importcachedir w = Some d -> is_dir w d /\ d ∈ sys_path w.

(** The computation neither reads nor writes the cache directory setting. *)
Definition ignores_cachedir {A} (m : M A) : Prop :=
  forall x w, m (set__importcachedir x w)
              = (fst (m w), set__importcachedir x (snd (m w))).

(** ** Worked examples *)

Module Examples.

Definition source0 : string :=
  "include b.repy" +:+ newline +:+ "x = 1" +:+ newline +:+ "y = 2".

(** A directory [/r] on the path holding [a.repy], last modified at 100;
    the clock stands at 200. *)
Definition w0 : World :=
  mkWorld "/r"
    (<["/" := Dir true 0]>
       (<["/r" := Dir true 0]>
          (<["/r/a.repy" := File true true 100 source0]> ∅)))
    ["/r"] 200 None ∅ (<[0 := ∅]> ∅) None (PyRef 0).

(** The same with a hand-written file where the artifact would go. *)
Definition w_foreign : World :=
  set_files (<["/r/a_repy.py" := File true true 50 ("print 'mine'" +:+ newline)]>
               (files w0)) w0.

(** The same with an artifact whose generation was interrupted. *)
Definition truncated : string :=
  ENCODING_STRING +:+ newline +:+
  TRANSLATION_TAGLINE +:+ " /r/a.repy" +:+ newline +:+
  "x = 1" +:+ newline.

Definition w_truncated : World :=
  set_files (<["/r/a_repy.py" := File true true 150 truncated]> (files w0)) w0.

(** The source cannot be read. *)
Definition w_unreadable : World :=
  set_files (<["/r/a.repy" := File false true 100 source0]> (files w0)) w0.

(** The device is full: every write to it fails. *)
Definition w_full : World := set_wfault (Some 0) w0.

(** A source whose first line is longer than any buffer, on the full
    device. *)
Definition source_long : string :=
  string_of_list_ascii (repeat "#"%char (2 * OS.BUFSIZ)) +:+ newline +:+ "x = 1" +:+ newline.

Definition w_long_full : World :=
  set_wfault (Some 0)
    (set_files (<["/r/a.repy" := File true true 100 source_long]> (files w0)) w0).

(** The world after [translate("a.repy")] in [w0]. *)
Definition w1 : World := snd (translate "a.repy" true "import" None false w0).

Definition artifact0 : string := artifact_text "/r/a.repy" true "import" [] source0.

Definition w_dot : World :=
  mkWorld "/r" (files w0) ["."] 200 None ∅ (<[0 := ∅]> ∅) None (PyRef 0).

(** An artifact in the old format: the tag line first, no encoding line. *)
Definition legacy : string :=
  TRANSLATION_TAGLINE +:+ " /r/a.repy" +:+ newline +:+
  "x = 1" +:+ newline +:+
  newline +:+
  TRANSLATION_TAGLINE +:+ " /r/a.repy" +:+ newline.

(** The old-format artifact, newer than the source. *)
Definition w_legacy : World :=
  set_files (<["/r/a_repy.py" := File true true 150 legacy]> (files w0)) w0.

(** The old-format artifact, as old as the source. *)
Definition w_legacy_stale : World :=
  set_files (<["/r/a_repy.py" := File true true 100 legacy]> (files w0)) w0.

(** The artifact cannot be read. *)
Definition w_locked : World :=
  set_files (<["/r/a_repy.py" := File false true 150 legacy]> (files w0)) w0.

(** An empty search path. *)
Definition w_nopath : World :=
  mkWorld "/r" (files w0) [] 200 None ∅ (<[0 := ∅]> ∅) None (PyRef 0).

(** A second directory [/c] on the search path. *)
Definition w_cached : World :=
  mkWorld "/r" (<["/c" := Dir true 0]> (files w0)) ["/r"; "/c"] 200 None ∅
    (<[0 := ∅]> ∅) None (PyRef 0).

End Examples.

Import Examples.

(** * Properties *)

(** ** Running the monad *)

Lemma bind_ok {A B} (m : M A) (k : A -> M B) w a w' :
  m w = (Ok a, w') -> bind m k w = k a w'.
Proof. intros H. unfold bind. now rewrite H. Qed.

Lemma bind_raise {A B} (m : M A) (k : A -> M B) w e w' :
  m w = (Raise e, w') -> bind m k w = (Raise e, w').
Proof. intros H. unfold bind. now rewrite H. Qed.

Lemma last_default_irrelevant {A} (l : list A) (a b : A) :
  l <> [] -> List.last l a = List.last l b.
Proof.
  induction l as [|x l IH]; [congruence|]. intros _.
  destruct l as [|y l]; [reflexivity|].
  change (List.last (y :: l) a = List.last (y :: l) b). now apply IH.
Qed.

Lemma fold_left_last {A} (l : list A) (a : A) :
  fold_left (fun _ x => x) l a = List.last l a.
Proof.
  revert a. induction l as [|x l IH]; intros a; [reflexivity|].
  simpl fold_left. rewrite IH. destruct l as [|y l]; [reflexivity|].
  change (List.last (y :: l) x = List.last (y :: l) a).
  now apply last_default_irrelevant.
Qed.

Lemma isfile_is_file w p :
  OS.isfile p w = (Ok true, w) <-> is_file w p.
Proof.
  unfold OS.isfile, gets, is_file. split.
  - intros H. destruct (OS.resolve w p) as [[r wr t d|]|]; simplify_eq. eauto.
  - intros (r & wr & t & d & ->). reflexivity.
Qed.

Lemma stat_mtime_run p w : OS.stat_mtime p w = (fst (OS.stat_mtime p w), w).
Proof. unfold OS.stat_mtime. now repeat case_match. Qed.

Lemma translation_is_needed_readable w repy gen wr t d :
  is_file w repy ->
  OS.resolve w gen = Some (File true wr t d) ->
  _translation_is_needed repy gen w = (decide_stale w repy gen d, w).
Proof.
  intros Hsrc Hgen.
  apply isfile_is_file in Hsrc.
  unfold _translation_is_needed.
  rewrite (bind_ok _ _ _ _ _ Hsrc). cbn [negb].
  assert (Hg : OS.isfile gen w = (Ok true, w))
    by (apply isfile_is_file; red; eauto).
  rewrite (bind_ok _ _ _ _ _ Hg). cbn [negb].
  unfold decide_stale, generated_header, first_line, second_line, last_line_read.
  unfold bind at 1. unfold try_except, bind at 1, OS.open_r. rewrite Hgen.
  destruct (readlines d) as [|l1 [|l2 ls]]; cbn [OS.readline nth skipn ret];
    rewrite ?fold_left_last, ?drop_0.
  all: repeat match goal with
         | |- context [startswith ?a ?b] => generalize (startswith a b); intros []
         end.
  all: cbn [negb orb andb]; unfold bind, ret, raise, OS.abspath, gets; cbv beta iota;
    try reflexivity.
  all: match goal with |- context [String.eqb ?a ?b] => destruct (String.eqb a b) end.
  all: cbn [negb]; try reflexivity.
  all: rewrite (stat_mtime_run repy); cbn [fst];
    destruct (fst (OS.stat_mtime repy w)); cbn [fst]; try reflexivity.
  all: rewrite (stat_mtime_run gen); cbn [fst];
    destruct (fst (OS.stat_mtime gen w)); cbn [fst]; try reflexivity.
  all: now case_match.
Qed.

Lemma isfile_not_file w p :
  ~ is_file w p -> OS.isfile p w = (Ok false, w).
Proof.
  intros H. unfold OS.isfile, gets.
  destruct (OS.resolve w p) as [[r wr t d|]|] eqn:E; try reflexivity.
  exfalso. apply H. red. eauto.
Qed.

Lemma translation_is_needed_no_source w repy gen :
  ~ is_file w repy ->
  _translation_is_needed repy gen w =
    (Raise (TranslationError ["no such file:"; repy]), w).
Proof.
  intros H. unfold _translation_is_needed.
  now rewrite (bind_ok _ _ _ _ _ (isfile_not_file _ _ H)).
Qed.

Lemma translation_is_needed_no_artifact w repy gen :
  is_file w repy -> ~ is_file w gen ->
  _translation_is_needed repy gen w = (Ok true, w).
Proof.
  intros Hs Hg. unfold _translation_is_needed.
  apply isfile_is_file in Hs. rewrite (bind_ok _ _ _ _ _ Hs). cbn [negb].
  now rewrite (bind_ok _ _ _ _ _ (isfile_not_file _ _ Hg)).
Qed.

Lemma translation_is_needed_unreadable w repy gen wr t d :
  is_file w repy ->
  OS.resolve w gen = Some (File false wr t d) ->
  is_TranslationError (fst (_translation_is_needed repy gen w))
  /\ snd (_translation_is_needed repy gen w) = w.
Proof.
  intros Hs Hg. unfold _translation_is_needed.
  apply isfile_is_file in Hs. rewrite (bind_ok _ _ _ _ _ Hs). cbn [negb].
  assert (Hf : OS.isfile gen w = (Ok true, w))
    by (apply isfile_is_file; red; eauto).
  rewrite (bind_ok _ _ _ _ _ Hf). cbn [negb].
  unfold bind, try_except, OS.open_r. rewrite Hg.
  cbn. split; [red; eauto | reflexivity].
Qed.

Lemma is_file_dec w p : is_file w p \/ ~ is_file w p.
Proof.
  unfold is_file. destruct (OS.resolve w p) as [[r wr t d|]|].
  - left. eauto 10.
  - right. intros (r' & wr' & t' & d' & H). discriminate.
  - right. intros (r' & wr' & t' & d' & H). discriminate.
Qed.

Lemma startswith_empty_tag : startswith EmptyString TRANSLATION_TAGLINE = false.
Proof. reflexivity. Qed.

Lemma last_line_read_untagged d :
  startswith (last_line d) TRANSLATION_TAGLINE = false ->
  startswith (last_line_read d) TRANSLATION_TAGLINE = false.
Proof.
  unfold last_line, last_line_read.
  destruct (readlines d) as [|l1 [|l2 [|l3 ls]]]; try (intros; reflexivity).
  intros H. rewrite drop_0 || (change (drop 2 (l1 :: l2 :: l3 :: ls)) with (l3 :: ls)).
  exact H.
Qed.

(** C10.  The staleness check is read-only: whatever the two paths name,
    and whether the check answers, or fails because the source is missing,
    the artifact cannot be opened or the artifact is foreign, the world it
    ends in is the world it started in: no file is created, written or
    deleted, and the source and the artifact keep their contents and
    timestamps. *)
Theorem translation_is_needed_read_only (repyfilename generatedfile : string) (w : World) :
  snd (_translation_is_needed repyfilename generatedfile w) = w.
Proof.
  destruct (is_file_dec w repyfilename) as [Hs|Hs].
  2: now rewrite translation_is_needed_no_source.
  destruct (is_file_dec w generatedfile) as [Hg|Hg].
  2: now rewrite translation_is_needed_no_artifact.
  destruct Hg as ([|] & wr & t & d & Hg).
  - now rewrite (translation_is_needed_readable _ _ _ _ _ _ Hs Hg).
  - now apply (translation_is_needed_unreadable _ _ _ _ _ _ Hs Hg).
Qed.

(** C5.  Truncation recovery: for an artifact that passes the header check
    but whose last line does not start with the translation tag, the
    staleness check answers "regenerate" and raises nothing.  The source
    must exist and the artifact be readable, as they are whenever the check
    gets as far as the header. *)
Theorem truncated_artifact_is_regenerated (w : World) (repyfilename generatedfile : string)
    (wr : bool) (t : Z) (d : string) :
  is_file w repyfilename ->
  OS.resolve w generatedfile = Some (File true wr t d) ->
  generated_header d = true ->
  startswith (last_line d) TRANSLATION_TAGLINE = false ->
  _translation_is_needed repyfilename generatedfile w = (Ok true, w).
Proof.
  intros Hs Hg Hh Hl.
  rewrite (translation_is_needed_readable _ _ _ _ _ _ Hs Hg).
  unfold decide_stale. rewrite Hh, (last_line_read_untagged _ Hl). reflexivity.
Qed.

Lemma foreign_artifact_rejected w repy gen r wr t d :
  OS.resolve w gen = Some (File r wr t d) ->
  generated_header d = false ->
  is_TranslationError (fst (_translation_is_needed repy gen w))
  /\ snd (_translation_is_needed repy gen w) = w.
Proof.
  intros Hg Hh.
  destruct (is_file_dec w repy) as [Hs|Hs].
  2: { rewrite translation_is_needed_no_source by assumption.
       split; [red; eauto | reflexivity]. }
  destruct r.
  - rewrite (translation_is_needed_readable _ _ _ _ _ _ Hs Hg).
    unfold decide_stale. rewrite Hh. split; [red; eauto | reflexivity].
  - now apply (translation_is_needed_unreadable _ _ _ _ _ _ Hs Hg).
Qed.

Lemma normpath_nonempty p : PosixPath.normpath p <> EmptyString.
Proof.
  unfold PosixPath.normpath.
  destruct (String.eqb p ""); [discriminate|].
  match goal with |- (if String.eqb ?x "" then _ else _) <> _ =>
    destruct (String.eqb_spec x "") as [_|H]; [discriminate | exact H] end.
Qed.

Lemma abspath_nonempty c p : PosixPath.abspath c p <> EmptyString.
Proof. unfold PosixPath.abspath. destruct (PosixPath.isabs p); apply normpath_nonempty. Qed.

Lemma first_line_encoded rest :
  first_line (ENCODING_STRING +:+ newline +:+ rest) = ENCODING_STRING.
Proof. unfold first_line. cbn. reflexivity. Qed.

Lemma decide_stale_encoded w repy gen rest :
  decide_stale w repy gen (ENCODING_STRING +:+ newline +:+ rest) <> Ok false.
Proof.
  unfold decide_stale. rewrite first_line_encoded.
  destruct (negb (generated_header _)); [discriminate|].
  destruct (negb (startswith _ _)); [discriminate|].
  change (strip (slice_from (String.length TRANSLATION_TAGLINE) ENCODING_STRING))
    with EmptyString.
  destruct (String.eqb_spec EmptyString (PosixPath.abspath (cwd w) repy)) as [E|_].
  - exfalso. symmetry in E. revert E. apply abspath_nonempty.
  - discriminate.
Qed.

(** C1, a defect of the code.  The check takes the path of the old
    translation from the first line of the artifact, which in every artifact
    the generator writes is the encoding marker; the marker is shorter than
    the tag, so the path read is empty and never equals the absolute path of
    the source.  An artifact that starts with the encoding line is therefore
    never reported reusable, whatever the timestamps, and [translate] writes
    it again on every call. *)
Theorem generated_artifact_is_never_reused (w : World) (repyfilename generatedfile : string)
    (r wr : bool) (t : Z) (rest : string) :
  OS.resolve w generatedfile
    = Some (File r wr t (ENCODING_STRING +:+ newline +:+ rest)) ->
  fst (_translation_is_needed repyfilename generatedfile w) <> Ok false.
Proof.
  intros Hg.
  destruct (is_file_dec w repyfilename) as [Hs|Hs].
  2: { rewrite translation_is_needed_no_source by assumption. discriminate. }
  destruct r.
  - rewrite (translation_is_needed_readable _ _ _ _ _ _ Hs Hg).
    apply decide_stale_encoded.
  - destruct (translation_is_needed_unreadable _ _ _ _ _ _ Hs Hg) as [[a ->] _].
    discriminate.
Qed.

(** ** Writing to an open file *)

Lemma append_cons (x : ascii) (a b : string) :
  String x a +:+ b = String x (a +:+ b).
Proof. reflexivity. Qed.

Lemma append_nil_l (a : string) : EmptyString +:+ a = a.
Proof. reflexivity. Qed.

Lemma append_assoc (a b c : string) : (a +:+ b) +:+ c = a +:+ (b +:+ c).
Proof. induction a as [|x a IH]; [reflexivity|]. rewrite !append_cons. now rewrite IH. Qed.

Lemma append_nil_r (a : string) : a +:+ EmptyString = a.
Proof. induction a as [|x a IH]; [reflexivity|]. rewrite append_cons. now rewrite IH. Qed.

Section Writing.
Variables (w : World) (fd : nat) (a : string) (r wr : bool) (t : Z).

Local Abbreviation W := (writing w fd a r wr t).

Lemma fwrite_writing d soft s :
  OS.fwrite fd s (W d soft) = (Ok tt, W (d +:+ s) soft).
Proof.
  unfold OS.fwrite, writing. cbn [ofiles files wfault].
  rewrite lookup_insert_eq. cbn [of_path]. rewrite lookup_insert_eq.
  unfold set_files, set_wfault. cbn [ofiles files wfault cwd sys_path clock heap
    _importcachedir shared_context fmap option_fmap option_map].
  rewrite insert_insert_eq. now destruct (Nat.ltb _ _).
Qed.

Lemma fclose_writing d soft :
  OS.fclose fd (W d soft)
  = (Ok tt, set_ofiles (delete fd (ofiles (W d soft))) (W d soft)).
Proof.
  unfold OS.fclose, writing. cbn [ofiles files wfault].
  rewrite lookup_insert_eq. cbn [of_path]. rewrite lookup_insert_eq.
  now destruct (Nat.eqb _ _).
Qed.

Lemma softspace_writing d soft b :
  OS.softspace fd b (W d soft) = (Ok soft, W d b).
Proof.
  unfold OS.softspace, writing. cbn [ofiles]. rewrite lookup_insert_eq.
  unfold set_ofiles. cbn [ofiles files wfault cwd sys_path clock heap
    _importcachedir shared_context of_path of_softspace].
  now rewrite insert_insert_eq.
Qed.

Lemma print_item_writing d soft s :
  OS.print_item fd s (W d soft)
  = (Ok tt, W (d +:+ (if soft then " " else EmptyString) +:+ s)
              (negb (OS.ends_line s))).
Proof.
  unfold OS.print_item.
  rewrite (bind_ok _ _ _ _ _ (softspace_writing d soft false)).
  destruct soft.
  - rewrite (bind_ok _ _ _ _ _ (fwrite_writing d false " ")).
    rewrite (bind_ok _ _ _ _ _ (fwrite_writing _ false s)).
    rewrite append_assoc.
    destruct (OS.ends_line s); [reflexivity|].
    now rewrite (bind_ok _ _ _ _ _ (softspace_writing _ false true)).
  - unfold bind at 1, ret at 1.
    rewrite (bind_ok _ _ _ _ _ (fwrite_writing _ false s)).
    destruct (OS.ends_line s); [reflexivity|].
    now rewrite (bind_ok _ _ _ _ _ (softspace_writing _ false true)).
Qed.

Lemma print_newline_writing d soft :
  OS.print_newline fd (W d soft) = (Ok tt, W (d +:+ newline) false).
Proof.
  unfold OS.print_newline.
  rewrite (bind_ok _ _ _ _ _ (fwrite_writing d soft newline)).
  now rewrite (bind_ok _ _ _ _ _ (softspace_writing _ soft false)).
Qed.

Lemma print1_writing d s :
  OS.print1 fd s (W d false) = (Ok tt, W (d +:+ s +:+ newline) false).
Proof.
  unfold OS.print1.
  rewrite (bind_ok _ _ _ _ _ (print_item_writing d false s)).
  rewrite print_newline_writing. rewrite append_nil_l. now rewrite append_assoc.
Qed.

Lemma print2_writing d s1 s2 :
  OS.ends_line s1 = false ->
  OS.print2 fd s1 s2 (W d false)
  = (Ok tt, W (d +:+ s1 +:+ " " +:+ s2 +:+ newline) false).
Proof.
  intros Hs1. unfold OS.print2.
  rewrite (bind_ok _ _ _ _ _ (print_item_writing d false s1)). rewrite Hs1.
  cbn [negb].
  rewrite (bind_ok _ _ _ _ _ (print_item_writing _ true s2)).
  rewrite print_newline_writing. now rewrite !append_assoc.
Qed.

Lemma abspath_writing d soft p :
  OS.abspath p (W d soft) = (Ok (PosixPath.abspath (cwd w) p), W d soft).
Proof. reflexivity. Qed.

End Writing.

(** ** The translated body *)

Lemma ends_line_cons c l :
  l <> EmptyString -> OS.ends_line (String c l) = OS.ends_line l.
Proof. destruct l as [|x l]; [congruence|]. reflexivity. Qed.

Lemma ends_line_nonempty l : OS.ends_line l = true -> l <> EmptyString.
Proof. intros H ->. discriminate. Qed.

Lemma readlines_terminated d : terminated (readlines d).
Proof.
  induction d as [|c d IH]; [exact I|].
  cbn [readlines]. destruct (Ascii.eqb c nl).
  - cbn [terminated]. destruct (readlines d); [exact I|]. split; [reflexivity|exact IH].
  - destruct (readlines d) as [|l ls]; [exact I|].
    cbn [terminated] in *. destruct ls; [exact I|].
    destruct IH as [Hl IH]. split; [|exact IH].
    rewrite ends_line_cons; [exact Hl|]. now apply ends_line_nonempty.
Qed.

Section WritingBody.
Variables (w : World) (fd : nat) (a : string) (r wr : bool) (t : Z).

Local Abbreviation W := (writing w fd a r wr t).

Lemma process_line_writing d line :
  process_line fd line (W d false)
  = (Ok tt, W (d +:+ expand_line line)
              (negb (startswith line "include ") && negb (OS.ends_line line))).
Proof.
  unfold process_line, expand_line. cbv zeta.
  destruct (startswith line "include ").
  - rewrite print1_writing. rewrite !append_assoc. reflexivity.
  - rewrite print_item_writing. now rewrite append_nil_l.
Qed.

Lemma for_each_writing ls :
  terminated ls ->
  forall d, exists soft,
    for_each (process_line fd) ls (W d false)
    = (Ok tt, W (d +:+ foldr String.append EmptyString (map expand_line ls)) soft).
Proof.
  induction ls as [|l ls IH]; intros Ht d.
  - exists false. cbn. now rewrite append_nil_r.
  - cbn [for_each map foldr].
    rewrite (bind_ok _ _ _ _ _ (process_line_writing d l)).
    destruct ls as [|l' ls].
    + eexists. cbn [for_each map foldr ret]. rewrite append_nil_r. reflexivity.
    + destruct Ht as [Hl Ht]. rewrite Hl, andb_false_r.
      destruct (IH Ht (d +:+ expand_line l)) as [soft E].
      exists soft. rewrite E. now rewrite append_assoc.
Qed.

Lemma process_output_file_writing d filename generatedfilename wr' t' source :
  OS.resolve (W d false) filename = Some (File true wr' t' source) ->
  exists soft,
    _process_output_file fd filename generatedfilename (W d false)
    = (Ok tt, W (d +:+ translated_body source) soft).
Proof.
  intros Hsrc. unfold _process_output_file.
  destruct (for_each_writing _ (readlines_terminated source) d) as [soft E].
  exists soft. unfold bind at 1, try_except, bind at 1, OS.open_r.
  rewrite Hsrc. exact E.
Qed.

End WritingBody.

(** ** The generated artifact *)

Lemma open_w_inv w p fd w' :
  OS.open_w p w = (Ok fd, w') ->
  wfault w = None ->
  ofiles w !! fd = None /\
  exists r,
    w' = writing (set_clock (clock w + 1) w) fd (PosixPath.abspath (cwd w) p)
           r true (clock w) EmptyString false.
Proof.
  unfold OS.open_w. intros H Hf.
  assert (Hfresh : ofiles w !! fresh (dom (ofiles w)) = None)
    by (apply not_elem_of_dom, is_fresh).
  destruct w as [c fs sp ck wf os hp ic sc]. cbn in Hf. subst wf.
  cbn [cwd files ofiles clock] in *.
  repeat case_match; simplify_eq; (split; [assumption|]); eexists; reflexivity.
Qed.

Lemma resolve_writing_ne w fd a r wr t d soft p :
  PosixPath.abspath (cwd w) p <> a ->
  OS.resolve (writing w fd a r wr t d soft) p = OS.resolve w p.
Proof.
  intros Hne. unfold OS.resolve, writing. cbn [cwd files].
  now rewrite lookup_insert_ne by congruence.
Qed.

Lemma ends_line_tagline : OS.ends_line TRANSLATION_TAGLINE = false.
Proof. reflexivity. Qed.

Lemma generate_ok w repyfilename generatedfilename shared_mycontext callfunc callargs
    wr t source :
  wfault w = None ->
  can_open_for_writing w generatedfilename ->
  OS.resolve w repyfilename = Some (File true wr t source) ->
  PosixPath.abspath (cwd w) repyfilename <> PosixPath.abspath (cwd w) generatedfilename ->
  exists r,
    _generate_python_file_from_repy repyfilename generatedfilename
      shared_mycontext callfunc callargs w
    = (Ok tt,
       written w (PosixPath.abspath (cwd w) generatedfilename) r
         (artifact_text (PosixPath.abspath (cwd w) repyfilename)
            shared_mycontext callfunc callargs source)).
Proof.
  intros Hf [Hdir (fd & w1 & Hopen)] Hsrc Hne.
  destruct (open_w_inv _ _ _ _ Hopen Hf) as [Hfd [r ->]].
  exists r. unfold _generate_python_file_from_repy.
  set (a := PosixPath.abspath (cwd w) generatedfilename) in *.
  set (w1 := set_clock (clock w + 1) w).
  assert (Hfh : try_except
    (let dir := PosixPath.dirname generatedfilename in
     (if negb (String.eqb dir "") then
        do d <- OS.isdir dir; if negb d then OS.makedirs dir else ret tt
      else ret tt);;
     OS.open_w generatedfilename)
    (on_IOError (fun e =>
       raise (TranslationError ["Cannot open file for translation '" +:+ repyfilename
                                  +:+ "': " +:+ str_exn e]))) w
    = (Ok fd, writing w1 fd a r true (clock w) EmptyString false)).
  { unfold try_except. cbv zeta.
    destruct Hdir as [-> | (wr' & t' & Hd)].
    - cbn [String.eqb negb]. unfold bind, ret. now rewrite Hopen.
    - destruct (String.eqb _ ""); cbn [negb].
      + unfold bind, ret. now rewrite Hopen.
      + unfold bind, OS.isdir, gets. rewrite Hd. cbn [negb]. unfold ret.
        now rewrite Hopen. }
  rewrite (bind_ok _ _ _ _ _ Hfh). clear Hfh.
  unfold try_finally, try_except.
  rewrite (bind_ok _ _ _ _ _ (print1_writing _ _ _ _ _ _ _ _)).
  rewrite (bind_ok _ _ _ _ _ (abspath_writing _ _ _ _ _ _ _ _ _)).
  rewrite (bind_ok _ _ _ _ _ (print2_writing _ _ _ _ _ _ _ _ _ ends_line_tagline)).
  rewrite (bind_ok _ _ _ _ _ (print1_writing _ _ _ _ _ _ _ _)).
  rewrite (bind_ok _ _ _ _ _ (print1_writing _ _ _ _ _ _ _ _)).
  rewrite (bind_ok _ _ _ _ _ (print1_writing _ _ _ _ _ _ _ _)).
  rewrite (bind_ok _ _ _ _ _ (print1_writing _ _ _ _ _ _ _ _)).
  replace (if shared_mycontext
           then OS.print1 fd "mycontext = repyhelper.get_shared_context()"
           else OS.print1 fd "mycontext = {}")
    with (OS.print1 fd (mycontext_binding shared_mycontext))
    by now destruct shared_mycontext.
  rewrite (bind_ok _ _ _ _ _ (print1_writing _ _ _ _ _ _ _ _)).
  rewrite (bind_ok _ _ _ _ _
             (print2_writing _ _ _ _ _ _ _ "callfunc =" _ eq_refl)).
  rewrite (bind_ok _ _ _ _ _
             (print2_writing _ _ _ _ _ _ _ "callargs =" _ eq_refl)).
  rewrite (bind_ok _ _ _ _ _ (print_newline_writing _ _ _ _ _ _ _ _)).
  match goal with |- context [_process_output_file fd _ _;; _] =>
    match goal with |- context [writing w1 fd a r true (clock w) ?d false] =>
      destruct (process_output_file_writing w1 fd a r true (clock w) d
                  repyfilename generatedfilename wr t source) as [soft Hbody]
    end
  end.
  { rewrite resolve_writing_ne; [exact Hsrc | exact Hne]. }
  rewrite (bind_ok _ _ _ _ _ Hbody). clear Hbody.
  rewrite (bind_ok _ _ _ _ _ (print_newline_writing _ _ _ _ _ _ _ _)).
  rewrite (bind_ok _ _ _ _ _ (abspath_writing _ _ _ _ _ _ _ _ _)).
  rewrite (print2_writing _ _ _ _ _ _ _ _ _ ends_line_tagline).
  rewrite fclose_writing.
  unfold writing, written, set_ofiles, set_clock, set_files.
  subst w1. destruct w as [c fs sp ck wf os hp ic sc].
  cbn [cwd files sys_path clock wfault ofiles heap _importcachedir shared_context
       set_clock] in *.
  subst wf. rewrite delete_insert_id by exact Hfd.
  do 2 f_equal.
  unfold artifact_text, artifact_header. rewrite !append_assoc. reflexivity.
Qed.

(** ** Frame conditions

    A computation respects a preorder [R] on worlds when every run ends,
    normally or with an exception, in a world related to the one it
    started in. *)

Section Frame.
Context (R : World -> World -> Prop) `{!PreOrder R}.

Local Lemma R_refl w : R w w.
Proof. reflexivity. Qed.
Local Lemma R_trans w1 w2 w3 : R w1 w2 -> R w2 w3 -> R w1 w3.
Proof. intros. etransitivity; eassumption. Qed.

Lemma respects_ret {A} (a : A) : respects R (ret a).
Proof. intros w. apply R_refl. Qed.

Lemma respects_raise {A} (e : exn) : respects R (@raise A e).
Proof. intros w. apply R_refl. Qed.

Lemma respects_gets {A} (f : World -> A) : respects R (gets f).
Proof. intros w. apply R_refl. Qed.

Lemma respects_bind {A B} (m : M A) (k : A -> M B) :
  respects R m -> (forall a, respects R (k a)) -> respects R (bind m k).
Proof.
  intros Hm Hk w. unfold bind. specialize (Hm w).
  destruct (m w) as [[a|e] w']; cbn [snd] in *; [|exact Hm].
  eapply R_trans; [exact Hm | apply Hk].
Qed.

Lemma respects_try_except {A} (m : M A) (h : exn -> option (M A)) :
  respects R m -> (forall e k, h e = Some k -> respects R k) ->
  respects R (try_except m h).
Proof.
  intros Hm Hh w. unfold try_except. specialize (Hm w).
  destruct (m w) as [[a|e] w']; cbn [snd] in *; [exact Hm|].
  destruct (h e) as [k|] eqn:E; [|exact Hm].
  eapply R_trans; [exact Hm | now apply (Hh e k)].
Qed.

Lemma respects_try_finally {A} (m : M A) (f : M unit) :
  respects R m -> respects R f -> respects R (try_finally m f).
Proof.
  intros Hm Hf w. unfold try_finally. specialize (Hm w).
  destruct (m w) as [r w']. specialize (Hf w'). cbn [snd] in *.
  destruct (f w') as [[u|e] w'']; cbn [snd] in *; eapply R_trans; eauto.
Qed.

Lemma respects_for_each {A} (f : A -> M unit) (l : list A) :
  (forall x, respects R (f x)) -> respects R (for_each f l).
Proof.
  intros Hf. induction l as [|x l IH]; cbn [for_each].
  - apply respects_ret.
  - apply respects_bind; [apply Hf | intros _; exact IH].
Qed.

Lemma respects_on_IOError {A} (k : exn -> M A) e k' :
  (forall e, respects R (k e)) -> on_IOError k e = Some k' -> respects R k'.
Proof. intros Hk. destruct e; cbn; intros; simplify_eq. apply Hk. Qed.

Lemma respects_on_IOError_OSError {A} (k : M A) e k' :
  respects R k -> on_IOError_OSError k e = Some k' -> respects R k'.
Proof. intros Hk. destruct e; cbn; intros; simplify_eq; exact Hk. Qed.

End Frame.

(** Steps through the structure of a computation. *)
Ltac frame_step :=
  first
    [ apply respects_ret; typeclasses eauto
    | apply respects_raise; typeclasses eauto
    | apply respects_gets; typeclasses eauto
    | apply respects_bind; [ typeclasses eauto | | intros ]
    | apply respects_try_except; [ typeclasses eauto | | intros ]
    | apply respects_try_finally; [ typeclasses eauto | | ]
    | apply respects_for_each; [ typeclasses eauto | intros ]
    | match goal with
      | H : on_IOError ?k ?e = Some ?k' |- respects ?R ?k' =>
          apply (fun p => respects_on_IOError R k e k' p H); clear H; intros
      | H : on_IOError_OSError ?k ?e = Some ?k' |- respects ?R ?k' =>
          apply (fun p => respects_on_IOError_OSError R k e k' p H); clear H
      end
    | progress cbv zeta
    | match goal with
      | |- respects _ (if ?b then _ else _) => destruct b
      | |- respects _ (match ?x with _ => _ end) => destruct x
      | |- respects _ (let (_, _) := ?x in _) => destruct x
      end ].

(** *** Read-only computations *)

Lemma read_only_isfile p : read_only (OS.isfile p).
Proof. frame_step. Qed.
Lemma read_only_isdir p : read_only (OS.isdir p).
Proof. frame_step. Qed.
Lemma read_only_abspath p : read_only (OS.abspath p).
Proof. frame_step. Qed.
Lemma read_only_stat_mtime p : read_only (OS.stat_mtime p).
Proof. intros w. unfold OS.stat_mtime. now repeat case_match. Qed.
Lemma read_only_open_r p : read_only (OS.open_r p).
Proof. intros w. unfold OS.open_r. now repeat case_match. Qed.

Create HintDb frame.
#[export] Hint Resolve read_only_isfile read_only_isdir read_only_abspath
  read_only_stat_mtime read_only_open_r : frame.

Ltac frame := repeat (first [solve [auto with frame] | frame_step]).

Lemma read_only_search_path filename path : read_only (search_path filename path).
Proof.
  induction path as [|d path IH]; cbn [search_path]; [frame|].
  frame_step; [apply read_only_isfile|].
  destruct a; [frame | exact IH].
Qed.
#[export] Hint Resolve read_only_search_path : frame.

Lemma read_only_sys_path_0 : read_only sys_path_0.
Proof. unfold sys_path_0. frame. Qed.
#[export] Hint Resolve read_only_sys_path_0 : frame.

Lemma read_only_translate_paths filename : read_only (translate_paths filename).
Proof. unfold translate_paths. frame. Qed.

Lemma read_only_translation_is_needed repy gen :
  read_only (_translation_is_needed repy gen).
Proof. unfold _translation_is_needed. frame. Qed.

Lemma read_only_respects (R : World -> World -> Prop) `{!PreOrder R} {A} (m : M A) :
  read_only m -> respects R m.
Proof. intros H w. rewrite (H w) at 1. reflexivity. Qed.

(** *** Computations that leave the interpreter's globals alone *)

#[global] Instance same_globals_preorder : PreOrder same_globals.
Proof.
  split.
  - intros w. repeat split.
  - intros w1 w2 w3 (?&?&?&?&?) (?&?&?&?&?). repeat split; congruence.
Qed.

Ltac keeps_globals_prim :=
  intros w; unfold same_globals;
  repeat first [ progress cbn [snd cwd sys_path heap _importcachedir shared_context
                                set_files set_clock set_ofiles set_wfault]
               | case_match ];
  repeat split.

Lemma keeps_globals_open_w p : keeps_globals (OS.open_w p).
Proof. unfold OS.open_w. keeps_globals_prim. Qed.
Lemma keeps_globals_fwrite fd s : keeps_globals (OS.fwrite fd s).
Proof. unfold OS.fwrite. keeps_globals_prim. Qed.
Lemma keeps_globals_softspace fd b : keeps_globals (OS.softspace fd b).
Proof. unfold OS.softspace. keeps_globals_prim. Qed.
Lemma keeps_globals_fclose fd : keeps_globals (OS.fclose fd).
Proof. unfold OS.fclose, modify. keeps_globals_prim. Qed.
Lemma keeps_globals_remove p : keeps_globals (OS.remove p).
Proof. unfold OS.remove. keeps_globals_prim. Qed.
Lemma keeps_globals_makedirs p : keeps_globals (OS.makedirs p).
Proof. unfold OS.makedirs. keeps_globals_prim. Qed.

#[export] Hint Resolve keeps_globals_open_w keeps_globals_fwrite
  keeps_globals_softspace keeps_globals_fclose keeps_globals_remove
  keeps_globals_makedirs : frame.
#[export] Hint Resolve read_only_translate_paths read_only_translation_is_needed
  : frame.
#[export] Hint Extern 5 (respects same_globals _) =>
  (apply read_only_respects; [typeclasses eauto | solve [auto with frame]]) : frame.

Lemma keeps_globals_print_item fd s : keeps_globals (OS.print_item fd s).
Proof. unfold OS.print_item. frame. Qed.
Lemma keeps_globals_print_newline fd : keeps_globals (OS.print_newline fd).
Proof. unfold OS.print_newline. frame. Qed.
#[export] Hint Resolve keeps_globals_print_item keeps_globals_print_newline : frame.

Lemma keeps_globals_print1 fd s : keeps_globals (OS.print1 fd s).
Proof. unfold OS.print1. frame. Qed.
Lemma keeps_globals_print2 fd s1 s2 : keeps_globals (OS.print2 fd s1 s2).
Proof. unfold OS.print2. frame. Qed.
#[export] Hint Resolve keeps_globals_print1 keeps_globals_print2 : frame.

Lemma keeps_globals_process_output_file fd src gen :
  keeps_globals (_process_output_file fd src gen).
Proof. unfold _process_output_file, process_line. frame. Qed.
#[export] Hint Resolve keeps_globals_process_output_file : frame.

Lemma keeps_globals_generate src gen sh cf ca :
  keeps_globals (_generate_python_file_from_repy src gen sh cf ca).
Proof. unfold _generate_python_file_from_repy. frame. Qed.

#[export] Hint Resolve keeps_globals_generate : frame.

Lemma keeps_globals_translate filename sh cf ca fo :
  keeps_globals (translate filename sh cf ca fo).
Proof. unfold translate. frame. Qed.

(** ** The orchestrator *)

Lemma translate_paths_run filename w :
  translate_paths filename w = (fst (translate_paths filename w), w).
Proof.
  pose proof (read_only_translate_paths filename w) as H.
  destruct (translate_paths filename w) as [r w']. cbn in *. now subst.
Qed.

Lemma translation_is_needed_run repy gen w :
  _translation_is_needed repy gen w = (fst (_translation_is_needed repy gen w), w).
Proof.
  pose proof (read_only_translation_is_needed repy gen w) as H.
  destruct (_translation_is_needed repy gen w) as [r w']. cbn in *. now subst.
Qed.

Lemma translate_forced filename sh cf ca w src dest gen :
  fst (translate_paths filename w) = Ok (src, dest, gen) ->
  translate filename sh cf ca true w
  = (_generate_python_file_from_repy src gen sh cf (default_callargs ca);;
     ret (module_name filename)) w.
Proof.
  intros H. unfold translate.
  rewrite (bind_ok _ _ w _ w (eq_trans (translate_paths_run _ _) (f_equal (fun x => (x, w)) H))).
  cbv beta iota. unfold bind at 1, ret at 1. reflexivity.
Qed.

Lemma translate_checked filename sh cf ca w src dest gen :
  fst (translate_paths filename w) = Ok (src, dest, gen) ->
  translate filename sh cf ca false w
  = match fst (_translation_is_needed src gen w) with
    | Ok true =>
        (_generate_python_file_from_repy src gen sh cf (default_callargs ca);;
         ret (module_name filename)) w
    | Ok false => (Ok (module_name filename), w)
    | Raise e => (Raise e, w)
    end.
Proof.
  intros H. unfold translate.
  rewrite (bind_ok _ _ w _ w (eq_trans (translate_paths_run _ _) (f_equal (fun x => (x, w)) H))).
  cbv beta iota. unfold bind at 1.
  rewrite translation_is_needed_run.
  destruct (fst (_translation_is_needed src gen w)) as [[|]|e]; reflexivity.
Qed.

(** C2.  Foreign-file protection.  When the artifact path of [filename]
    holds a file whose first lines match neither the encoding marker followed
    by the tag nor the tag alone, the staleness check raises a
    TranslationError for every source and changes nothing; [translate]
    without [force_overwrite] raises that error and leaves the file as it
    was; with [force_overwrite] the check is not run, [translate] is the
    generator followed by the return of the module name, and, when the
    artifact can be opened for writing and the source read, the file is
    replaced by the generated artifact. *)
Theorem foreign_file_is_not_overwritten (w : World) (filename : string)
    (shared_mycontext : bool) (callfunc : string) (callargs : option (list string))
    (src dest gen : string) (r wr : bool) (t : Z) (d : string) :
  fst (translate_paths filename w) = Ok (src, dest, gen) ->
  OS.resolve w gen = Some (File r wr t d) ->
  generated_header d = false ->
  (forall repyfilename,
     is_TranslationError (fst (_translation_is_needed repyfilename gen w))
     /\ snd (_translation_is_needed repyfilename gen w) = w)
  /\ (is_TranslationError
        (fst (translate filename shared_mycontext callfunc callargs false w))
      /\ snd (translate filename shared_mycontext callfunc callargs false w) = w)
  /\ translate filename shared_mycontext callfunc callargs true w
     = (_generate_python_file_from_repy src gen shared_mycontext callfunc
          (default_callargs callargs);;
        ret (module_name filename)) w
  /\ (forall wr' t' source,
        wfault w = None ->
        can_open_for_writing w gen ->
        OS.resolve w src = Some (File true wr' t' source) ->
        PosixPath.abspath (cwd w) src <> PosixPath.abspath (cwd w) gen ->
        exists r',
          translate filename shared_mycontext callfunc callargs true w
          = (Ok (module_name filename),
             written w (PosixPath.abspath (cwd w) gen) r'
               (artifact_text (PosixPath.abspath (cwd w) src) shared_mycontext
                  callfunc (default_callargs callargs) source))).
Proof.
  intros Hp Hg Hh.
  assert (Hcheck : forall repy,
    is_TranslationError (fst (_translation_is_needed repy gen w))
    /\ snd (_translation_is_needed repy gen w) = w)
    by (intros repy; eapply foreign_artifact_rejected; eassumption).
  split; [exact Hcheck|]. split; [|split].
  - rewrite (translate_checked _ _ _ _ _ _ _ _ Hp).
    destruct (Hcheck src) as [[args ->] _]. split; [red; eauto | reflexivity].
  - now apply translate_forced with dest.
  - intros wr' t' source Hf Hw Hs Hne.
    destruct (generate_ok w src gen shared_mycontext callfunc (default_callargs callargs)
                wr' t' source Hf Hw Hs Hne) as [r' E].
    exists r'. rewrite (translate_forced _ _ _ _ _ _ _ _ Hp).
    now rewrite (bind_ok _ _ _ _ _ E).
Qed.

Lemma isdir_is_dir w p : OS.isdir p w = (Ok true, w) <-> is_dir w p.
Proof.
  unfold OS.isdir, gets, is_dir. split.
  - intros H. destruct (OS.resolve w p) as [[r wr t d|wr t]|]; simplify_eq. eauto.
  - intros (wr & t & ->). reflexivity.
Qed.

Lemma isdir_not_dir w p : ~ is_dir w p -> OS.isdir p w = (Ok false, w).
Proof.
  intros H. unfold OS.isdir, gets.
  destruct (OS.resolve w p) as [[r wr t d|wr t]|] eqn:E; try reflexivity.
  exfalso. apply H. red. eauto.
Qed.

(** A file name is its own base name exactly when it has no separator. *)
Lemma rsplit_spec p :
  let (h, t) := PosixPath.rsplit p in
  p = h +:+ t /\ (h = EmptyString <-> contains PosixPath.sep p = false).
Proof.
  induction p as [|c p IH]; [now split|].
  cbn [PosixPath.rsplit contains]. destruct (PosixPath.rsplit p) as [h t].
  destruct IH as [Hp Hh]. destruct h as [|x h].
  - destruct (Ascii.eqb c PosixPath.sep) eqn:E.
    + split; [now rewrite Hp | split; [discriminate | cbn; discriminate]].
    + split; [now rewrite Hp|]. split; [intros _; cbn; now apply Hh | reflexivity].
  - split; [now rewrite Hp, append_cons|].
    split; [discriminate|]. intros H. apply orb_false_elim in H as [_ H].
    apply Hh in H. discriminate.
Qed.

Lemma length_append (a b : string) :
  String.length (a +:+ b) = String.length a + String.length b.
Proof. induction a as [|x a IH]; [reflexivity|]. rewrite append_cons. cbn. now rewrite IH. Qed.

Lemma append_same_length_nil (h t : string) : h +:+ t = t -> h = EmptyString.
Proof.
  intros H. apply (f_equal String.length) in H.
  rewrite length_append in H. destruct h; [reflexivity|]. cbn in H. lia.
Qed.

Lemma is_dir_dec w p : is_dir w p \/ ~ is_dir w p.
Proof.
  unfold is_dir. destruct (OS.resolve w p) as [[r wr t d|wr t]|].
  - right. intros (wr' & t' & H). discriminate.
  - left. eauto.
  - right. intros (wr' & t' & H). discriminate.
Qed.

Lemma is_basename_iff filename :
  String.eqb filename (PosixPath.basename filename)
  = negb (contains PosixPath.sep filename).
Proof.
  unfold PosixPath.basename. pose proof (rsplit_spec filename) as H.
  destruct (PosixPath.rsplit filename) as [h t]. destruct H as [Hp Hh]. cbn [snd].
  destruct (contains PosixPath.sep filename) eqn:E; cbn [negb].
  - apply String.eqb_neq. intros Heq. rewrite Heq in Hp at 1.
    symmetry in Hp. apply append_same_length_nil in Hp.
    apply Hh in Hp. discriminate.
  - apply String.eqb_eq. destruct Hh as [_ Hh]. rewrite (Hh eq_refl) in Hp. exact Hp.
Qed.

Lemma search_path_found filename pre d post w :
  Forall (fun e => ~ is_file w (PosixPath.join e filename)) pre ->
  is_file w (PosixPath.join d filename) ->
  search_path filename (pre ++ d :: post) w
  = (Ok (Some (PosixPath.join d filename, d)), w).
Proof.
  intros Hpre Hd. induction Hpre as [|e pre He Hpre IH]; cbn [app search_path].
  - apply isfile_is_file in Hd. now rewrite (bind_ok _ _ _ _ _ Hd).
  - now rewrite (bind_ok _ _ _ _ _ (isfile_not_file _ _ He)).
Qed.

Lemma search_path_missing filename path w :
  Forall (fun e => ~ is_file w (PosixPath.join e filename)) path ->
  search_path filename path w = (Ok None, w).
Proof.
  intros H. induction H as [|e path He H IH]; cbn [search_path]; [reflexivity|].
  now rewrite (bind_ok _ _ _ _ _ (isfile_not_file _ _ He)).
Qed.

Lemma translate_paths_raise filename sh cf ca fo w e :
  fst (translate_paths filename w) = Raise e ->
  translate filename sh cf ca fo w = (Raise e, w).
Proof.
  intros H. unfold translate.
  now rewrite (bind_raise _ _ w _ w
    (eq_trans (translate_paths_run _ _) (f_equal (fun x => (x, w)) H))).
Qed.

(** C6.  Resolution of the source and of the output directory.  A file
    name with a directory separator is the source as given: with a non-empty
    search path, the default output directory is its first entry, and a
    ValueError is raised when the directory of the file or the file is
    missing.  A file name without separator is looked up along the search
    path: the first entry that holds it gives the source and the default
    output directory, and a ValueError is raised when no entry holds it.  In
    both cases the cache directory, when set, replaces the default. *)
Theorem translate_resolves_source_and_destination (w : World) (filename : string) :
  (contains PosixPath.sep filename = true ->
   forall d0 rest, sys_path w = d0 :: rest ->
     let filedir := PosixPath.abspath (cwd w) (PosixPath.dirname filename) in
     (is_dir w filedir -> is_file w filename ->
      translate_paths filename w
      = (Ok (filename, destdir_of w d0, artifact_path (destdir_of w d0) filename), w))
     /\ (~ is_dir w filedir \/ ~ is_file w filename ->
         forall sh cf ca fo,
           is_ValueError (fst (translate filename sh cf ca fo w))
           /\ snd (translate filename sh cf ca fo w) = w))
  /\
  (contains PosixPath.sep filename = false ->
   (forall pre d post,
      sys_path w = pre ++ d :: post ->
      Forall (fun e => ~ is_file w (PosixPath.join e filename)) pre ->
      is_file w (PosixPath.join d filename) ->
      translate_paths filename w
      = (Ok (PosixPath.join d filename, destdir_of w d,
             artifact_path (destdir_of w d) filename), w))
   /\ (Forall (fun e => ~ is_file w (PosixPath.join e filename)) (sys_path w) ->
       forall sh cf ca fo,
         is_ValueError (fst (translate filename sh cf ca fo w))
         /\ snd (translate filename sh cf ca fo w) = w)).
Proof.
  split; intros Hsep.
  - intros d0 rest Hpath filedir.
    assert (Hp0 : sys_path_0 w = (Ok d0, w)).
    { unfold sys_path_0, bind, gets. now rewrite Hpath. }
    split.
    + intros Hd Hf. unfold translate_paths. rewrite is_basename_iff, Hsep. cbn [negb].
      apply isdir_is_dir in Hd. apply isfile_is_file in Hf.
      unfold bind at 1. unfold bind at 1. unfold OS.abspath at 1, gets at 1.
      cbv beta iota. rewrite (bind_ok _ _ _ _ _ Hp0).
      fold filedir. rewrite (bind_ok _ _ _ _ _ Hd). cbn [negb].
      rewrite (bind_ok _ _ _ _ _ Hf). cbn [negb]. reflexivity.
    + intros Hno sh cf ca fo.
      assert (E : is_ValueError (fst (translate_paths filename w))).
      { unfold translate_paths. rewrite is_basename_iff, Hsep. cbn [negb].
        unfold bind at 1. unfold bind at 1. unfold OS.abspath at 1, gets at 1.
        cbv beta iota. rewrite (bind_ok _ _ _ _ _ Hp0). fold filedir.
        destruct (is_dir_dec w filedir) as [Hd|Hd].
        - destruct Hno as [Hno|Hno]; [contradiction|].
          apply isdir_is_dir in Hd. rewrite (bind_ok _ _ _ _ _ Hd). cbn [negb].
          rewrite (bind_ok _ _ _ _ _ (isfile_not_file _ _ Hno)). cbn. red; eauto.
        - rewrite (bind_ok _ _ _ _ _ (isdir_not_dir _ _ Hd)). cbn. red; eauto. }
      destruct E as [args E].
      rewrite (translate_paths_raise _ _ _ _ _ _ _ E). split; [red; eauto|reflexivity].
  - split.
    + intros pre d post Hpath Hpre Hd.
      unfold translate_paths. rewrite is_basename_iff, Hsep. cbn [negb].
      unfold bind at 1. unfold bind at 1. unfold gets at 1. cbv beta iota.
      rewrite Hpath. rewrite (bind_ok _ _ _ _ _ (search_path_found _ _ _ _ _ Hpre Hd)).
      reflexivity.
    + intros Hnone sh cf ca fo.
      assert (E : is_ValueError (fst (translate_paths filename w))).
      { unfold translate_paths. rewrite is_basename_iff, Hsep. cbn [negb].
        unfold bind at 1. unfold bind at 1. unfold gets at 1. cbv beta iota.
        rewrite (bind_ok _ _ _ _ _ (search_path_missing _ _ _ Hnone)). cbn. red; eauto. }
      destruct E as [args E].
      rewrite (translate_paths_raise _ _ _ _ _ _ _ E). split; [red; eauto|reflexivity].
Qed.

(** ** Merging a module into the caller's scope *)

Lemma import_member_other preserve (g : gmap string pyval) n v name :
  name <> n -> import_member preserve g (n, v) !! name = g !! name.
Proof.
  intros Hne. unfold import_member.
  repeat case_match; try reflexivity. now rewrite lookup_insert_ne.
Qed.

Lemma import_member_excluded preserve (g : gmap string pyval) n v :
  excluded n -> import_member preserve g (n, v) = g.
Proof.
  intros [H|H]; unfold import_member.
  - now rewrite H.
  - destruct (startswith n "_"); [reflexivity|]. now rewrite bool_decide_eq_true_2.
Qed.

Lemma import_member_included preserve (g : gmap string pyval) n v :
  ~ excluded n ->
  import_member preserve g (n, v) !! n
  = if preserve then Some (default v (g !! n)) else Some v.
Proof.
  intros Hex. unfold import_member.
  destruct (startswith n "_") eqn:E; [exfalso; apply Hex; now left|].
  rewrite bool_decide_eq_false_2 by (intros H; apply Hex; now right).
  destruct preserve.
  - rewrite andb_true_r. destruct (bool_decide (n ∈ dom g)) eqn:D.
    + apply bool_decide_eq_true_1, elem_of_dom in D as [x Hx]. now rewrite Hx.
    + apply bool_decide_eq_false_1, not_elem_of_dom in D.
      rewrite lookup_insert_eq, D. reflexivity.
  - rewrite andb_false_r. now rewrite lookup_insert_eq.
Qed.

Lemma merge_untouched preserve members (g : gmap string pyval) name :
  excluded name \/ name ∉ map fst members ->
  _import_file_contents_to_caller_namespace members preserve g !! name = g !! name.
Proof.
  unfold _import_file_contents_to_caller_namespace.
  revert g. induction members as [|[n v] members IH]; intros g H; [reflexivity|].
  cbn [fold_left]. rewrite IH.
  - destruct (decide (name = n)) as [->|Hne].
    + destruct H as [H|H]; [now rewrite import_member_excluded|].
      exfalso. apply H. cbn. left.
    + now apply import_member_other.
  - destruct H as [H|H]; [now left|]. right. intros Hin. apply H. cbn. now right.
Qed.

Lemma blacklist_spec name :
  name ∈ GLOBAL_VARS_BLACKLIST
  <-> name = "mycontext" \/ name = "callfunc" \/ name = "callargs" \/ name = "repyhelper".
Proof.
  unfold GLOBAL_VARS_BLACKLIST. rewrite !elem_of_union, !elem_of_singleton. tauto.
Qed.

(** C7.  Scope hygiene of the merge.  The exclusion set holds the four
    names [mycontext], [callfunc], [callargs] and [repyhelper].  A name that
    starts with an underscore or is in the exclusion set is bound after the
    merge exactly as before it.  Every other member of the module is bound
    in the caller's scope: to the member's value when the caller had no
    binding or [preserve_globals] is false, to the caller's own value when it
    had one and [preserve_globals] is true. *)
Theorem merge_honours_exclusions_and_collisions
    (import_module : list (string * pyval)) (preserve_globals : bool)
    (caller_globals : gmap string pyval) :
  NoDup (map fst import_module) ->
  let merged :=
    _import_file_contents_to_caller_namespace import_module preserve_globals
      caller_globals in
  forall name,
    (name ∈ GLOBAL_VARS_BLACKLIST
     <-> name = "mycontext" \/ name = "callfunc" \/ name = "callargs"
         \/ name = "repyhelper")
    /\ (startswith name "_" = true \/ name ∈ GLOBAL_VARS_BLACKLIST ->
        merged !! name = caller_globals !! name)
    /\ (forall definition,
          (name, definition) ∈ import_module ->
          startswith name "_" = false ->
          name ∉ GLOBAL_VARS_BLACKLIST ->
          merged !! name
          = match caller_globals !! name with
            | Some existing => Some (if preserve_globals then existing else definition)
            | None => Some definition
            end).
Proof.
  intros Hnd merged name. split; [apply blacklist_spec|]. split.
  - intros H. apply merge_untouched. now left.
  - intros definition Hin Hu Hb.
    assert (Hex : ~ excluded name) by (intros [H|H]; congruence).
    apply list_elem_of_split in Hin as (l1 & l2 & ->).
    rewrite map_app in Hnd. cbn [map fst] in Hnd.
    apply NoDup_app in Hnd as (_ & Hl1 & Hnd).
    apply NoDup_cons in Hnd as [Hl2 _].
    assert (Hn1 : name ∉ map fst l1).
    { intros H. apply (Hl1 _ H). left. }
    subst merged. unfold _import_file_contents_to_caller_namespace.
    rewrite fold_left_app. cbn [fold_left].
    fold (_import_file_contents_to_caller_namespace l1 preserve_globals caller_globals).
    set (g1 := _import_file_contents_to_caller_namespace l1 preserve_globals caller_globals).
    assert (Hg1 : g1 !! name = caller_globals !! name)
      by (apply merge_untouched; now right).
    fold (_import_file_contents_to_caller_namespace l2 preserve_globals
            (import_member preserve_globals g1 (name, definition))).
    rewrite merge_untouched by now right.
    rewrite import_member_included by assumption. rewrite Hg1.
    destruct preserve_globals, (caller_globals !! name); reflexivity.
Qed.

(** ** Configuration *)

(** C9, as the code has it.  [set_importcachedir] clears the override for
    None, raises a TypeError for any other value that is not a string, and
    for a string validates the directory it names, which is ['.'] for the
    empty string: TypeError when it is not an existing directory, ValueError
    when it is not an entry of the search path, and otherwise the override is
    set to it.  [set_shared_context] raises a TypeError for None and for
    any other value replaces the shared context by it. *)
Theorem configuration_is_validated (w : World) :
  set_importcachedir PyNone w = (Ok tt, set__importcachedir None w)
  /\ (forall v, v <> PyNone -> (forall s, v <> PyStr s) ->
        is_TypeError (fst (set_importcachedir v w))
        /\ snd (set_importcachedir v w) = w)
  /\ (forall s,
        (~ is_dir w (cachedir_of s) ->
           is_TypeError (fst (set_importcachedir (PyStr s) w))
           /\ snd (set_importcachedir (PyStr s) w) = w)
        /\ (is_dir w (cachedir_of s) -> cachedir_of s ∉ sys_path w ->
              is_ValueError (fst (set_importcachedir (PyStr s) w))
              /\ snd (set_importcachedir (PyStr s) w) = w)
        /\ (is_dir w (cachedir_of s) -> cachedir_of s ∈ sys_path w ->
              set_importcachedir (PyStr s) w
              = (Ok tt, set__importcachedir (Some (cachedir_of s)) w)))
  /\ (is_TypeError (fst (set_shared_context PyNone w))
      /\ snd (set_shared_context PyNone w) = w)
  /\ (forall c, c <> PyNone -> set_shared_context c w = (Ok tt, set_shared c w)).
Proof.
  split; [reflexivity|]. split; [|split; [|split]].
  - intros v Hn Hs.
    destruct v as [|b|z|s|l];
      [congruence | | | exfalso; now apply (Hs s) | ];
      cbn; (split; [red; eauto|reflexivity]).
  - intros s. unfold set_importcachedir. fold (cachedir_of s). split; [|split].
    + intros Hd. rewrite (bind_ok _ _ _ _ _ (isdir_not_dir _ _ Hd)). cbn.
      split; [red; eauto|reflexivity].
    + intros Hd Hp. apply isdir_is_dir in Hd. rewrite (bind_ok _ _ _ _ _ Hd).
      cbn [negb]. unfold bind, gets. rewrite bool_decide_eq_false_2 by assumption.
      cbn. split; [red; eauto|reflexivity].
    + intros Hd Hp. apply isdir_is_dir in Hd. rewrite (bind_ok _ _ _ _ _ Hd).
      cbn [negb]. unfold bind, gets. rewrite bool_decide_eq_true_2 by assumption.
      reflexivity.
  - cbn. split; [red; eauto|reflexivity].
  - intros c Hc. destruct c; try congruence; reflexivity.
Qed.

(** ** The shared context *)

Lemma new_dict_fresh w :
  exists l,
    new_dict w = (Ok (PyRef l), set_heap (<[l := ∅]> (heap w)) w)
    /\ heap w !! l = None.
Proof.
  exists (fresh (dom (heap w))). split; [reflexivity|].
  apply not_elem_of_dom, is_fresh.
Qed.

Lemma module_init_allocates w :
  exists l,
    heap w !! l = None
    /\ module_init w
       = (Ok tt, set__importcachedir None
                   (set_shared (PyRef l) (set_heap (<[l := ∅]> (heap w)) w))).
Proof.
  destruct (new_dict_fresh w) as (l & E & Hl). exists l. split; [exact Hl|].
  unfold module_init. now rewrite (bind_ok _ _ _ _ _ E).
Qed.

(** ** Failures during generation *)

Lemma open_r_unreadable w p :
  unreadable w p -> exists args, OS.open_r p w = (Raise (IOError args), w).
Proof.
  intros H. unfold OS.open_r.
  destruct (OS.resolve w p) as [[[|] wr t d|wr t]|] eqn:E; eauto.
  exfalso. now apply (H wr t d).
Qed.

Lemma remove_swallowed p w :
  try_except (OS.remove p) (on_IOError_OSError (ret tt)) w
  = (Ok tt, snd (OS.remove p w)).
Proof.
  unfold try_except.
  destruct (OS.remove p w) as [[u|e] w'] eqn:E; [now destruct u|].
  assert (He : exists args, e = OSError args /\ w' = w).
  { unfold OS.remove in E. repeat case_match; simplify_eq; eauto. }
  destruct He as (args & -> & ->). reflexivity.
Qed.

Lemma process_output_file_unreadable fd filename generatedfilename w :
  unreadable w filename ->
  exists args,
    _process_output_file fd filename generatedfilename w
    = (Raise (TranslationError args), snd (OS.remove generatedfilename w)).
Proof.
  intros H. destruct (open_r_unreadable _ _ H) as [args E].
  eexists. unfold _process_output_file.
  unfold bind at 1, try_except at 1, bind at 1. rewrite E.
  cbn [on_IOError]. rewrite (bind_ok _ _ _ _ _ (remove_swallowed _ _)).
  reflexivity.
Qed.

Lemma remove_set_ofiles p o w :
  OS.remove p (set_ofiles o w)
  = (fst (OS.remove p w), set_ofiles o (snd (OS.remove p w))).
Proof.
  unfold OS.remove, OS.resolve. destruct w as [c fs sp ck wf os hp ic sc].
  cbn [cwd files set_ofiles]. repeat case_match; simplify_eq; reflexivity.
Qed.

Lemma remove_ofiles p w : ofiles (snd (OS.remove p w)) = ofiles w.
Proof. unfold OS.remove. repeat case_match; reflexivity. Qed.

Lemma set_ofiles_id w : set_ofiles (ofiles w) w = w.
Proof. now destruct w. Qed.

Lemma set_ofiles_twice o o' w : set_ofiles o (set_ofiles o' w) = set_ofiles o w.
Proof. now destruct w. Qed.

Lemma fclose_no_fault fd w :
  wfault w = None ->
  OS.fclose fd w = (Ok tt, set_ofiles (delete fd (ofiles w)) w).
Proof.
  intros Hf. unfold OS.fclose.
  destruct (ofiles w !! fd) as [o|] eqn:E.
  - destruct w as [c fs sp ck wf os hp ic sc]. cbn in Hf. subst wf.
    cbn [ofiles files wfault].
    destruct (fs !! of_path o) as [[r wr t d|]|]; try reflexivity.
    destruct (Nat.eqb _ _); reflexivity.
  - rewrite delete_id by exact E. now rewrite set_ofiles_id.
Qed.

Lemma remove_wfault p w : wfault (snd (OS.remove p w)) = wfault w.
Proof. unfold OS.remove. repeat case_match; reflexivity. Qed.

Lemma open_artifact_inv gen w fd wo :
  wfault w = None ->
  open_artifact gen w = (Ok fd, wo) ->
  exists wd r,
    wfault wd = None /\ cwd wd = cwd w /\ ofiles wd = ofiles w
    /\ ofiles wd !! fd = None
    /\ wo = writing (set_clock (clock wd + 1) wd) fd (PosixPath.abspath (cwd w) gen)
              r true (clock wd) EmptyString false.
Proof.
  intros Hf Ho. unfold open_artifact in Ho. cbv zeta in Ho.
  assert (Hopen : forall wd,
    wfault wd = None -> cwd wd = cwd w -> ofiles wd = ofiles w ->
    OS.open_w gen wd = (Ok fd, wo) ->
    exists wd r,
      wfault wd = None /\ cwd wd = cwd w /\ ofiles wd = ofiles w
      /\ ofiles wd !! fd = None
      /\ wo = writing (set_clock (clock wd + 1) wd) fd (PosixPath.abspath (cwd w) gen)
                r true (clock wd) EmptyString false).
  { intros wd Hf' Hc Hof E. destruct (open_w_inv _ _ _ _ E Hf') as [Hfd [r ->]].
    exists wd, r. rewrite Hc. repeat split; assumption. }
  destruct (negb (String.eqb _ "")).
  2: { apply (Hopen w); auto. }
  unfold bind at 1 in Ho. unfold bind at 1, OS.isdir, gets in Ho.
  destruct (negb _).
  - unfold OS.makedirs in Ho.
    destruct (OS.mkdirs _ _ _) as [fs|]; [|discriminate].
    apply Hopen in Ho; auto.
  - apply (Hopen w); auto.
Qed.

Lemma generate_unreadable_source w repyfilename generatedfilename shared_mycontext
    callfunc callargs fd wo :
  wfault w = None ->
  open_artifact generatedfilename w = (Ok fd, wo) ->
  unreadable wo repyfilename ->
  exists wd r args,
    wfault wd = None /\ cwd wd = cwd w /\ ofiles wd = ofiles w
    /\ ofiles wd !! fd = None
    /\ wo = writing (set_clock (clock wd + 1) wd) fd
              (PosixPath.abspath (cwd w) generatedfilename) r true (clock wd)
              EmptyString false
    /\ _generate_python_file_from_repy repyfilename generatedfilename
         shared_mycontext callfunc callargs w
       = (Raise (TranslationError args),
          snd (OS.remove generatedfilename
                 (written wd (PosixPath.abspath (cwd w) generatedfilename) r
                    (artifact_header (PosixPath.abspath (cwd w) repyfilename)
                       shared_mycontext callfunc callargs)))).
Proof.
  intros Hf Hopen Hsrc.
  destruct (open_artifact_inv _ _ _ _ Hf Hopen) as (wd & r & Hfd & Hc & Hof & Hfresh & ->).
  exists wd, r. unfold _generate_python_file_from_repy.
  set (a := PosixPath.abspath (cwd w) generatedfilename) in *.
  set (w1 := set_clock (clock wd + 1) wd) in *.
  assert (Hfh : try_except (open_artifact generatedfilename)
    (on_IOError (fun e =>
       raise (TranslationError ["Cannot open file for translation '" +:+ repyfilename
                                  +:+ "': " +:+ str_exn e]))) w
    = (Ok fd, writing w1 fd a r true (clock wd) EmptyString false)).
  { unfold try_except. now rewrite Hopen. }
  unfold open_artifact in Hfh.
  rewrite (bind_ok _ _ _ _ _ Hfh). clear Hfh.
  unfold try_finally, try_except.
  rewrite (bind_ok _ _ _ _ _ (print1_writing _ _ _ _ _ _ _ _)).
  rewrite (bind_ok _ _ _ _ _ (abspath_writing _ _ _ _ _ _ _ _ _)).
  rewrite (bind_ok _ _ _ _ _ (print2_writing _ _ _ _ _ _ _ _ _ ends_line_tagline)).
  rewrite (bind_ok _ _ _ _ _ (print1_writing _ _ _ _ _ _ _ _)).
  rewrite (bind_ok _ _ _ _ _ (print1_writing _ _ _ _ _ _ _ _)).
  rewrite (bind_ok _ _ _ _ _ (print1_writing _ _ _ _ _ _ _ _)).
  rewrite (bind_ok _ _ _ _ _ (print1_writing _ _ _ _ _ _ _ _)).
  replace (if shared_mycontext
           then OS.print1 fd "mycontext = repyhelper.get_shared_context()"
           else OS.print1 fd "mycontext = {}")
    with (OS.print1 fd (mycontext_binding shared_mycontext))
    by now destruct shared_mycontext.
  rewrite (bind_ok _ _ _ _ _ (print1_writing _ _ _ _ _ _ _ _)).
  rewrite (bind_ok _ _ _ _ _
             (print2_writing _ _ _ _ _ _ _ "callfunc =" _ eq_refl)).
  rewrite (bind_ok _ _ _ _ _
             (print2_writing _ _ _ _ _ _ _ "callargs =" _ eq_refl)).
  rewrite (bind_ok _ _ _ _ _ (print_newline_writing _ _ _ _ _ _ _ _)).
  change (cwd w1) with (cwd wd). rewrite Hc.
  match goal with |- context [writing w1 fd a r true (clock wd) ?d false] =>
    replace d with (artifact_header (PosixPath.abspath (cwd w) repyfilename)
                      shared_mycontext callfunc callargs)
      by (unfold artifact_header; now rewrite !append_assoc)
  end.
  set (hdr := artifact_header _ _ _ _).
  set (W := writing w1 fd a r true (clock wd) hdr false).
  destruct (process_output_file_unreadable fd repyfilename generatedfilename W)
    as [args Hbody].
  { intros wr t d H. subst W w1. revert H Hsrc.
    unfold unreadable, OS.resolve, writing, set_clock. cbn [cwd files].
    destruct (String.eqb repyfilename ""); [discriminate|].
    destruct (decide (a = PosixPath.abspath (cwd wd) repyfilename)) as [E|E].
    - rewrite <- E, !lookup_insert_eq.
      destruct (endswith_char repyfilename PosixPath.sep); [discriminate|].
      intros [= -> _ _ _] Hsrc. now apply (Hsrc true (clock wd) EmptyString).
    - rewrite !lookup_insert_ne by exact E. intros H Hsrc. now apply (Hsrc wr t d). }
  exists args. repeat (split; [assumption || reflexivity|]).
  rewrite (bind_raise _ _ _ _ _ Hbody). cbn [on_IOError].
  assert (HW : W = set_ofiles (<[fd := mkOfile a false]> (ofiles wd)) (written wd a r hdr)).
  { subst W w1. unfold writing, written, set_ofiles, set_clock, set_files.
    destruct wd as [c fs sp ck wf os hp ic sc]. cbn in *. now subst wf. }
  rewrite HW, remove_set_ofiles. cbn [fst snd].
  rewrite fclose_no_fault by (cbn [wfault set_ofiles]; rewrite remove_wfault; exact Hfd).
  cbn [ofiles set_ofiles]. rewrite set_ofiles_twice.
  rewrite delete_insert_id by exact Hfresh.
  f_equal.
  replace (ofiles wd)
    with (ofiles (snd (OS.remove generatedfilename (written wd a r hdr))))
    by now rewrite remove_ofiles.
  apply set_ofiles_id.
Qed.

Lemma readlines_nil s : readlines s = [] -> s = EmptyString.
Proof.
  destruct s as [|c s]; [reflexivity|]. cbn [readlines].
  destruct (Ascii.eqb c nl); [discriminate|]. now destruct (readlines s).
Qed.

Lemma readlines_app_newline s rest :
  readlines (s +:+ newline +:+ rest) = readlines (s +:+ newline) ++ readlines rest.
Proof.
  induction s as [|c s IH].
  - reflexivity.
  - rewrite !append_cons. cbn [readlines]. rewrite IH.
    destruct (Ascii.eqb c nl); [reflexivity|].
    destruct (readlines (s +:+ newline)) as [|l ls] eqn:E; [|reflexivity].
    apply readlines_nil in E. now destruct s.
Qed.

Lemma last_line_blank s : last_line ((s +:+ newline) +:+ newline) = newline.
Proof.
  unfold last_line. rewrite append_assoc, readlines_app_newline.
  change (readlines newline) with [newline]. apply last_last.
Qed.

Lemma artifact_header_last_line src sh cf ca :
  last_line (artifact_header src sh cf ca) = newline.
Proof.
  unfold artifact_header. rewrite <- !append_assoc. apply last_line_blank.
Qed.

Lemma never_reused_if_untagged w repy gen :
  (forall r wr t d, OS.resolve w gen = Some (File r wr t d) ->
     startswith (last_line d) TRANSLATION_TAGLINE = false) ->
  fst (_translation_is_needed repy gen w) <> Ok false.
Proof.
  intros H.
  destruct (is_file_dec w repy) as [Hs|Hs].
  2: { rewrite translation_is_needed_no_source by assumption. discriminate. }
  destruct (is_file_dec w gen) as [Hg|Hg].
  2: { rewrite translation_is_needed_no_artifact by assumption. discriminate. }
  destruct Hg as ([|] & wr & t & d & Hg).
  - rewrite (translation_is_needed_readable _ _ _ _ _ _ Hs Hg). cbn [fst].
    unfold decide_stale. destruct (negb (generated_header d)); [discriminate|].
    rewrite (last_line_read_untagged _ (H _ _ _ _ Hg)). discriminate.
  - destruct (translation_is_needed_unreadable _ _ _ _ _ _ Hs Hg) as [[a ->] _].
    discriminate.
Qed.

Lemma remove_ok_gone p w :
  fst (OS.remove p w) = Ok tt ->
  files (snd (OS.remove p w)) !! PosixPath.abspath (cwd w) p = None.
Proof.
  unfold OS.remove. repeat case_match; cbn; intros; simplify_eq.
  apply lookup_delete_eq.
Qed.

Lemma remove_raise_unchanged p w e :
  fst (OS.remove p w) = Raise e -> snd (OS.remove p w) = w.
Proof. unfold OS.remove. repeat case_match; cbn; intros; simplify_eq; reflexivity. Qed.

Lemma remove_cwd p w : cwd (snd (OS.remove p w)) = cwd w.
Proof. unfold OS.remove. repeat case_match; reflexivity. Qed.

Lemma resolve_absent w p :
  files w !! PosixPath.abspath (cwd w) p = None -> OS.resolve w p = None.
Proof. intros H. unfold OS.resolve. rewrite H. now destruct (String.eqb p ""). Qed.

Lemma resolve_written w a r text p r' wr' t' d :
  PosixPath.abspath (cwd w) p = a ->
  OS.resolve (written w a r text) p = Some (File r' wr' t' d) -> d = text.
Proof.
  intros <-. unfold OS.resolve, written. cbn [cwd files set_clock set_files].
  rewrite lookup_insert_eq. repeat case_match; intros; simplify_eq. reflexivity.
Qed.

(** C3, as the code has it.  When the artifact has been opened, its
    directory made first if it was missing, and the source then cannot be
    opened for reading (no write to the device failing), generation raises a
    TranslationError and ends in the world in which the artifact, written up
    to the end of its header, has been passed to [os.remove] and its file
    object closed: the artifact is gone when the removal succeeds, and left
    as it is when the removal fails, the failure being swallowed.  A file
    left behind holds the header and nothing else: its last line is not the
    tag line, so that a later staleness check does not report it
    reusable. *)
Theorem unreadable_source_cleans_up (w : World) (repyfilename generatedfilename : string)
    (shared_mycontext : bool) (callfunc : string) (callargs : list string)
    (fh : nat) (opened : World) :
  wfault w = None ->
  open_artifact generatedfilename w = (Ok fh, opened) ->
  unreadable opened repyfilename ->
  let a := PosixPath.abspath (cwd w) generatedfilename in
  let header :=
    artifact_header (PosixPath.abspath (cwd w) repyfilename) shared_mycontext
      callfunc callargs in
  let res :=
    _generate_python_file_from_repy repyfilename generatedfilename
      shared_mycontext callfunc callargs w in
  exists r t,
    files opened !! a = Some (File r true t EmptyString)
    /\ let partial :=
         set_ofiles (ofiles w)
           (set_files (<[a := File r true t header]> (files opened)) opened) in
       is_TranslationError (fst res)
       /\ snd res = snd (OS.remove generatedfilename partial)
       /\ (fst (OS.remove generatedfilename partial) = Ok tt ->
           files (snd res) !! a = None)
       /\ (forall e, fst (OS.remove generatedfilename partial) = Raise e ->
           snd res = partial)
       /\ (forall r' wr' t' d,
             files (snd res) !! a = Some (File r' wr' t' d) ->
             d = header /\ startswith (last_line d) TRANSLATION_TAGLINE = false)
       /\ fst (_translation_is_needed repyfilename generatedfilename (snd res))
          <> Ok false.
Proof.
  intros Hf Hopen Hsrc a header res.
  destruct (generate_unreadable_source w repyfilename generatedfilename shared_mycontext
              callfunc callargs fh opened Hf Hopen Hsrc)
    as (wd & r & args & Hfd & Hc & Hof & Hfresh & -> & E).
  fold a header in E. exists r, (clock wd).
  split; [unfold writing; cbn [files]; apply lookup_insert_eq|].
  intros partial.
  assert (Hp : partial = written wd a r header).
  { subst partial. unfold writing, written, set_ofiles, set_clock, set_files.
    destruct wd as [c fs sp ck wf os hp ic sc]. cbn in *. subst wf os.
    now rewrite insert_insert_eq. }
  clearbody partial. subst partial res. rewrite E. cbn [fst snd].
  set (partial := written wd a r header).
  assert (Ha : PosixPath.abspath (cwd partial) generatedfilename = a)
    by (subst a; cbn; now rewrite Hc).
  assert (Hleft : forall r' wr' t' d,
            files (snd (OS.remove generatedfilename partial)) !! a
            = Some (File r' wr' t' d) ->
            d = header /\ startswith (last_line d) TRANSLATION_TAGLINE = false).
  { intros r' wr' t' d Hd.
    destruct (OS.remove generatedfilename partial) as [[[]|e] w'] eqn:Er.
    - exfalso. pose proof (remove_ok_gone generatedfilename partial) as Hgone.
      rewrite Er, Ha in Hgone. cbn [fst snd] in *. rewrite Hgone in Hd by reflexivity.
      discriminate.
    - pose proof (remove_raise_unchanged generatedfilename partial e) as Hu.
      rewrite Er in Hu. cbn [fst snd] in *. rewrite (Hu eq_refl) in Hd.
      unfold partial, written in Hd. cbn [files set_clock set_files] in Hd.
      rewrite lookup_insert_eq in Hd. injection Hd as _ _ _ <-.
      split; [reflexivity|]. subst header. now rewrite artifact_header_last_line. }
  split; [red; eauto|]. split; [reflexivity|]. split; [|split; [|split]].
  - intros Hok. rewrite <- Ha. apply (remove_ok_gone generatedfilename partial Hok).
  - intros e He. now apply remove_raise_unchanged with e.
  - exact Hleft.
  - apply never_reused_if_untagged. intros r' wr' t' d Hres.
    assert (Hc' : cwd (snd (OS.remove generatedfilename partial)) = cwd w).
    { rewrite remove_cwd. cbn. exact Hc. }
    unfold OS.resolve in Hres. rewrite Hc' in Hres. fold a in Hres.
    destruct (String.eqb generatedfilename ""); [discriminate|].
    destruct (files (snd (OS.remove generatedfilename partial)) !! a)
      as [[r0 wr0 t0 d0|wr0 t0]|] eqn:El; try discriminate.
    destruct (endswith_char generatedfilename PosixPath.sep); [discriminate|].
    injection Hres as -> -> -> ->.
    now destruct (Hleft _ _ _ _ eq_refl).
Qed.

(** C4.  Include expansion.  With the output file open and the source
    readable, [_process_output_file] appends to the artifact the translation
    of each source line in order and nothing else: a line that starts with
    the keyword [include] and a space becomes the call of
    [repyhelper.translate_and_import] on the stripped rest of the line,
    followed by a newline; any other line is appended as it stands. *)
Theorem includes_become_calls (w : World) (fd : nat) (a : string) (r wr : bool) (t : Z)
    (d filename generatedfilename : string) (wr' : bool) (t' : Z) (source : string) :
  OS.resolve (writing w fd a r wr t d false) filename = Some (File true wr' t' source) ->
  (exists soft,
     _process_output_file fd filename generatedfilename (writing w fd a r wr t d false)
     = (Ok tt, writing w fd a r wr t (d +:+ translated_body source) soft))
  /\ translated_body source
     = foldr String.append EmptyString (map expand_line (readlines source))
  /\ (forall line,
        expand_line line
        = if startswith line "include " then
            "repyhelper.translate_and_import('" +:+ strip (slice_from 8 line) +:+ "')"
              +:+ newline
          else line).
Proof.
  intros Hsrc. split; [|split; reflexivity].
  now apply process_output_file_writing with wr' t'.
Qed.

(** With the header recognised, the trailing tag present and the path read
    from the first line equal to the source's, the timestamps decide. *)
Lemma reuse_iff_source_older w repy gen wr t d r' wr' t' d' :
  OS.resolve w repy = Some (File r' wr' t' d') ->
  OS.resolve w gen = Some (File true wr t d) ->
  generated_header d = true ->
  startswith (last_line_read d) TRANSLATION_TAGLINE = true ->
  strip (slice_from (String.length TRANSLATION_TAGLINE) (first_line d))
    = PosixPath.abspath (cwd w) repy ->
  _translation_is_needed repy gen w = (Ok (negb (t' <? t)%Z), w).
Proof.
  intros Hs Hg Hh Hl Hp.
  rewrite (translation_is_needed_readable w repy gen wr t d); [|red; eauto|exact Hg].
  unfold decide_stale. rewrite Hh, Hl, Hp, String.eqb_refl. cbn [negb].
  unfold OS.stat_mtime. rewrite Hs, Hg. cbn [fst]. now destruct (t' <? t)%Z.
Qed.

Example translate_a_repy :
  translate "a.repy" true "import" None false w0
  = (Ok "a_repy",
     written w0 "/r/a_repy.py" true
       (artifact_text "/r/a.repy" true "import" [] source0)).
Proof. vm_compute. reflexivity. Qed.

(** ** The binding of the shared context *)

Lemma readlines_one_line s :
  contains nl s = false -> readlines (s +:+ newline) = [s +:+ newline].
Proof.
  induction s as [|c s IH]; [reflexivity|]. cbn [contains]. intros H.
  apply orb_false_elim in H as [Hc Hs]. rewrite append_cons. cbn [readlines].
  rewrite Hc, (IH Hs). reflexivity.
Qed.

Lemma readlines_first_line s rest :
  contains nl s = false ->
  readlines (s +:+ newline +:+ rest) = (s +:+ newline) :: readlines rest.
Proof. intros H. now rewrite readlines_app_newline, readlines_one_line. Qed.

Lemma contains_append c a b : contains c (a +:+ b) = contains c a || contains c b.
Proof.
  induction a as [|x a IH]; [reflexivity|]. rewrite append_cons. cbn [contains].
  now rewrite IH, orb_assoc.
Qed.

Lemma artifact_text_layout a sh cf ca source :
  artifact_text a sh cf ca source
  = artifact_imports a +:+ mycontext_binding sh +:+ newline
    +:+ artifact_rest a cf ca source.
Proof.
  unfold artifact_text, artifact_header, artifact_imports, artifact_rest.
  rewrite !append_assoc. reflexivity.
Qed.

Lemma artifact_imports_lines a rest :
  contains nl a = false ->
  exists ls,
    length ls = 13
    /\ readlines (artifact_imports a +:+ rest) = ls ++ readlines rest.
Proof.
  intros Ha.
  assert (Htag : contains nl (TRANSLATION_TAGLINE +:+ " " +:+ a) = false).
  { rewrite !contains_append, Ha. reflexivity. }
  set (tail := WARNING_LABEL +:+ newline +:+
               "from repyportability import *" +:+ newline +:+
               "from repyportability import _context" +:+ newline +:+
               "import repyhelper").
  assert (E : artifact_imports a +:+ rest
              = ENCODING_STRING +:+ newline +:+
                ((TRANSLATION_TAGLINE +:+ " " +:+ a) +:+ newline +:+
                 (tail +:+ newline +:+ rest))).
  { unfold artifact_imports, tail. rewrite !append_assoc. reflexivity. }
  rewrite E.
  rewrite (readlines_first_line ENCODING_STRING) by reflexivity.
  rewrite (readlines_first_line _ _ Htag).
  rewrite <- append_assoc, (readlines_app_newline tail rest).
  exists ((ENCODING_STRING +:+ newline)
            :: ((TRANSLATION_TAGLINE +:+ " " +:+ a) +:+ newline)
            :: readlines (tail +:+ newline)).
  split; [vm_compute; reflexivity | reflexivity].
Qed.

Lemma binding_no_newline sh : contains nl (mycontext_binding sh) = false.
Proof. now destruct sh. Qed.

Lemma artifact_binding_line a sh cf ca source :
  contains nl a = false ->
  nth 13 (readlines (artifact_text a sh cf ca source)) EmptyString
  = mycontext_binding sh +:+ newline.
Proof.
  intros Ha. rewrite artifact_text_layout.
  destruct (artifact_imports_lines a
              (mycontext_binding sh +:+ newline +:+ artifact_rest a cf ca source) Ha)
    as (ls & Hlen & ->).
  rewrite (readlines_first_line _ _ (binding_no_newline sh)).
  rewrite app_nth2 by lia. now rewrite Hlen.
Qed.

Lemma set_importcachedir_globals v w :
  shared_context (snd (set_importcachedir v w)) = shared_context w
  /\ heap (snd (set_importcachedir v w)) = heap w.
Proof.
  destruct v; try (split; reflexivity).
  unfold set_importcachedir, bind, OS.isdir, gets, raise, modify.
  repeat case_match; split; reflexivity.
Qed.

Lemma exec_binding_shared globals :
  exec_assignment (mycontext_binding true +:+ newline) globals
  = Some (do v <- get_shared_context; ret (<["mycontext" := v]> globals)).
Proof. reflexivity. Qed.

Lemma exec_binding_private globals :
  exec_assignment (mycontext_binding false +:+ newline) globals
  = Some (do v <- new_dict; ret (<["mycontext" := v]> globals)).
Proof. reflexivity. Qed.

(** C8.  The shared context is one process-wide object.
    [get_shared_context] returns the module's global and changes nothing;
    what it returns is the same after [translate] and after
    [set_importcachedir], and is the new context after [set_shared_context].
    A successful generation writes the import lines, then the binding
    chosen by [shared_mycontext] on a line of its own (the fourteenth),
    then the rest, and nothing else.  Run in a loaded artifact, the binding
    emitted with sharing calls [get_shared_context] and binds [mycontext] to
    the shared object itself, allocating nothing; the binding emitted
    without sharing binds it to a newly allocated empty dict, which is not
    the shared object.  That the shared context is a live object holds once
    the module is loaded and is kept by every function of the module. *)
Theorem shared_context_is_process_wide (w : World) :
  get_shared_context w = (Ok (shared_context w), w)
  /\ (forall filename sh cf ca fo,
        fst (get_shared_context (snd (translate filename sh cf ca fo w)))
        = Ok (shared_context w))
  /\ (forall v,
        fst (get_shared_context (snd (set_importcachedir v w))) = Ok (shared_context w))
  /\ (forall context,
        context <> PyNone ->
        fst (get_shared_context (snd (set_shared_context context w))) = Ok context)
  /\ (forall repyfilename generatedfilename shared_mycontext callfunc callargs
             wr t source,
        wfault w = None ->
        can_open_for_writing w generatedfilename ->
        OS.resolve w repyfilename = Some (File true wr t source) ->
        PosixPath.abspath (cwd w) repyfilename
          <> PosixPath.abspath (cwd w) generatedfilename ->
        exists r text,
          fst (_generate_python_file_from_repy repyfilename generatedfilename
                 shared_mycontext callfunc callargs w) = Ok tt
          /\ files (snd (_generate_python_file_from_repy repyfilename generatedfilename
                           shared_mycontext callfunc callargs w))
               !! PosixPath.abspath (cwd w) generatedfilename
             = Some (File r true (clock w) text)
          /\ text
             = artifact_imports (PosixPath.abspath (cwd w) repyfilename)
               +:+ mycontext_binding shared_mycontext +:+ newline
               +:+ artifact_rest (PosixPath.abspath (cwd w) repyfilename) callfunc
                     callargs source
          /\ (contains nl (PosixPath.abspath (cwd w) repyfilename) = false ->
              nth 13 (readlines text) EmptyString
              = mycontext_binding shared_mycontext +:+ newline))
  /\ (forall globals,
        exists run,
          exec_assignment (mycontext_binding true +:+ newline) globals = Some run
          /\ run w = (Ok (<["mycontext" := shared_context w]> globals), w))
  /\ (forall globals,
        exists run l,
          exec_assignment (mycontext_binding false +:+ newline) globals = Some run
          /\ run w = (Ok (<["mycontext" := PyRef l]> globals),
                      set_heap (<[l := ∅]> (heap w)) w)
          /\ heap w !! l = None
          /\ (shared_context_live w ->
              PyRef l <> shared_context w
              /\ shared_context_live (set_heap (<[l := ∅]> (heap w)) w)))
  /\ shared_context_live (snd (module_init w))
  /\ (shared_context_live w ->
      (forall context,
         value_live w context ->
         shared_context_live (snd (set_shared_context context w)))
      /\ (forall v, shared_context_live (snd (set_importcachedir v w)))
      /\ (forall filename sh cf ca fo,
            shared_context_live (snd (translate filename sh cf ca fo w)))).
Proof.
  split; [reflexivity|]. split; [|split; [|split; [|split; [|split; [|split; [|split]]]]]].
  - intros. unfold get_shared_context, gets. cbn [fst]. f_equal.
    apply (keeps_globals_translate filename sh cf ca fo w).
  - intros v. unfold get_shared_context, gets. cbn [fst]. f_equal.
    apply set_importcachedir_globals.
  - intros c Hc. destruct c; try reflexivity. congruence.
  - intros src gen sh cf ca wr t source Hf Hw Hs Hne.
    destruct (generate_ok w src gen sh cf ca wr t source Hf Hw Hs Hne) as [r E].
    exists r, (artifact_text (PosixPath.abspath (cwd w) src) sh cf ca source).
    rewrite E. cbn [fst snd]. split; [reflexivity|].
    split; [unfold written; cbn [files set_clock set_files]; apply lookup_insert_eq|].
    split; [apply artifact_text_layout|]. apply artifact_binding_line.
  - intros globals. eexists. split; [apply exec_binding_shared|]. reflexivity.
  - intros globals. destruct (new_dict_fresh w) as (l & E & Hl).
    eexists _, l. split; [apply exec_binding_private|].
    split; [unfold bind; now rewrite E|]. split; [exact Hl|].
    intros Hlive. split.
    + intros Heq. symmetry in Heq. destruct (Hlive l Heq) as [x Hx]. congruence.
    + intros l' Hl'. cbn [heap set_heap shared_context] in *.
      destruct (decide (l = l')) as [<-|Hne]; [rewrite lookup_insert_eq; eauto|].
      rewrite lookup_insert_ne by exact Hne. now apply Hlive.
  - destruct (module_init_allocates w) as (l & _ & ->). cbn [snd].
    intros l' [= <-]. cbn [heap set__importcachedir set_shared set_heap].
    rewrite lookup_insert_eq. eauto.
  - intros Hlive. split; [|split].
    + intros c Hc. destruct c; [exact Hlive|..]; intros k Hk; cbn in *;
        try discriminate; apply (Hc k Hk).
    + intros v l Hl.
      destruct (set_importcachedir_globals v w) as [Hs Hh].
      rewrite Hs in Hl. rewrite Hh. now apply Hlive.
    + intros filename sh cf ca fo l Hl.
      destruct (keeps_globals_translate filename sh cf ca fo w) as (Hs & _ & Hh & _).
      rewrite Hs in Hl. rewrite Hh. now apply Hlive.
Qed.

(** ** The properties at concrete inputs *)

Lemma generated_artifact_is_never_reused_witness :
  OS.resolve w1 "/r/a_repy.py"
    = Some (File true true 200
              (ENCODING_STRING +:+ newline +:+ slice_from 24 artifact0))
  /\ fst (OS.stat_mtime "/r/a.repy" w1) = Ok 100%Z
  /\ fst (OS.stat_mtime "/r/a_repy.py" w1) = Ok 200%Z
  /\ fst (_translation_is_needed "/r/a.repy" "/r/a_repy.py" w1) <> Ok false.
Proof.
  assert (H : OS.resolve w1 "/r/a_repy.py"
    = Some (File true true 200
              (ENCODING_STRING +:+ newline +:+ slice_from 24 artifact0)))
    by (vm_compute; reflexivity).
  split; [exact H|]. split; [vm_compute; reflexivity|]. split; [vm_compute; reflexivity|].
  exact (generated_artifact_is_never_reused w1 "/r/a.repy" "/r/a_repy.py"
           true true 200 (slice_from 24 artifact0) H).
Defined.

(** The artifact [translate] wrote at 200 for a source last modified at 100
    is found stale, and a second [translate] writes it again, at 201. *)
Example unmodified_source_is_translated_again :
  _translation_is_needed "/r/a.repy" "/r/a_repy.py" w1 = (Ok true, w1)
  /\ translate "a.repy" true "import" None false w1
     = (Ok "a_repy", written w1 "/r/a_repy.py" true artifact0)
  /\ files w1 !! "/r/a_repy.py" = Some (File true true 200 artifact0)
  /\ files (written w1 "/r/a_repy.py" true artifact0) !! "/r/a_repy.py"
     = Some (File true true 201 artifact0).
Proof. vm_compute. repeat split; reflexivity. Qed.

Lemma foreign_file_is_not_overwritten_witness :
  fst (translate_paths "a.repy" w_foreign) = Ok ("/r/a.repy", "/r", "/r/a_repy.py")
  /\ generated_header ("print 'mine'" +:+ newline) = false
  /\ is_TranslationError (fst (translate "a.repy" true "import" None false w_foreign))
  /\ snd (translate "a.repy" true "import" None false w_foreign) = w_foreign
  /\ exists r,
       translate "a.repy" true "import" None true w_foreign
       = (Ok "a_repy", written w_foreign "/r/a_repy.py" r artifact0).
Proof.
  assert (Hp : fst (translate_paths "a.repy" w_foreign)
               = Ok ("/r/a.repy", "/r", "/r/a_repy.py")) by (vm_compute; reflexivity).
  assert (Hh : generated_header ("print 'mine'" +:+ newline) = false)
    by (vm_compute; reflexivity).
  assert (Hg : OS.resolve w_foreign "/r/a_repy.py"
               = Some (File true true 50 ("print 'mine'" +:+ newline)))
    by (vm_compute; reflexivity).
  destruct (foreign_file_is_not_overwritten w_foreign "a.repy" true "import" None
              "/r/a.repy" "/r" "/r/a_repy.py" true true 50 ("print 'mine'" +:+ newline)
              Hp Hg Hh) as (_ & [H1 H2] & _ & H4).
  split; [exact Hp|]. split; [exact Hh|]. split; [exact H1|]. split; [exact H2|].
  apply (H4 true 100%Z source0).
  - reflexivity.
  - split; [right; exists true, 0%Z; vm_compute; reflexivity|].
    eexists _, _. vm_compute. reflexivity.
  - vm_compute. reflexivity.
  - vm_compute. discriminate.
Defined.

(** C3 does not hold for write failures.  On a full device, with a source
    whose first line does not fit into the buffer, the first block is
    written while that line is printed: the print raises IOError, generation
    raises a TranslationError, and the artifact stays, empty, although
    [os.remove] would succeed. *)
Lemma write_failure_keeps_partial_artifact :
  let res :=
    _generate_python_file_from_repy "/r/a.repy" "/r/a_repy.py" true "import" []
      w_long_full in
  OS.resolve w_long_full "/r/a_repy.py" = None
  /\ is_TranslationError (fst res)
  /\ files (snd res) !! "/r/a_repy.py" = Some (File true true 200 EmptyString)
  /\ fst (OS.remove "/r/a_repy.py" (snd res)) = Ok tt.
Proof.
  vm_compute. split; [reflexivity|]. split; [eexists; reflexivity|].
  split; reflexivity.
Qed.

(** On the same device a short source fits into the buffer: every [print]
    succeeds, the failure shows when the file is closed, in the [finally]
    clause, and what generation raises is that IOError. *)
Example close_failure_is_not_wrapped :
  let res :=
    _generate_python_file_from_repy "/r/a.repy" "/r/a_repy.py" true "import" [] w_full in
  (exists args, fst res = Raise (IOError args))
  /\ files (snd res) !! "/r/a_repy.py" = Some (File true true 200 EmptyString)
  /\ ofiles (snd res) = ofiles w_full.
Proof. vm_compute. split; [eexists; reflexivity|]. split; reflexivity. Qed.

Lemma unreadable_source_cleans_up_witness :
  unreadable (snd (open_artifact "/r/a_repy.py" w_unreadable)) "/r/a.repy"
  /\ is_TranslationError
       (fst (_generate_python_file_from_repy "/r/a.repy" "/r/a_repy.py" true "import" []
               w_unreadable))
  /\ files (snd (_generate_python_file_from_repy "/r/a.repy" "/r/a_repy.py" true
                   "import" [] w_unreadable)) !! "/r/a_repy.py" = None
  /\ ~ is_dir w_unreadable "/r/cache"
  /\ is_TranslationError
       (fst (_generate_python_file_from_repy "/r/a.repy" "/r/cache/a_repy.py" true
               "import" [] w_unreadable))
  /\ files (snd (_generate_python_file_from_repy "/r/a.repy" "/r/cache/a_repy.py" true
                   "import" [] w_unreadable)) !! "/r/cache/a_repy.py" = None.
Proof.
  assert (Hu : forall gen,
            gen = "/r/a_repy.py" \/ gen = "/r/cache/a_repy.py" ->
            unreadable (snd (open_artifact gen w_unreadable)) "/r/a.repy").
  { intros gen [-> | ->] wr t d; vm_compute; discriminate. }
  destruct (unreadable_source_cleans_up w_unreadable "/r/a.repy" "/r/a_repy.py" true
              "import" [] 0 (snd (open_artifact "/r/a_repy.py" w_unreadable)))
    as (r & t & H0 & H1 & _ & H3 & _).
  { reflexivity. }
  { vm_compute. reflexivity. }
  { apply Hu. now left. }
  destruct (unreadable_source_cleans_up w_unreadable "/r/a.repy" "/r/cache/a_repy.py"
              true "import" [] 0 (snd (open_artifact "/r/cache/a_repy.py" w_unreadable)))
    as (r' & t' & H0' & H1' & _ & H3' & _).
  { reflexivity. }
  { vm_compute. reflexivity. }
  { apply Hu. now right. }
  split; [apply Hu; now left|]. split; [exact H1|]. split; [|split; [|split]].
  - apply H3. vm_compute in H0. injection H0 as <- <-. vm_compute. reflexivity.
  - intros (wr & t0 & E). vm_compute in E. discriminate.
  - exact H1'.
  - apply H3'. vm_compute in H0'. injection H0' as <- <-. vm_compute. reflexivity.
Defined.

Lemma includes_become_calls_witness :
  exists soft,
    _process_output_file 0 "/r/a.repy" "/r/a_repy.py"
      (writing w0 0 "/r/a_repy.py" true true 200 "" false)
    = (Ok tt,
       writing w0 0 "/r/a_repy.py" true true 200
         ("repyhelper.translate_and_import('b.repy')" +:+ newline +:+
          "x = 1" +:+ newline +:+ "y = 2") soft).
Proof.
  destruct (includes_become_calls w0 0 "/r/a_repy.py" true true 200 ""
              "/r/a.repy" "/r/a_repy.py" true 100 source0) as ([soft H] & _).
  - vm_compute. reflexivity.
  - exists soft. exact H.
Defined.

Lemma truncated_artifact_is_regenerated_witness :
  generated_header truncated = true
  /\ last_line truncated = "x = 1" +:+ newline
  /\ _translation_is_needed "/r/a.repy" "/r/a_repy.py" w_truncated
     = (Ok true, w_truncated).
Proof.
  split; [vm_compute; reflexivity|]. split; [vm_compute; reflexivity|].
  apply (truncated_artifact_is_regenerated w_truncated "/r/a.repy" "/r/a_repy.py"
           true 150 truncated).
  - exists true, true, 100%Z, source0. vm_compute. reflexivity.
  - vm_compute. reflexivity.
  - vm_compute. reflexivity.
  - vm_compute. reflexivity.
Defined.

Lemma translate_resolves_source_and_destination_witness :
  translate_paths "a.repy" w0 = (Ok ("/r/a.repy", "/r", "/r/a_repy.py"), w0)
  /\ translate_paths "/r/a.repy" w0 = (Ok ("/r/a.repy", "/r", "/r/a_repy.py"), w0)
  /\ is_ValueError (fst (translate "b.repy" true "import" None false w0))
  /\ is_ValueError (fst (translate "/r/b.repy" true "import" None false w0)).
Proof.
  destruct (translate_resolves_source_and_destination w0 "a.repy") as [_ H].
  destruct (H eq_refl) as [Hfound _].
  destruct (translate_resolves_source_and_destination w0 "/r/a.repy") as [H' _].
  destruct (H' eq_refl "/r" [] eq_refl) as [Hexp _].
  destruct (translate_resolves_source_and_destination w0 "b.repy") as [_ Hb].
  destruct (Hb eq_refl) as [_ Hmissing].
  destruct (translate_resolves_source_and_destination w0 "/r/b.repy") as [Hb' _].
  destruct (Hb' eq_refl "/r" [] eq_refl) as [_ Hnofile].
  split; [|split; [|split]].
  - apply (Hfound [] "/r" []); [reflexivity | constructor |].
    exists true, true, 100%Z, source0. vm_compute. reflexivity.
  - apply Hexp.
    + exists true, 0%Z. vm_compute. reflexivity.
    + exists true, true, 100%Z, source0. vm_compute. reflexivity.
  - apply Hmissing. constructor; [|constructor].
    intros (r & wr & t & d & E). vm_compute in E. discriminate.
  - apply Hnofile. right.
    intros (r & wr & t & d & E). vm_compute in E. discriminate.
Defined.

Lemma merge_honours_exclusions_and_collisions_witness :
  let members := [("_private", PyInt 1); ("f", PyInt 2); ("g", PyInt 3);
                  ("mycontext", PyRef 0)] in
  let globals : gmap string pyval := <["f" := PyInt 0]> ∅ in
  NoDup (map fst members)
  /\ _import_file_contents_to_caller_namespace members true globals !! "f"
     = Some (PyInt 0)
  /\ _import_file_contents_to_caller_namespace members false globals !! "f"
     = Some (PyInt 2)
  /\ _import_file_contents_to_caller_namespace members true globals !! "g"
     = Some (PyInt 3)
  /\ _import_file_contents_to_caller_namespace members false globals !! "_private"
     = None
  /\ _import_file_contents_to_caller_namespace members false globals !! "mycontext"
     = None.
Proof.
  intros members globals.
  assert (Hnd : NoDup (map fst members))
    by (apply (bool_decide_eq_true_1 _); vm_compute; reflexivity).
  pose proof (merge_honours_exclusions_and_collisions members true globals Hnd) as Ht.
  pose proof (merge_honours_exclusions_and_collisions members false globals Hnd) as Hf.
  cbv zeta in Ht, Hf.
  split; [exact Hnd|]. split; [|split; [|split; [|split]]].
  - destruct (Ht "f") as (_ & _ & H).
    rewrite (H (PyInt 2)); [reflexivity | | reflexivity |].
    + subst members. rewrite !elem_of_cons. tauto.
    + rewrite blacklist_spec. intros [H'|[H'|[H'|H']]]; discriminate.
  - destruct (Hf "f") as (_ & _ & H).
    rewrite (H (PyInt 2)); [reflexivity | | reflexivity |].
    + subst members. rewrite !elem_of_cons. tauto.
    + rewrite blacklist_spec. intros [H'|[H'|[H'|H']]]; discriminate.
  - destruct (Ht "g") as (_ & _ & H).
    rewrite (H (PyInt 3)); [reflexivity | | reflexivity |].
    + subst members. rewrite !elem_of_cons. tauto.
    + rewrite blacklist_spec. intros [H'|[H'|[H'|H']]]; discriminate.
  - destruct (Hf "_private") as (_ & H & _). rewrite H; [reflexivity|now left].
  - destruct (Hf "mycontext") as (_ & H & _). rewrite H; [reflexivity|].
    right. rewrite blacklist_spec. now left.
Defined.

Lemma shared_context_is_process_wide_witness :
  shared_context_live w0
  /\ get_shared_context w0 = (Ok (PyRef 0), w0)
  /\ (forall sh,
        exists r text,
          files (snd (_generate_python_file_from_repy "/r/a.repy" "/r/a_repy.py" sh
                        "import" [] w0)) !! "/r/a_repy.py"
          = Some (File r true 200 text)
          /\ nth 13 (readlines text) EmptyString = mycontext_binding sh +:+ newline)
  /\ (exists run,
        exec_assignment ("mycontext = repyhelper.get_shared_context()" +:+ newline) ∅
        = Some run
        /\ run w0 = (Ok (<["mycontext" := PyRef 0]> ∅), w0))
  /\ (exists run l,
        exec_assignment ("mycontext = {}" +:+ newline) ∅ = Some run
        /\ fst (run w0) = Ok (<["mycontext" := PyRef l]> ∅)
        /\ PyRef l <> PyRef 0).
Proof.
  assert (Hlive : shared_context_live w0).
  { intros l [= <-]. vm_compute. eauto. }
  destruct (shared_context_is_process_wide w0)
    as (H1 & _ & _ & _ & H5 & H6 & H7 & _).
  split; [exact Hlive|]. split; [exact H1|]. split; [|split].
  - intros sh.
    destruct (H5 "/r/a.repy" "/r/a_repy.py" sh "import" [] true 100%Z source0)
      as (r & text & _ & E & _ & Hline).
    + reflexivity.
    + split; [right; exists true, 0%Z; vm_compute; reflexivity|].
      eexists _, _. vm_compute. reflexivity.
    + vm_compute. reflexivity.
    + vm_compute. discriminate.
    + exists r, text. split; [exact E|]. apply Hline. reflexivity.
  - apply (H6 ∅).
  - destruct (H7 ∅) as (run & l & E & Hrun & _ & Hfresh).
    exists run, l. split; [exact E|]. split; [now rewrite Hrun|].
    now apply Hfresh.
Defined.

(** C9 does not hold for the empty string: it is no entry of the search
    path and names no directory, and yet [set_importcachedir] accepts it and
    sets the override to ['.']. *)
Lemma empty_cachedir_is_accepted :
  bool_decide ("" ∈ sys_path w_dot) = false
  /\ OS.isdir "" w_dot = (Ok false, w_dot)
  /\ set_importcachedir (PyStr "") w_dot
     = (Ok tt, set__importcachedir (Some ".") w_dot).
Proof. vm_compute. repeat split; reflexivity. Qed.

Lemma configuration_is_validated_witness :
  is_dir w_dot "."
  /\ "." ∈ sys_path w_dot
  /\ set_importcachedir (PyStr ".") w_dot
     = (Ok tt, set__importcachedir (Some ".") w_dot)
  /\ is_ValueError (fst (set_importcachedir (PyStr "/r") w_dot))
  /\ is_TypeError (fst (set_importcachedir (PyStr "/r/a.repy") w_dot))
  /\ is_TypeError (fst (set_importcachedir (PyInt 3) w_dot))
  /\ set_shared_context (PyRef 7) w_dot = (Ok tt, set_shared (PyRef 7) w_dot).
Proof.
  destruct (configuration_is_validated w_dot) as (_ & H2 & H3 & _ & H5).
  assert (Hd : is_dir w_dot ".") by (exists true, 0%Z; vm_compute; reflexivity).
  assert (Hin : "." ∈ sys_path w_dot) by (apply list_elem_of_here).
  split; [exact Hd|]. split; [exact Hin|]. split; [|split; [|split; [|split]]].
  - destruct (H3 ".") as (_ & _ & H). now apply H.
  - destruct (H3 "/r") as (_ & H & _). apply H.
    + exists true, 0%Z. vm_compute. reflexivity.
    + change (sys_path w_dot) with ["."]. rewrite list_elem_of_singleton. discriminate.
  - destruct (H3 "/r/a.repy") as (H & _). apply H.
    intros (wr & t & E). vm_compute in E. discriminate.
  - apply (H2 (PyInt 3)); [discriminate | intros s; discriminate].
  - apply H5. discriminate.
Defined.

(** * Further properties of the code *)

(** ** What the generator may change *)

Lemma retained_refl a fs : retained a fs fs.
Proof. intros p n _ H. exact H. Qed.

Lemma retained_trans a fs1 fs2 fs3 :
  retained a fs1 fs2 -> retained a fs2 fs3 -> retained a fs1 fs3.
Proof. intros H1 H2 p n Hp H. apply (H2 p n Hp), (H1 p n Hp), H. Qed.

#[global] Instance confined_preorder fd gen : PreOrder (confined fd gen).
Proof.
  split.
  - intros w. split; [reflexivity|]. intros H. split; [exact H|].
    split; [reflexivity | apply retained_refl].
  - intros w1 w2 w3 [Hc1 H1] [Hc2 H2]. split; [congruence|].
    intros Hw. destruct (H1 Hw) as (Hw2 & Ho1 & Hr1).
    assert (Hw2' : writes_to fd gen w2) by exact Hw2.
    unfold writes_to in *. rewrite Hc1 in *.
    destruct (H2 Hw2') as (Hw3 & Ho2 & Hr2).
    split; [exact Hw3|]. split.
    + intros k Hk. now rewrite Ho2, Ho1.
    + eapply retained_trans; eassumption.
Qed.

Lemma confined_store fd gen w w' o :
  ofiles w !! fd = Some o ->
  cwd w' = cwd w ->
  ofiles w' = ofiles w \/ ofiles w' = delete fd (ofiles w) ->
  files w' = files w
  \/ (exists r wr t d d',
        files w !! of_path o = Some (File r wr t d)
        /\ files w' = <[of_path o := File r wr t d']> (files w)) ->
  confined fd gen w w'.
Proof.
  intros Eo Hc Ho Hf. split; [exact Hc|]. intros Hw. split; [|split].
  - intros o'. rewrite Hc. destruct Ho as [-> | ->]; [apply Hw|].
    rewrite lookup_delete_eq. discriminate.
  - intros k Hk. destruct Ho as [-> | ->]; [reflexivity|].
    now rewrite lookup_delete_ne.
  - destruct Hf as [-> | (r & wr & t & d & d' & En & ->)]; [apply retained_refl|].
    intros p nd [Hp|Hd] H.
    + rewrite lookup_insert_ne; [exact H | rewrite (Hw o Eo); congruence].
    + destruct (decide (of_path o = p)) as [<-|Hne]; [|now rewrite lookup_insert_ne].
      rewrite En in H. injection H as <-. destruct Hd.
Qed.

Lemma confined_fwrite fd gen s : respects (confined fd gen) (OS.fwrite fd s).
Proof.
  intros w. unfold OS.fwrite.
  destruct (ofiles w !! fd) as [o|] eqn:Eo; [|reflexivity].
  destruct (files w !! of_path o) as [[r wr t d|wr t]|] eqn:En; try reflexivity.
  destruct (Nat.ltb _ _); [|destruct (wfault w) as [[|k]|]]; cbn [snd];
    (apply (confined_store fd gen w _ o Eo);
     [reflexivity | left; reflexivity | right; eauto 10]).
Qed.

Lemma confined_softspace fd gen b : respects (confined fd gen) (OS.softspace fd b).
Proof.
  intros w. unfold OS.softspace.
  destruct (ofiles w !! fd) as [o|] eqn:Eo; [|reflexivity].
  cbn [snd]. split; [reflexivity|]. intros Hw. split; [|split].
  - intros o'. cbn [ofiles set_ofiles cwd]. rewrite lookup_insert_eq.
    intros [= <-]. cbn. now apply Hw.
  - intros k Hk. cbn [ofiles set_ofiles]. now rewrite lookup_insert_ne.
  - apply retained_refl.
Qed.

Lemma confined_fclose fd gen : respects (confined fd gen) (OS.fclose fd).
Proof.
  intros w. unfold OS.fclose.
  destruct (ofiles w !! fd) as [o|] eqn:Eo; [|reflexivity].
  destruct (files w !! of_path o) as [[r wr t d|wr t]|] eqn:En;
    [destruct (Nat.eqb _ _); [|destruct (wfault w) as [[|k]|]] | |]; cbn [snd];
    (apply (confined_store fd gen w _ o Eo);
     [reflexivity | right; reflexivity | first [left; reflexivity | right; eauto 10]]).
Qed.

Lemma confined_remove fd gen : respects (confined fd gen) (OS.remove gen).
Proof.
  intros w. unfold OS.remove.
  destruct (OS.resolve w gen) as [[r wr t d|wr t]|] eqn:Er; [|reflexivity..].
  destruct (files w !! PosixPath.dirname _) as [[| [|] ?]|]; try reflexivity.
  cbn [snd]. split; [reflexivity|]. intros Hw. split; [exact Hw|].
  split; [reflexivity|]. cbn [files set_files].
  intros p n [Hp|Hd] H.
  - rewrite lookup_delete_ne; [exact H | congruence].
  - destruct (decide (PosixPath.abspath (cwd w) gen = p)) as [<-|Hne];
      [|now rewrite lookup_delete_ne].
    exfalso. unfold OS.resolve in Er. rewrite H in Er.
    destruct (String.eqb gen ""); [discriminate|]. destruct n; [destruct Hd|discriminate].
Qed.

#[export] Hint Resolve confined_fwrite confined_softspace confined_fclose
  confined_remove : frame.
#[export] Hint Extern 5 (respects (confined _ _) _) =>
  (apply read_only_respects; [typeclasses eauto | solve [auto with frame]]) : frame.

Lemma confined_print_item fd gen s : respects (confined fd gen) (OS.print_item fd s).
Proof. unfold OS.print_item. frame. Qed.
Lemma confined_print_newline fd gen : respects (confined fd gen) (OS.print_newline fd).
Proof. unfold OS.print_newline. frame. Qed.
#[export] Hint Resolve confined_print_item confined_print_newline : frame.

Lemma confined_print1 fd gen s : respects (confined fd gen) (OS.print1 fd s).
Proof. unfold OS.print1. frame. Qed.
Lemma confined_print2 fd gen s1 s2 : respects (confined fd gen) (OS.print2 fd s1 s2).
Proof. unfold OS.print2. frame. Qed.
#[export] Hint Resolve confined_print1 confined_print2 : frame.

Lemma confined_process_output_file fd src gen :
  respects (confined fd gen) (_process_output_file fd src gen).
Proof. unfold _process_output_file, process_line. frame. Qed.
#[export] Hint Resolve confined_process_output_file : frame.

#[global] Instance grows_preorder : PreOrder grows.
Proof.
  split.
  - intros w. repeat split. auto.
  - intros w1 w2 w3 (?&?&H1) (?&?&H2). repeat split; try congruence. auto.
Qed.

Lemma mkdirs_retains ps t fs fs' :
  OS.mkdirs ps t fs = Some fs' ->
  forall p n, fs !! p = Some n -> fs' !! p = Some n.
Proof.
  revert fs. induction ps as [|q ps IH]; intros fs H p n Hp; cbn [OS.mkdirs] in H.
  - now injection H as <-.
  - destruct (fs !! q) as [[r wr t' d|wr t']|] eqn:Eq; [discriminate| |].
    + destruct ps; [discriminate|]. now apply (IH fs).
    + destruct (fs !! PosixPath.dirname q) as [[| [|] ?]|]; try discriminate.
      apply (IH _ H). rewrite lookup_insert_ne; [exact Hp|]. congruence.
Qed.

Lemma grows_makedirs d : respects grows (OS.makedirs d).
Proof.
  intros w. unfold OS.makedirs.
  destruct (OS.mkdirs _ _ _) as [fs|] eqn:E; [|reflexivity].
  cbn [snd]. repeat split. cbn [files set_clock set_files].
  now apply (mkdirs_retains _ _ _ _ E).
Qed.

#[export] Hint Resolve grows_makedirs : frame.
#[export] Hint Extern 5 (respects grows _) =>
  (apply read_only_respects; [typeclasses eauto | solve [auto with frame]]) : frame.

Lemma open_w_frame gen w :
  match OS.open_w gen w with
  | (Ok fd, w1) =>
      ofiles w !! fd = None
      /\ ofiles w1 = <[fd := mkOfile (PosixPath.abspath (cwd w) gen) false]> (ofiles w)
      /\ cwd w1 = cwd w
      /\ retained (PosixPath.abspath (cwd w) gen) (files w) (files w1)
  | (Raise e, w1) => w1 = w /\ exists args, e = IOError args
  end.
Proof.
  unfold OS.open_w.
  assert (Hfresh : ofiles w !! fresh (dom (ofiles w)) = None)
    by (apply not_elem_of_dom, is_fresh).
  assert (Hret : forall nd,
    (forall x y, files w !! PosixPath.abspath (cwd w) gen <> Some (Dir x y)) ->
    retained (PosixPath.abspath (cwd w) gen) (files w)
      (<[PosixPath.abspath (cwd w) gen := nd]> (files w))).
  { intros nd Hnd p n [Hp|Hd] H.
    - rewrite lookup_insert_ne; [exact H|congruence].
    - destruct (decide (PosixPath.abspath (cwd w) gen = p)) as [<-|Hne];
        [|now rewrite lookup_insert_ne].
      destruct n; [destruct Hd|]. exfalso. now apply (Hnd writable mtime). }
  destruct (_ || _); [split; eauto|].
  destruct (files w !! PosixPath.abspath (cwd w) gen) as [[r [|] t d|wr t]|] eqn:E.
  - cbn [ofiles cwd files set_ofiles set_clock set_files].
    split; [exact Hfresh|]. split; [reflexivity|]. split; [reflexivity|].
    apply Hret. intros; discriminate.
  - split; eauto.
  - split; eauto.
  - destruct (files w !! PosixPath.dirname _) as [[r wr t d|[|] t]|].
    1, 3, 4: split; eauto.
    cbn [ofiles cwd files set_ofiles set_clock set_files].
    split; [exact Hfresh|]. split; [reflexivity|]. split; [reflexivity|].
    apply Hret. intros; discriminate.
Qed.

Lemma open_phase (pre : M unit) (h : exn -> option (M nat)) gen w :
  respects grows pre ->
  (forall e k, h e = Some k -> exists e', k = raise e') ->
  match try_except (pre;; OS.open_w gen) h w with
  | (Ok fd, w1) =>
      ofiles w !! fd = None
      /\ ofiles w1 = <[fd := mkOfile (PosixPath.abspath (cwd w) gen) false]> (ofiles w)
      /\ cwd w1 = cwd w
      /\ retained (PosixPath.abspath (cwd w) gen) (files w) (files w1)
  | (Raise e, w1) => grows w w1
  end.
Proof.
  intros Hpre Hh. unfold try_except, bind. specialize (Hpre w).
  destruct (pre w) as [[[]|e] w0]; cbn [snd] in Hpre.
  - destruct Hpre as (Hc & Ho & Hf).
    pose proof (open_w_frame gen w0) as Hopen.
    destruct (OS.open_w gen w0) as [[fd|e] w1].
    + rewrite Hc, Ho in Hopen. destruct Hopen as (H1 & H2 & H3 & H4).
      split; [exact H1|]. split; [exact H2|]. split; [congruence|].
      intros p n Hp H. apply (H4 p n Hp), Hf, H.
    + destruct Hopen as [-> _]. destruct (h e) as [k|] eqn:Ek.
      * destruct (Hh e k Ek) as [e' ->]. repeat split; assumption.
      * repeat split; assumption.
  - destruct (h e) as [k|] eqn:Ek; [|exact Hpre].
    destruct (Hh e k Ek) as [e' ->]. exact Hpre.
Qed.

Lemma try_finally_closed {A} (m : M A) fd w :
  ofiles (snd (try_finally m (OS.fclose fd) w)) !! fd = None.
Proof.
  unfold try_finally. destruct (m w) as [r w'].
  assert (H : ofiles (snd (OS.fclose fd w')) !! fd = None).
  { unfold OS.fclose. destruct (ofiles w' !! fd) as [o|] eqn:Eo; [|exact Eo].
    repeat case_match; cbn [snd ofiles set_ofiles set_files set_wfault];
      apply lookup_delete_eq. }
  destruct (OS.fclose fd w') as [[u|e] w'']; exact H.
Qed.

(** The generator, whatever fails: the working directory and the table of
    open files end as they started, and no node other than a file at the
    artifact's path is changed or lost. *)
Lemma generate_frame src gen sh cf ca w :
  let w' := snd (_generate_python_file_from_repy src gen sh cf ca w) in
  cwd w' = cwd w
  /\ ofiles w' = ofiles w
  /\ retained (PosixPath.abspath (cwd w) gen) (files w) (files w').
Proof.
  cbv zeta. remember (_generate_python_file_from_repy src gen sh cf ca w) as x eqn:Hx.
  unfold _generate_python_file_from_repy in Hx. unfold bind at 1 in Hx.
  match type of Hx with context [try_except (?pre;; OS.open_w gen) ?h w] =>
    pose proof (open_phase pre h gen w) as Hopen;
    destruct (try_except (pre;; OS.open_w gen) h w) as [[fd|e] w1]
  end.
  - destruct Hopen as (Hfd & Ho & Hc & Hr).
    { frame. }
    { intros e k. destruct e; cbn; intros; simplify_eq; eauto. }
    cbv beta in Hx.
    match type of Hx with context [try_finally ?m (OS.fclose fd) w1] =>
      assert (Hbody : respects (confined fd gen) (try_finally m (OS.fclose fd)))
        by frame;
      pose proof (try_finally_closed m fd w1) as Hclosed;
      specialize (Hbody w1);
      destruct (try_finally m (OS.fclose fd) w1) as [res w2]
    end.
    subst x. cbn [snd] in *. destruct Hbody as [Hc2 Hbody].
    destruct Hbody as (_ & Hoff & Hr2).
    { intros o. rewrite Ho, lookup_insert_eq. intros [= <-]. cbn. now rewrite Hc. }
    split; [congruence|]. split.
    + apply map_eq. intros k. destruct (decide (k = fd)) as [Hk|Hk].
      * subst k. now rewrite Hclosed, Hfd.
      * rewrite (Hoff k Hk), Ho. now rewrite lookup_insert_ne.
    + rewrite Hc in Hr2. eapply retained_trans; eassumption.
  - subst x. cbn [snd]. destruct Hopen as (Hc & Ho & Hf).
    { frame. }
    { intros e' k. destruct e'; cbn; intros; simplify_eq; eauto. }
    repeat split; try assumption. intros p n _ H. now apply Hf.
Qed.

(** ** The exceptions a computation can end with *)

Section Raises.
Context (P : exn -> Prop).

Lemma raises_only_ret {A} (a : A) : raises_only P (ret a).
Proof. intros w Hw. split; [exact Hw | discriminate]. Qed.

Lemma raises_only_gets {A} (f : World -> A) : raises_only P (gets f).
Proof. intros w Hw. split; [exact Hw | discriminate]. Qed.

Lemma raises_only_raise {A} (e : exn) : P e -> raises_only P (@raise A e).
Proof. intros He w Hw. split; [exact Hw|]. intros e' H. now injection H as <-. Qed.

Lemma raises_only_bind {A B} (m : M A) (k : A -> M B) :
  raises_only P m -> (forall a, raises_only P (k a)) -> raises_only P (bind m k).
Proof.
  intros Hm Hk w Hw. unfold bind. destruct (Hm w Hw) as [Hw' He].
  destruct (m w) as [[a|e'] w']; cbn [fst snd] in *; [now apply Hk|].
  split; [exact Hw'|]. intros e [= <-]. now apply He.
Qed.

Lemma raises_only_try_except {A} (Q : exn -> Prop) (m : M A) (h : exn -> option (M A)) :
  raises_only Q m ->
  (forall e k, Q e -> h e = Some k -> raises_only P k) ->
  (forall e, Q e -> h e = None -> P e) ->
  raises_only P (try_except m h).
Proof.
  intros Hm Hh Hn w Hw. unfold try_except. destruct (Hm w Hw) as [Hw' He].
  destruct (m w) as [[a|e'] w']; cbn [fst snd] in *; [split; [exact Hw'|discriminate]|].
  specialize (He e' eq_refl). destruct (h e') as [k|] eqn:E.
  - now apply (Hh e' k).
  - cbn. split; [exact Hw'|]. intros e [= <-]. now apply Hn.
Qed.

Lemma raises_only_try_finally {A} (m : M A) (f : M unit) :
  raises_only P m -> raises_only P f -> raises_only P (try_finally m f).
Proof.
  intros Hm Hf w Hw. unfold try_finally. destruct (Hm w Hw) as [Hw' He].
  destruct (m w) as [r w']. cbn [fst snd] in *.
  destruct (Hf w' Hw') as [Hw'' He'].
  destruct (f w') as [[u|e'] w'']; cbn [fst snd] in *.
  - split; [exact Hw''|]. intros e ->. now apply He.
  - split; [exact Hw''|]. intros e [= <-]. now apply He'.
Qed.

Lemma raises_only_for_each {A} (f : A -> M unit) (l : list A) :
  (forall x, raises_only P (f x)) -> raises_only P (for_each f l).
Proof.
  intros Hf. induction l as [|x l IH]; cbn [for_each].
  - apply raises_only_ret.
  - apply raises_only_bind; [apply Hf | intros _; exact IH].
Qed.

End Raises.

Lemma raises_only_weaken (P Q : exn -> Prop) {A} (m : M A) :
  (forall e, P e -> Q e) -> raises_only P m -> raises_only Q m.
Proof.
  intros H Hm w Hw. destruct (Hm w Hw) as [Hw' He].
  split; [exact Hw'|]. intros e E. apply H, (He e E).
Qed.

Ltac raises_prim :=
  let w := fresh "w" in let Hw := fresh "Hw" in
  intros w Hw; destruct w; cbn in Hw; subst;
  repeat (case_match; try discriminate);
  cbn; (split; [reflexivity|]); intros; simplify_eq; exact I.

Lemma io_level_isfile p : raises_only io_level (OS.isfile p).
Proof. apply raises_only_gets. Qed.
Lemma io_level_isdir p : raises_only io_level (OS.isdir p).
Proof. apply raises_only_gets. Qed.
Lemma io_level_abspath p : raises_only io_level (OS.abspath p).
Proof. apply raises_only_gets. Qed.
Lemma io_level_open_r p : raises_only io_level (OS.open_r p).
Proof. unfold OS.open_r. raises_prim. Qed.
Lemma io_level_open_w p : raises_only io_level (OS.open_w p).
Proof. unfold OS.open_w. raises_prim. Qed.
Lemma io_level_fwrite fd s : raises_only io_level (OS.fwrite fd s).
Proof. unfold OS.fwrite. raises_prim. Qed.
Lemma io_level_softspace fd b : raises_only io_level (OS.softspace fd b).
Proof. unfold OS.softspace. raises_prim. Qed.
Lemma io_level_remove p : raises_only io_level (OS.remove p).
Proof. unfold OS.remove. raises_prim. Qed.
Lemma io_level_makedirs p : raises_only io_level (OS.makedirs p).
Proof. unfold OS.makedirs. raises_prim. Qed.
Lemma wrapped_makedirs p : raises_only wrapped (OS.makedirs p).
Proof. unfold OS.makedirs. raises_prim. Qed.
Lemma wrapped_fclose fd : raises_only wrapped (OS.fclose fd).
Proof. unfold OS.fclose. raises_prim. Qed.
Lemma wrapped_isfile p : raises_only wrapped (OS.isfile p).
Proof. apply raises_only_gets. Qed.
Lemma wrapped_isdir p : raises_only wrapped (OS.isdir p).
Proof. apply raises_only_gets. Qed.
Lemma wrapped_abspath p : raises_only wrapped (OS.abspath p).
Proof. apply raises_only_gets. Qed.
Lemma wrapped_stat_mtime p : raises_only wrapped (OS.stat_mtime p).
Proof. unfold OS.stat_mtime. raises_prim. Qed.

Create HintDb raises.
#[export] Hint Resolve io_level_isfile io_level_isdir io_level_abspath io_level_open_r
  io_level_open_w io_level_fwrite io_level_softspace io_level_remove
  io_level_makedirs wrapped_makedirs wrapped_fclose wrapped_isfile wrapped_isdir
  wrapped_abspath wrapped_stat_mtime : raises.

(** Steps through the structure of a computation; the body of a [try]
    is examined for what the handler may let through. *)
Ltac raises_step :=
  first
    [ apply raises_only_ret
    | apply raises_only_gets
    | apply raises_only_raise; exact I
    | apply raises_only_bind; [ | intros ]
    | apply (raises_only_try_except _ io_level);
        [ | let e := fresh "e" in let k := fresh "k" in
            intros e k ? ?; destruct e; cbn in *; simplify_eq
          | let e := fresh "e" in intros e ? ?; destruct e; cbn in *;
            first [discriminate | contradiction | exact I] ]
    | apply raises_only_try_finally
    | apply raises_only_for_each; intros
    | progress cbv zeta
    | match goal with
      | |- raises_only _ (if ?b then _ else _) => destruct b
      | |- raises_only _ (match ?x with _ => _ end) => destruct x
      | |- raises_only _ (let (_, _) := ?x in _) => destruct x
      end ].

Ltac raises := repeat (first [solve [auto with raises] | raises_step]).

Lemma io_level_print_item fd s : raises_only io_level (OS.print_item fd s).
Proof. unfold OS.print_item. raises. Qed.
Lemma io_level_print_newline fd : raises_only io_level (OS.print_newline fd).
Proof. unfold OS.print_newline. raises. Qed.
#[export] Hint Resolve io_level_print_item io_level_print_newline : raises.
Lemma io_level_print1 fd s : raises_only io_level (OS.print1 fd s).
Proof. unfold OS.print1. raises. Qed.
Lemma io_level_print2 fd s1 s2 : raises_only io_level (OS.print2 fd s1 s2).
Proof. unfold OS.print2. raises. Qed.
#[export] Hint Resolve io_level_print1 io_level_print2 : raises.

Lemma io_level_process_output_file fd src gen :
  raises_only io_level (_process_output_file fd src gen).
Proof. unfold _process_output_file, process_line. raises. Qed.
#[export] Hint Resolve io_level_process_output_file : raises.

Lemma wrapped_generate src gen sh cf ca :
  raises_only wrapped (_generate_python_file_from_repy src gen sh cf ca).
Proof. unfold _generate_python_file_from_repy. raises. Qed.
#[export] Hint Resolve wrapped_generate : raises.

Lemma wrapped_translation_is_needed repy gen :
  raises_only wrapped (_translation_is_needed repy gen).
Proof. unfold _translation_is_needed. raises. Qed.
#[export] Hint Resolve wrapped_translation_is_needed : raises.

Lemma wrapped_search_path filename path : raises_only wrapped (search_path filename path).
Proof.
  induction path as [|d path IH]; cbn [search_path]; [raises|].
  raises_step; [apply wrapped_isfile|]. destruct a; [raises | exact IH].
Qed.
#[export] Hint Resolve wrapped_search_path : raises.

Lemma wrapped_translate_paths filename : raises_only wrapped (translate_paths filename).
Proof. unfold translate_paths, sys_path_0. raises. Qed.
#[export] Hint Resolve wrapped_translate_paths : raises.

Lemma wrapped_translate filename sh cf ca fo :
  raises_only wrapped (translate filename sh cf ca fo).
Proof. unfold translate. raises. Qed.

(** ** The staleness check, case by case *)

Lemma stat_mtime_file w p r wr t d :
  OS.resolve w p = Some (File r wr t d) -> OS.stat_mtime p w = (Ok t, w).
Proof. intros H. unfold OS.stat_mtime. now rewrite H. Qed.

Lemma decide_stale_cases w repy gen d r' wr' ts ds r wr tg :
  OS.resolve w repy = Some (File r' wr' ts ds) ->
  OS.resolve w gen = Some (File r wr tg d) ->
  decide_stale w repy gen d
  = if negb (generated_header d) then
      Raise (TranslationError ["File name exists but wasn't automatically generated: "
                                 +:+ gen])
    else Ok (negb (startswith (last_line_read d) TRANSLATION_TAGLINE
                   && String.eqb
                        (strip (slice_from (String.length TRANSLATION_TAGLINE)
                                  (first_line d)))
                        (PosixPath.abspath (cwd w) repy)
                   && (ts <? tg)%Z)).
Proof.
  intros Hs Hg. unfold decide_stale.
  rewrite (stat_mtime_file _ _ _ _ _ _ Hs), (stat_mtime_file _ _ _ _ _ _ Hg).
  cbn [fst]. destruct (negb (generated_header d)); [reflexivity|].
  destruct (startswith _ _); [|reflexivity]. cbn [negb andb].
  destruct (String.eqb _ _); [|reflexivity]. cbn [negb andb].
  now destruct (ts <? tg)%Z.
Qed.

(** X2.  Whatever the files hold, the only exception the staleness check
    ends with is a TranslationError. *)
Theorem translation_is_needed_fails_with_TranslationError
    (repyfilename generatedfile : string) (w : World) (e : exn) :
  fst (_translation_is_needed repyfilename generatedfile w) = Raise e ->
  exists args, e = TranslationError args.
Proof.
  destruct (is_file_dec w repyfilename) as [Hs|Hs].
  2: { rewrite translation_is_needed_no_source by assumption. intros [= <-]. eauto. }
  destruct (is_file_dec w generatedfile) as [Hg|Hg].
  2: { rewrite translation_is_needed_no_artifact by assumption. discriminate. }
  destruct Hg as ([|] & wr & t & d & Hg).
  - rewrite (translation_is_needed_readable _ _ _ _ _ _ Hs Hg). cbn [fst].
    destruct Hs as (r' & wr' & ts & ds & Hs).
    rewrite (decide_stale_cases _ _ _ _ _ _ _ _ _ _ _ Hs Hg).
    destruct (negb _); [intros [= <-]; eauto | discriminate].
  - destruct (translation_is_needed_unreadable _ _ _ _ _ _ Hs Hg) as [[a ->] _].
    intros [= <-]. eauto.
Qed.

(** X1.  The staleness check when a file is missing or cannot be read.  If
    the source is not an existing file the check raises
    TranslationError("no such file:", source).  If the source exists and
    nothing is at the artifact path it answers True.  If the artifact exists
    but cannot be opened for reading it raises a TranslationError.  In all
    three cases nothing is changed. *)
Theorem stale_check_on_missing_files (repyfilename generatedfile : string) (w : World) :
  (~ is_file w repyfilename ->
   _translation_is_needed repyfilename generatedfile w
   = (Raise (TranslationError ["no such file:"; repyfilename]), w))
  /\ (is_file w repyfilename -> ~ is_file w generatedfile ->
      _translation_is_needed repyfilename generatedfile w = (Ok true, w))
  /\ (is_file w repyfilename ->
      (exists wr t d, OS.resolve w generatedfile = Some (File false wr t d)) ->
      is_TranslationError (fst (_translation_is_needed repyfilename generatedfile w))
      /\ snd (_translation_is_needed repyfilename generatedfile w) = w).
Proof.
  split; [|split].
  - apply translation_is_needed_no_source.
  - apply translation_is_needed_no_artifact.
  - intros Hs (wr & t & d & Hg). now apply translation_is_needed_unreadable with wr t d.
Qed.

(** X3.  When the artifact is readable and recognised as generated, and
    its modification time is not later than the source's (equal times
    included), the check answers True, whatever else the artifact holds. *)
Theorem source_not_older_is_regenerated (repyfilename generatedfile : string) (w : World)
    (r' wr' : bool) (ts : Z) (ds : string) (wr : bool) (tg : Z) (d : string) :
  OS.resolve w repyfilename = Some (File r' wr' ts ds) ->
  OS.resolve w generatedfile = Some (File true wr tg d) ->
  generated_header d = true ->
  (tg <= ts)%Z ->
  _translation_is_needed repyfilename generatedfile w = (Ok true, w).
Proof.
  intros Hs Hg Hh Ht.
  rewrite (translation_is_needed_readable w repyfilename generatedfile wr tg d);
    [|red; eauto|exact Hg].
  rewrite (decide_stale_cases _ _ _ _ _ _ _ _ _ _ _ Hs Hg), Hh. cbn [negb].
  replace (ts <? tg)%Z with false by (symmetry; apply Z.ltb_ge; exact Ht).
  now rewrite andb_false_r.
Qed.

(** X4.  The check answers False, the only answer that lets [translate]
    skip the generation, exactly when source and artifact are files, the
    artifact is readable, its first two lines are recognised, the last line
    read carries the tag, the text after the first [len(TRANSLATION_TAGLINE)]
    characters of its first line, stripped, is the absolute path of the
    source, and the source is strictly older than the artifact. *)
Theorem reuse_exactly_when (repyfilename generatedfile : string) (w : World) :
  fst (_translation_is_needed repyfilename generatedfile w) = Ok false
  <-> exists r' wr' ts ds wr tg d,
        OS.resolve w repyfilename = Some (File r' wr' ts ds)
        /\ OS.resolve w generatedfile = Some (File true wr tg d)
        /\ generated_header d = true
        /\ startswith (last_line_read d) TRANSLATION_TAGLINE = true
        /\ strip (slice_from (String.length TRANSLATION_TAGLINE) (first_line d))
           = PosixPath.abspath (cwd w) repyfilename
        /\ (ts < tg)%Z.
Proof.
  split.
  - destruct (is_file_dec w repyfilename) as [Hs|Hs].
    2: { rewrite translation_is_needed_no_source by assumption. discriminate. }
    destruct (is_file_dec w generatedfile) as [Hg|Hg].
    2: { rewrite translation_is_needed_no_artifact by assumption. discriminate. }
    destruct Hg as ([|] & wr & tg & d & Hg).
    + rewrite (translation_is_needed_readable _ _ _ _ _ _ Hs Hg). cbn [fst].
      destruct Hs as (r' & wr' & ts & ds & Hs).
      rewrite (decide_stale_cases _ _ _ _ _ _ _ _ _ _ _ Hs Hg).
      destruct (generated_header d) eqn:Hh; cbn [negb]; [|discriminate].
      intros [= H]. apply negb_false_iff in H.
      apply andb_true_iff in H as [H Ht]. apply andb_true_iff in H as [Hl Hp].
      exists r', wr', ts, ds, wr, tg, d. repeat split; try assumption.
      * now apply String.eqb_eq.
      * now apply Z.ltb_lt.
    + destruct (translation_is_needed_unreadable _ _ _ _ _ _ Hs Hg) as [[a ->] _].
      discriminate.
  - intros (r' & wr' & ts & ds & wr & tg & d & Hs & Hg & Hh & Hl & Hp & Ht).
    rewrite (reuse_iff_source_older _ _ _ _ _ _ _ _ _ _ Hs Hg Hh Hl Hp). cbn [fst].
    apply Z.ltb_lt in Ht. now rewrite Ht.
Qed.

(** ** Module names and the orchestrator's edge cases *)

Lemma rsplit_tail_no_sep p : contains PosixPath.sep (snd (PosixPath.rsplit p)) = false.
Proof.
  induction p as [|c p IH]; [reflexivity|].
  cbn [PosixPath.rsplit]. destruct (PosixPath.rsplit p) as [h t]. cbn [snd] in IH.
  destruct h as [|x h]; [|exact IH].
  destruct (Ascii.eqb c PosixPath.sep) eqn:E; [exact IH|].
  cbn [snd contains]. now rewrite E, IH.
Qed.

Lemma basename_no_sep p : contains PosixPath.sep (PosixPath.basename p) = false.
Proof. apply rsplit_tail_no_sep. Qed.

Lemma rsplit_no_sep name :
  contains PosixPath.sep name = false -> PosixPath.rsplit name = (EmptyString, name).
Proof.
  intros H. pose proof (rsplit_spec name) as Hs.
  destruct (PosixPath.rsplit name) as [h t]. destruct Hs as [Hp Hh].
  apply Hh in H. subst h. now rewrite Hp.
Qed.

Lemma replace_char_no_dot s : contains "."%char (replace_char "."%char "_"%char s) = false.
Proof.
  induction s as [|c s IH]; [reflexivity|]. cbn [replace_char contains].
  rewrite IH, orb_false_r. destruct (Ascii.eqb c ".") eqn:E; [reflexivity|exact E].
Qed.

Lemma replace_char_sep s :
  contains PosixPath.sep (replace_char "."%char "_"%char s) = contains PosixPath.sep s.
Proof.
  induction s as [|c s IH]; [reflexivity|]. cbn [replace_char contains]. rewrite IH.
  destruct (Ascii.eqb_spec c "."%char) as [->|Hc]; reflexivity.
Qed.

Lemma replace_char_length s :
  String.length (replace_char "."%char "_"%char s) = String.length s.
Proof. induction s as [|c s IH]; [reflexivity|]. cbn. now rewrite IH. Qed.

Lemma replace_char_id s :
  contains "."%char s = false -> replace_char "."%char "_"%char s = s.
Proof.
  induction s as [|c s IH]; [reflexivity|]. cbn [contains replace_char].
  intros H. apply orb_false_elim in H as [Hc Hs]. now rewrite Hc, IH.
Qed.

Lemma join_empty b : PosixPath.join EmptyString b = b.
Proof. unfold PosixPath.join. now destruct (startswith b "/"). Qed.

Lemma get_module_name_no_sep name :
  contains PosixPath.sep name = false ->
  _get_module_name name = replace_char "."%char "_"%char name.
Proof.
  intros H. unfold _get_module_name, PosixPath.split.
  rewrite (rsplit_no_sep _ H). cbn [PosixPath.strip_head String.eqb negb andb].
  apply join_empty.
Qed.

Lemma module_name_eq filename :
  module_name filename = replace_char "."%char "_"%char (PosixPath.basename filename).
Proof. apply get_module_name_no_sep, basename_no_sep. Qed.

(** X6.  On a name without directory part [_get_module_name] replaces
    every dot by an underscore: the result has no dot and no separator, has
    the length of the name, is left unchanged by a second application, and
    with [.py] appended differs from the name, so the artifact of a source
    in the same directory is never the source itself. *)
Theorem module_name_of_a_base_name (name : string) :
  contains PosixPath.sep name = false ->
  _get_module_name name = replace_char "."%char "_"%char name
  /\ contains "."%char (_get_module_name name) = false
  /\ contains PosixPath.sep (_get_module_name name) = false
  /\ String.length (_get_module_name name) = String.length name
  /\ _get_module_name (_get_module_name name) = _get_module_name name
  /\ _get_module_name name +:+ ".py" <> name.
Proof.
  intros H. rewrite (get_module_name_no_sep _ H).
  split; [reflexivity|]. split; [apply replace_char_no_dot|].
  split; [now rewrite replace_char_sep|]. split; [apply replace_char_length|]. split.
  - rewrite get_module_name_no_sep by now rewrite replace_char_sep.
    apply replace_char_id, replace_char_no_dot.
  - intros E. apply (f_equal String.length) in E.
    rewrite length_append, replace_char_length in E. cbn in E. lia.
Qed.

Lemma contains_replace_differs s :
  contains "."%char s = true -> replace_char "."%char "_"%char s <> s.
Proof.
  intros H E. rewrite <- E in H. now rewrite replace_char_no_dot in H.
Qed.

(** X7.  Module names collide: a name with a dot and the different name
    obtained from it by writing underscores for the dots have the same
    module name, hence the same artifact. *)
Theorem dotted_names_collide (name : string) :
  contains PosixPath.sep name = false ->
  contains "."%char name = true ->
  let name' := replace_char "."%char "_"%char name in
  name' <> name
  /\ contains PosixPath.sep name' = false
  /\ _get_module_name name' = _get_module_name name.
Proof.
  intros Hs Hd name'. split; [now apply contains_replace_differs|].
  assert (Hs' : contains PosixPath.sep name' = false)
    by (subst name'; now rewrite replace_char_sep).
  split; [exact Hs'|].
  rewrite !get_module_name_no_sep by assumption.
  apply replace_char_id, replace_char_no_dot.
Qed.

(** X8.  Whenever [translate] returns, the value returned is the base name
    of [filename] with every dot replaced by an underscore, whatever
    directory the name was given with; it has no dot and no separator. *)
Theorem translate_returns_the_module_name (filename : string) (sh : bool) (cf : string)
    (ca : option (list string)) (fo : bool) (w : World) (m : string) :
  fst (translate filename sh cf ca fo w) = Ok m ->
  m = replace_char "."%char "_"%char (PosixPath.basename filename)
  /\ contains "."%char m = false
  /\ contains PosixPath.sep m = false.
Proof.
  intros H.
  assert (Hm : m = module_name filename).
  { unfold translate, bind, ret in H. fold (module_name filename) in H.
    repeat (match type of H with
            | context [let (_, _) := ?x in _] => destruct x as [[?|?] ?]
            | context [match ?x with (_, _) => _ end] => destruct x
            end; cbn [fst] in H; try discriminate).
    now injection H as <-. }
  subst m. rewrite module_name_eq.
  split; [reflexivity|]. split; [apply replace_char_no_dot|].
  rewrite replace_char_sep. apply basename_no_sep.
Qed.

(** X5.  When the artifact at the resolved path begins with the tag line
    naming the source (the old format, without the encoding line), ends with
    a tag line and is newer than the source, [translate] without
    [force_overwrite] returns the module name and changes nothing: no file,
    no time stamp, no open file. *)
Theorem cache_hit_writes_nothing (filename : string) (w : World) (src dest gen : string)
    (r' wr' : bool) (ts : Z) (ds : string) (wr : bool) (tg : Z) (d : string) :
  fst (translate_paths filename w) = Ok (src, dest, gen) ->
  OS.resolve w src = Some (File r' wr' ts ds) ->
  OS.resolve w gen = Some (File true wr tg d) ->
  generated_header d = true ->
  startswith (last_line_read d) TRANSLATION_TAGLINE = true ->
  strip (slice_from (String.length TRANSLATION_TAGLINE) (first_line d))
    = PosixPath.abspath (cwd w) src ->
  (ts < tg)%Z ->
  forall sh cf ca,
    translate filename sh cf ca false w = (Ok (module_name filename), w).
Proof.
  intros Hp Hs Hg Hh Hl Hpath Ht sh cf ca.
  rewrite (translate_checked _ _ _ _ _ _ _ _ Hp).
  rewrite (reuse_iff_source_older _ _ _ _ _ _ _ _ _ _ Hs Hg Hh Hl Hpath). cbn [fst].
  apply Z.ltb_lt in Ht. now rewrite Ht.
Qed.

(** X9.  With an empty [sys.path], [translate] fails before touching
    anything: with IndexError, from [sys.path[0]], when the name has a
    directory part (whether or not the file exists), with ValueError when
    it has none. *)
Theorem translate_with_empty_search_path (filename : string) (sh : bool) (cf : string)
    (ca : option (list string)) (fo : bool) (w : World) :
  sys_path w = [] ->
  translate filename sh cf ca fo w
  = (Raise (if contains PosixPath.sep filename
            then IndexError ["list index out of range"]
            else ValueError ["File " +:+ filename
                               +:+ " does not exist in the Python path."]), w).
Proof.
  intros Hp. apply translate_paths_raise.
  unfold translate_paths. rewrite is_basename_iff.
  destruct (contains PosixPath.sep filename); cbn [negb].
  - unfold bind, OS.abspath, gets, sys_path_0. cbn. unfold bind, gets. now rewrite Hp.
  - unfold bind, gets. rewrite Hp. reflexivity.
Qed.

Lemma makedirs_raise d w e w' :
  OS.makedirs d w = (Raise e, w') -> w' = w /\ exists args, e = OSError args.
Proof.
  unfold OS.makedirs. destruct (OS.mkdirs _ _ _); intros; simplify_eq. eauto.
Qed.

(** X12.  When the directory of the artifact is missing and
    [os.makedirs] fails, the generator ends with that OSError itself: the
    handler of the first [try] catches IOError only, no TranslationError is
    made of it, and nothing is changed. *)
Theorem makedirs_failure_escapes_as_OSError (src gen : string) (sh : bool) (cf : string)
    (ca : list string) (w : World) (e : exn) :
  PosixPath.dirname gen <> EmptyString ->
  ~ is_dir w (PosixPath.dirname gen) ->
  fst (OS.makedirs (PosixPath.dirname gen) w) = Raise e ->
  _generate_python_file_from_repy src gen sh cf ca w = (Raise e, w)
  /\ exists args, e = OSError args.
Proof.
  intros Hne Hd Hm.
  destruct (OS.makedirs (PosixPath.dirname gen) w) as [r w'] eqn:Em. cbn in Hm. subst r.
  destruct (makedirs_raise _ _ _ _ Em) as [-> [args ->]].
  split; [|eauto].
  unfold _generate_python_file_from_repy. unfold bind at 1, try_except at 1. cbv zeta.
  apply String.eqb_neq in Hne. rewrite Hne. cbn [negb].
  unfold bind at 1. unfold bind at 1.
  rewrite (isdir_not_dir _ _ Hd). cbn [negb]. rewrite Em. reflexivity.
Qed.

(** X13.  When the directory of the artifact exists (or the path has
    none) and [open(generatedfilename, 'w')] fails with [e], the generator
    raises TranslationError("Cannot open file for translation '<source>':
    <str(e)>") and changes nothing. *)
Theorem open_failure_is_a_TranslationError (src gen : string) (sh : bool) (cf : string)
    (ca : list string) (w : World) (e : exn) :
  PosixPath.dirname gen = EmptyString \/ is_dir w (PosixPath.dirname gen) ->
  fst (OS.open_w gen w) = Raise e ->
  _generate_python_file_from_repy src gen sh cf ca w
  = (Raise (TranslationError ["Cannot open file for translation '" +:+ src
                                +:+ "': " +:+ str_exn e]), w).
Proof.
  intros Hdir Ho.
  pose proof (open_w_frame gen w) as Hf.
  destruct (OS.open_w gen w) as [r w'] eqn:Eo. cbn in Ho. subst r.
  destruct Hf as [-> [args ->]].
  unfold _generate_python_file_from_repy. unfold bind at 1, try_except at 1. cbv zeta.
  destruct Hdir as [-> | Hd].
  - cbn [String.eqb negb]. unfold bind at 1, ret at 1. rewrite Eo. reflexivity.
  - destruct (String.eqb _ ""); cbn [negb].
    + unfold bind at 1, ret at 1. rewrite Eo. reflexivity.
    + apply isdir_is_dir in Hd. unfold bind at 1. unfold bind at 1. rewrite Hd.
      cbn [negb]. unfold ret at 1. rewrite Eo. reflexivity.
Qed.

(** ** What translation leaves alone *)

Lemma translate_frame filename sh cf ca fo w :
  let w' := snd (translate filename sh cf ca fo w) in
  cwd w' = cwd w
  /\ ofiles w' = ofiles w
  /\ (forall e, fst (translate_paths filename w) = Raise e -> w' = w)
  /\ (forall src dest gen,
        fst (translate_paths filename w) = Ok (src, dest, gen) ->
        retained (PosixPath.abspath (cwd w) gen) (files w) (files w')).
Proof.
  cbv zeta. destruct (fst (translate_paths filename w)) as [[[src dest] gen]|e] eqn:Hp.
  2: { rewrite (translate_paths_raise _ _ _ _ _ _ _ Hp). cbn.
       repeat split; try discriminate. }
  assert (Hgen : forall args,
    let w' := snd ((_generate_python_file_from_repy src gen sh cf args;;
                    ret (module_name filename)) w) in
    cwd w' = cwd w /\ ofiles w' = ofiles w
    /\ retained (PosixPath.abspath (cwd w) gen) (files w) (files w')).
  { intros args. cbv zeta. unfold bind.
    pose proof (generate_frame src gen sh cf args w) as Hg. cbv zeta in Hg.
    destruct (_generate_python_file_from_repy src gen sh cf args w) as [[[]|e] w1];
      exact Hg. }
  assert (H : cwd (snd (translate filename sh cf ca fo w)) = cwd w
              /\ ofiles (snd (translate filename sh cf ca fo w)) = ofiles w
              /\ retained (PosixPath.abspath (cwd w) gen) (files w)
                   (files (snd (translate filename sh cf ca fo w)))).
  { destruct fo.
    - rewrite (translate_forced _ _ _ _ _ _ _ _ Hp). apply Hgen.
    - rewrite (translate_checked _ _ _ _ _ _ _ _ Hp).
      destruct (fst (_translation_is_needed src gen w)) as [[|]|e]; [apply Hgen| |];
        cbn; repeat split; apply retained_refl. }
  destruct H as (H1 & H2 & H3). repeat split; try assumption; [discriminate|].
  intros src' dest' gen' [= <- <- <-]. exact H3.
Qed.

Lemma resolve_retained w w' p n a :
  cwd w' = cwd w ->
  retained a (files w) (files w') ->
  PosixPath.abspath (cwd w) p <> a \/ is_dir_node n ->
  OS.resolve w p = Some n -> OS.resolve w' p = Some n.
Proof.
  intros Hc Hr Hp H. unfold OS.resolve in *. rewrite Hc.
  destruct (String.eqb p ""); [discriminate|].
  destruct (files w !! PosixPath.abspath (cwd w) p) as [[r wr t d|wr t]|] eqn:E;
    [| |discriminate].
  - destruct (endswith_char p PosixPath.sep) eqn:Es; [discriminate|].
    injection H as <-. destruct Hp as [Hp|[]].
    now rewrite (Hr _ _ (or_introl Hp) E).
  - injection H as <-.
    now rewrite (Hr _ (Dir wr t) (or_intror I) E).
Qed.

(** X14.  However the generator ends, normally or with an exception
    raised at any point, the files open afterwards are those that were open
    before it: the artifact's file object has been closed. *)
Theorem generator_closes_its_file (src gen : string) (sh : bool) (cf : string)
    (ca : list string) (w : World) :
  ofiles (snd (_generate_python_file_from_repy src gen sh cf ca w)) = ofiles w.
Proof. apply (generate_frame src gen sh cf ca w). Qed.

(** X15.  However the generator ends, every file other than the one at the
    absolute artifact path is afterwards what it was before, content,
    permissions and time stamp, and every directory is still a directory
    with the permission it had. *)
Theorem generator_touches_only_the_artifact (src gen : string) (sh : bool) (cf : string)
    (ca : list string) (w : World) (p : string) :
  let w' := snd (_generate_python_file_from_repy src gen sh cf ca w) in
  (forall r wr t d,
     p <> PosixPath.abspath (cwd w) gen ->
     files w !! p = Some (File r wr t d) ->
     files w' !! p = Some (File r wr t d))
  /\ (forall wr t,
        files w !! p = Some (Dir wr t) -> exists t', files w' !! p = Some (Dir wr t')).
Proof.
  intros w'. destruct (generate_frame src gen sh cf ca w) as (_ & _ & Hr). split.
  - intros r wr t d Hp H. apply Hr; [now left | exact H].
  - intros wr t H. exists t. apply Hr; [now right | exact H].
Qed.

(** X16.  When the artifact path [translate] resolves is not the source's,
    the source is after [translate], however it ends, what it was
    before. *)
Theorem translate_leaves_the_source_alone (filename : string) (sh : bool) (cf : string)
    (ca : option (list string)) (fo : bool) (w : World) (src dest gen : string)
    (n : node) :
  fst (translate_paths filename w) = Ok (src, dest, gen) ->
  PosixPath.abspath (cwd w) src <> PosixPath.abspath (cwd w) gen ->
  OS.resolve w src = Some n ->
  OS.resolve (snd (translate filename sh cf ca fo w)) src = Some n.
Proof.
  intros Hp Hne Hs.
  destruct (translate_frame filename sh cf ca fo w) as (Hc & _ & _ & Hr).
  eapply resolve_retained; [exact Hc | exact (Hr _ _ _ Hp) | now left | exact Hs].
Qed.

(** X11.  That the cache directory, when set, names an existing directory
    which is an entry of [sys.path] is an invariant: [set_importcachedir]
    keeps it for every argument, accepted or refused, and so does
    [translate], however it ends. *)
Theorem cache_directory_stays_valid (w : World) :
  cachedir_valid w ->
  (forall v, cachedir_valid (snd (set_importcachedir v w)))
  /\ (forall filename sh cf ca fo,
        cachedir_valid (snd (translate filename sh cf ca fo w))).
Proof.
  intros Hv. split.
  - intros v. destruct v as [|b|z|s|l]; try exact Hv.
    + intros d. cbn. discriminate.
    + unfold set_importcachedir. fold (cachedir_of s).
      destruct (is_dir_dec w (cachedir_of s)) as [Hd|Hd].
      * pose proof Hd as Hd'. apply isdir_is_dir in Hd'.
        rewrite (bind_ok _ _ _ _ _ Hd'). cbn [negb]. unfold bind, gets.
        destruct (bool_decide (cachedir_of s ∈ sys_path w)) eqn:E; cbn [negb];
          [|exact Hv].
        apply bool_decide_eq_true_1 in E. intros d. cbn. intros [= <-].
        split; [exact Hd | exact E].
      * rewrite (bind_ok _ _ _ _ _ (isdir_not_dir _ _ Hd)). exact Hv.
  - intros filename sh cf ca fo d Hd.
    destruct (keeps_globals_translate filename sh cf ca fo w) as (_ & Hi & _ & Hsp & _).
    rewrite Hi in Hd. destruct (Hv d Hd) as [(wr & t & Hdir) Hin].
    rewrite Hsp. split; [|exact Hin].
    destruct (translate_frame filename sh cf ca fo w) as (Hc & _ & Hraise & Hr).
    destruct (fst (translate_paths filename w)) as [[[src dest] gen]|e] eqn:Hp.
    + exists wr, t. eapply resolve_retained;
        [exact Hc | exact (Hr _ _ _ eq_refl) | now right | exact Hdir].
    + rewrite (Hraise e eq_refl). now exists wr, t.
Qed.

(** ** The generated text is recognised *)

(** [rstrip] keeps a prefix that ends in a character that is no space. *)
Lemma rstrip_keeps_prefix a y :
  a <> EmptyString -> rstrip a = a -> exists z, rstrip (a +:+ y) = a +:+ z.
Proof.
  induction a as [|c a IH]; [congruence|]. intros _ Ha. rewrite append_cons.
  cbn [rstrip] in Ha |- *. destruct a as [|c' a].
  - rewrite append_nil_l. destruct (rstrip y) as [|x r].
    + cbn in Ha. destruct (isspace c); [discriminate|]. exists EmptyString. reflexivity.
    + exists (String x r). reflexivity.
  - destruct (rstrip (String c' a)) as [|x r] eqn:E.
    + destruct (isspace c); discriminate.
    + assert (Hr : String x r = String c' a) by congruence.
      destruct (IH ltac:(discriminate) Hr) as [z Hz].
      rewrite Hz. exists z. destruct z; reflexivity.
Qed.

Lemma startswith_append a z : startswith (a +:+ z) a = true.
Proof.
  unfold startswith. induction a as [|c a IH]; [now destruct z|].
  rewrite append_cons. cbn [String.prefix].
  destruct (ascii_dec c c); [exact IH | congruence].
Qed.

Lemma tagged_line_is_recognised y :
  startswith (rstrip (TRANSLATION_TAGLINE +:+ y)) TRANSLATION_TAGLINE = true.
Proof.
  destruct (rstrip_keeps_prefix TRANSLATION_TAGLINE y) as [z ->];
    [discriminate | reflexivity |]. apply startswith_append.
Qed.

Lemma artifact_text_shape src sh cf ca source :
  exists rest,
    rest <> EmptyString
    /\ artifact_text src sh cf ca source
       = ENCODING_STRING +:+ newline +:+
         (TRANSLATION_TAGLINE +:+ " " +:+ src) +:+ newline +:+ rest
    /\ exists body,
         rest = (body +:+ newline) +:+ (TRANSLATION_TAGLINE +:+ " " +:+ src) +:+ newline.
Proof.
  set (body :=
    WARNING_LABEL +:+ newline +:+
    "from repyportability import *" +:+ newline +:+
    "from repyportability import _context" +:+ newline +:+
    "import repyhelper" +:+ newline +:+
    mycontext_binding sh +:+ newline +:+
    "callfunc = " +:+ repr_str cf +:+ newline +:+
    "callargs = " +:+ repr_list ca +:+ newline +:+
    newline +:+ translated_body source).
  exists ((body +:+ newline) +:+ (TRANSLATION_TAGLINE +:+ " " +:+ src) +:+ newline).
  split; [|split].
  - subst body. unfold WARNING_LABEL. rewrite !append_assoc. discriminate.
  - subst body. unfold artifact_text, artifact_header. rewrite !append_assoc. reflexivity.
  - exists body. reflexivity.
Qed.

(** X17.  The text the generator writes passes the checks the staleness
    check makes of it: for a source path without line break, its first line
    is the encoding line, its second line starts with the tag, so it is
    recognised as generated, and the last line read is the tag line naming
    the source. *)
Theorem generated_artifact_is_recognised (src : string) (sh : bool) (cf : string)
    (ca : list string) (source : string) :
  contains nl src = false ->
  let d := artifact_text src sh cf ca source in
  first_line d = ENCODING_STRING
  /\ startswith (second_line d) TRANSLATION_TAGLINE = true
  /\ generated_header d = true
  /\ last_line_read d = TRANSLATION_TAGLINE +:+ " " +:+ src +:+ newline
  /\ startswith (last_line_read d) TRANSLATION_TAGLINE = true.
Proof.
  intros Hsrc d.
  destruct (artifact_text_shape src sh cf ca source) as (rest & Hne & Hd & body & Hrest).
  assert (Hline : contains nl (TRANSLATION_TAGLINE +:+ " " +:+ src) = false).
  { rewrite !contains_append, Hsrc. reflexivity. }
  assert (Hlines : readlines d
    = (ENCODING_STRING +:+ newline)
        :: ((TRANSLATION_TAGLINE +:+ " " +:+ src) +:+ newline) :: readlines rest).
  { subst d. rewrite Hd. rewrite (readlines_first_line ENCODING_STRING) by reflexivity.
    now rewrite readlines_first_line. }
  assert (H1 : first_line d = ENCODING_STRING).
  { unfold first_line. rewrite Hlines. reflexivity. }
  assert (H2 : startswith (second_line d) TRANSLATION_TAGLINE = true).
  { unfold second_line. rewrite Hlines. cbn [nth]. rewrite !append_assoc.
    apply tagged_line_is_recognised. }
  assert (H4 : last_line_read d = TRANSLATION_TAGLINE +:+ " " +:+ src +:+ newline).
  { unfold last_line_read. rewrite Hlines. cbn [skipn]. rewrite drop_0.
    rewrite Hrest, append_assoc, readlines_app_newline.
    rewrite (readlines_one_line _ Hline). rewrite last_last.
    now rewrite !append_assoc. }
  split; [exact H1|]. split; [exact H2|]. split; [|split; [exact H4|]].
  - unfold generated_header. rewrite H1, H2. reflexivity.
  - rewrite H4. apply startswith_append.
Qed.

(** ** Generating again, and the cache directory *)

Lemma open_w_ok_inv w p fd w' :
  OS.open_w p w = (Ok fd, w') ->
  String.eqb p "" || endswith_char p PosixPath.sep = false
  /\ (forall wr t, files w !! PosixPath.abspath (cwd w) p <> Some (Dir wr t)).
Proof.
  unfold OS.open_w. destruct (_ || _); [discriminate|]. intros H. split; [reflexivity|].
  intros wr t E. rewrite E in H. discriminate.
Qed.

Lemma can_open_again w gen r text :
  can_open_for_writing w gen ->
  can_open_for_writing (written w (PosixPath.abspath (cwd w) gen) r text) gen.
Proof.
  intros [Hdir (fd & w1 & Hopen)]. destruct (open_w_ok_inv _ _ _ _ Hopen) as [Hp Hnd].
  split.
  - destruct Hdir as [Hd|(wr & t & Hd)]; [now left|right]. exists wr, t.
    unfold OS.resolve, written in *. cbn [cwd files set_clock set_files].
    destruct (String.eqb (PosixPath.dirname gen) ""); [discriminate|].
    destruct (decide (PosixPath.abspath (cwd w) gen
                      = PosixPath.abspath (cwd w) (PosixPath.dirname gen))) as [E|E].
    + exfalso. rewrite <- E in Hd.
      destruct (files w !! PosixPath.abspath (cwd w) gen) as [[? ? ? ?|wr' t']|] eqn:En;
        try discriminate.
      * destruct (endswith_char _ _); discriminate.
      * now apply (Hnd wr' t').
    + now rewrite lookup_insert_ne.
  - unfold OS.open_w, written. cbn [cwd files set_clock set_files ofiles clock].
    rewrite Hp, lookup_insert_eq. eauto.
Qed.

Lemma resolve_written_ne w a r text p :
  PosixPath.abspath (cwd w) p <> a ->
  OS.resolve (written w a r text) p = OS.resolve w p.
Proof.
  intros Hne. unfold OS.resolve, written. cbn [cwd files set_clock set_files].
  now rewrite lookup_insert_ne by congruence.
Qed.

(** X18.  Generating twice from an unchanged source gives the same text
    both times: the second run changes the artifact's time stamp only, and
    every other file is after it what it was before the first run. *)
Theorem regeneration_is_byte_identical (w : World) (src gen : string) (sh : bool)
    (cf : string) (ca : list string) (wr : bool) (t : Z) (source : string) :
  wfault w = None ->
  can_open_for_writing w gen ->
  OS.resolve w src = Some (File true wr t source) ->
  PosixPath.abspath (cwd w) src <> PosixPath.abspath (cwd w) gen ->
  exists r r' text w1 w2,
    _generate_python_file_from_repy src gen sh cf ca w = (Ok tt, w1)
    /\ _generate_python_file_from_repy src gen sh cf ca w1 = (Ok tt, w2)
    /\ files w1 !! PosixPath.abspath (cwd w) gen = Some (File r true (clock w) text)
    /\ files w2 !! PosixPath.abspath (cwd w) gen
       = Some (File r' true (clock w + 1) text)
    /\ forall p r0 wr0 t0 d0,
         p <> PosixPath.abspath (cwd w) gen ->
         files w !! p = Some (File r0 wr0 t0 d0) ->
         files w2 !! p = Some (File r0 wr0 t0 d0).
Proof.
  intros Hf Hw Hs Hne.
  destruct (generate_ok w src gen sh cf ca wr t source Hf Hw Hs Hne) as [r E1].
  set (a := PosixPath.abspath (cwd w) gen) in *.
  set (text := artifact_text (PosixPath.abspath (cwd w) src) sh cf ca source) in *.
  set (w1 := written w a r text) in *.
  assert (Hc : cwd w1 = cwd w) by reflexivity.
  destruct (generate_ok w1 src gen sh cf ca wr t source) as [r' E2].
  - exact Hf.
  - apply can_open_again, Hw.
  - subst w1. rewrite resolve_written_ne by exact Hne. exact Hs.
  - now rewrite Hc.
  - rewrite Hc in E2. fold a text in E2.
    exists r, r', text, w1, (written w1 a r' text).
    split; [exact E1|]. split; [exact E2|]. split; [|split].
    + subst w1. unfold written. cbn [files set_clock set_files]. apply lookup_insert_eq.
    + subst w1. unfold written. cbn [files clock set_clock set_files].
      apply lookup_insert_eq.
    + intros p r0 wr0 t0 d0 Hp H. subst w1. unfold written.
      cbn [files set_clock set_files].
      now rewrite !lookup_insert_ne by congruence.
Qed.

Lemma ignores_bind {A B} (m : M A) (f : A -> M B) :
  ignores_cachedir m -> (forall a, ignores_cachedir (f a)) ->
  ignores_cachedir (bind m f).
Proof.
  intros Hm Hf x w. unfold bind. rewrite Hm.
  destruct (m w) as [[a|e] w']; cbn [fst snd]; [apply Hf|reflexivity].
Qed.

Lemma ignores_ret {A} (a : A) : ignores_cachedir (ret a).
Proof. now intros x w. Qed.

Lemma ignores_raise {A} e : ignores_cachedir (@raise A e).
Proof. now intros x w. Qed.

Lemma ignores_search_path filename path :
  ignores_cachedir (search_path filename path).
Proof.
  induction path as [|d path IH]; [apply ignores_ret|]. cbn [search_path].
  apply ignores_bind; [now intros x w|].
  intros []; [apply ignores_ret|exact IH].
Qed.

Lemma ignores_locate filename :
  ignores_cachedir
    (if negb (String.eqb filename (PosixPath.basename filename)) then
       let filenamewithpath := filename in
       do filedir <- OS.abspath (PosixPath.dirname filename);
       do destdir <- sys_path_0;
       do dir_ok <- OS.isdir filedir;
       if negb dir_ok then
         raise (ValueError ["In repyhelper, the directory '" +:+ filedir
                              +:+ "' does not exist for file '" +:+ filename +:+ "'"])
       else
       do file_ok <- OS.isfile filename;
       if negb file_ok then
         raise (ValueError ["In repyhelper, the file '" +:+ filename
                              +:+ "' does not exist."])
       else ret (filenamewithpath, destdir)
     else
       do path <- gets sys_path;
       do found <- search_path filename path;
       match found with
       | None =>
           raise (ValueError ["File " +:+ filename
                                +:+ " does not exist in the Python path."])
       | Some (filenamewithpath, filedir) =>
           ret (filenamewithpath, filedir)
       end).
Proof.
  destruct (negb _).
  - cbv zeta. apply ignores_bind; [now intros x w|]. intros filedir.
    apply ignores_bind.
    { unfold sys_path_0. apply ignores_bind; [now intros x w|].
      intros []; [apply ignores_raise|apply ignores_ret]. }
    intros destdir. apply ignores_bind; [now intros x w|].
    intros []; cbn [negb]; [|apply ignores_raise].
    apply ignores_bind; [now intros x w|].
    intros []; cbn [negb]; [apply ignores_ret|apply ignores_raise].
  - apply ignores_bind; [now intros x w|]. intros path.
    apply ignores_bind; [apply ignores_search_path|].
    intros [[p d]|]; [apply ignores_ret|apply ignores_raise].
Qed.

Lemma translate_paths_importcachedir filename x w :
  fst (translate_paths filename (set__importcachedir x w))
  = match fst (translate_paths filename (set__importcachedir None w)) with
    | Ok (src, d0, _) =>
        let dest := match x with Some d => d | None => d0 end in
        Ok (src, dest, artifact_path dest filename)
    | Raise e => Raise e
    end.
Proof.
  pose proof (ignores_locate filename) as H.
  unfold translate_paths.
  set (locate := if negb _ then _ else _) in *.
  unfold bind, gets, ret. rewrite !H.
  destruct (locate w) as [[[p d]|e] w']; reflexivity.
Qed.

(** X10.  [set_importcachedir] and [translate] compose: after
    [set_importcachedir(s)] with a valid directory, the file [translate]
    reads is the same as before and the file it writes is the module file
    in that directory; after [set_importcachedir(None)] the destination is
    the default one again. *)
Theorem cache_directory_redirects_the_artifact (w : World) (s filename : string)
    (src d0 gen0 : string) :
  is_dir w (cachedir_of s) ->
  cachedir_of s ∈ sys_path w ->
  fst (translate_paths filename (set__importcachedir None w)) = Ok (src, d0, gen0) ->
  let w1 := snd (set_importcachedir (PyStr s) w) in
  let w2 := snd (set_importcachedir PyNone w1) in
  fst (translate_paths filename w1)
    = Ok (src, cachedir_of s, artifact_path (cachedir_of s) filename)
  /\ fst (translate_paths filename w2) = Ok (src, d0, artifact_path d0 filename).
Proof.
  intros Hd Hin Hp w1 w2.
  assert (E1 : w1 = set__importcachedir (Some (cachedir_of s)) w).
  { subst w1. unfold set_importcachedir. fold (cachedir_of s).
    apply isdir_is_dir in Hd. rewrite (bind_ok _ _ _ _ _ Hd). cbn [negb].
    unfold bind, gets. now rewrite bool_decide_eq_true_2. }
  assert (E2 : w2 = set__importcachedir None w) by (subst w2; now rewrite E1).
  split.
  - rewrite E1, translate_paths_importcachedir, Hp. reflexivity.
  - rewrite E2. pose proof (translate_paths_importcachedir filename None w) as H.
    rewrite Hp in H. cbv zeta in H. rewrite Hp. exact H.
Qed.

(** ** More on the merge *)

Lemma excluded_dec name : {excluded name} + {~ excluded name}.
Proof.
  unfold excluded. destruct (startswith name "_") eqn:E.
  - left. now left.
  - destruct (decide (name ∈ GLOBAL_VARS_BLACKLIST)) as [H|H].
    + left. now right.
    + right. intros [H'|H']; [discriminate|contradiction].
Qed.

Lemma import_member_dom preserve (g : gmap string pyval) n v name :
  name ∈ dom (import_member preserve g (n, v))
  <-> name ∈ dom g \/ (name = n /\ ~ excluded n).
Proof.
  destruct (excluded_dec n) as [He|He].
  - rewrite import_member_excluded by assumption. tauto.
  - unfold import_member.
    destruct (startswith n "_") eqn:E; [exfalso; apply He; now left|].
    rewrite bool_decide_eq_false_2 by (intros H; apply He; now right).
    destruct (bool_decide (n ∈ dom g)) eqn:D, preserve; cbn [andb];
      rewrite ?dom_insert, ?elem_of_union, ?elem_of_singleton;
      try (apply bool_decide_eq_true_1 in D); try tauto.
    split; [tauto|]. intros [H|[-> _]]; assumption.
Qed.

Lemma import_member_preserves (g : gmap string pyval) member :
  g ⊆ import_member true g member.
Proof.
  destruct member as [n v]. unfold import_member.
  destruct (startswith n "_"); [reflexivity|].
  destruct (bool_decide (n ∈ GLOBAL_VARS_BLACKLIST)); [reflexivity|].
  rewrite andb_true_r. destruct (bool_decide (n ∈ dom g)) eqn:D; [reflexivity|].
  apply bool_decide_eq_false_1, not_elem_of_dom in D. now apply insert_subseteq.
Qed.

Lemma merge_dom preserve members (g : gmap string pyval) name :
  name ∈ dom (_import_file_contents_to_caller_namespace members preserve g)
  <-> name ∈ dom g \/ (name ∈ map fst members /\ ~ excluded name).
Proof.
  unfold _import_file_contents_to_caller_namespace.
  revert g. induction members as [|[n v] members IH]; intros g; cbn [fold_left map fst].
  - rewrite elem_of_nil. tauto.
  - rewrite IH, import_member_dom, elem_of_cons. split.
    + intros [[H|[-> H]]|H]; tauto.
    + intros [H|[[->|H] He]]; tauto.
Qed.

Lemma merge_overwrites members (g g0 : gmap string pyval) name :
  name ∈ map fst members -> ~ excluded name ->
  _import_file_contents_to_caller_namespace members false g !! name
  = _import_file_contents_to_caller_namespace members false g0 !! name.
Proof.
  unfold _import_file_contents_to_caller_namespace.
  revert g g0. induction members as [|[n v] members IH]; intros g g0 Hin He.
  - cbn in Hin. now apply elem_of_nil in Hin.
  - cbn [fold_left].
    destruct (decide (name ∈ map fst members)) as [H|H]; [now apply IH|].
    cbn [map fst] in Hin. apply elem_of_cons in Hin as [->|Hin]; [|contradiction].
    pose proof (merge_untouched false members) as Hu.
    unfold _import_file_contents_to_caller_namespace in Hu.
    rewrite !Hu by now right.
    now rewrite !import_member_included.
Qed.

Lemma merge_skips_bound members (g : gmap string pyval) :
  (forall name, name ∈ map fst members -> ~ excluded name -> name ∈ dom g) ->
  _import_file_contents_to_caller_namespace members true g = g.
Proof.
  unfold _import_file_contents_to_caller_namespace.
  induction members as [|[n v] members IH]; intros H; [reflexivity|].
  cbn [fold_left].
  assert (E : import_member true g (n, v) = g).
  { destruct (excluded_dec n) as [He|He]; [now apply import_member_excluded|].
    unfold import_member.
    destruct (startswith n "_"); [reflexivity|].
    destruct (bool_decide (n ∈ GLOBAL_VARS_BLACKLIST)); [reflexivity|].
    rewrite bool_decide_eq_true_2; [reflexivity|].
    apply H; [cbn; left | exact He]. }
  rewrite E. apply IH. intros name Hin. apply H. cbn. now right.
Qed.

(** X20.  The names bound in the caller's scope after the merge are the
    names bound before it and the module's members that neither start with
    an underscore nor are in the exclusion set: no binding is removed, and
    no other name is added. *)
Theorem merge_binds_the_public_names (import_module : list (string * pyval))
    (preserve_globals : bool) (caller_globals : gmap string pyval) (name : string) :
  name ∈ dom (_import_file_contents_to_caller_namespace import_module preserve_globals
                caller_globals)
  <-> name ∈ dom caller_globals
      \/ (name ∈ map fst import_module
          /\ startswith name "_" = false
          /\ name ∉ GLOBAL_VARS_BLACKLIST).
Proof.
  rewrite merge_dom. unfold excluded.
  destruct (startswith name "_"); intuition congruence.
Qed.

(** X21.  With [preserve_globals] every binding of the caller is after the
    merge what it was before, whatever the module defines (its members need
    not be distinct). *)
Theorem preserve_globals_keeps_the_callers_bindings
    (import_module : list (string * pyval)) (caller_globals : gmap string pyval)
    (name : string) (value : pyval) :
  caller_globals !! name = Some value ->
  _import_file_contents_to_caller_namespace import_module true caller_globals !! name
  = Some value.
Proof.
  unfold _import_file_contents_to_caller_namespace.
  revert caller_globals.
  induction import_module as [|m import_module IH]; intros g H; [exact H|].
  cbn [fold_left]. apply IH.
  exact (lookup_weaken _ _ _ _ H (import_member_preserves g m)).
Qed.

(** X22.  Merging the same members a second time changes nothing: the
    caller's scope after two merges is its scope after one, with or without
    [preserve_globals]. *)
Theorem merging_again_changes_nothing (import_module : list (string * pyval))
    (preserve_globals : bool) (caller_globals : gmap string pyval) :
  let merged :=
    _import_file_contents_to_caller_namespace import_module preserve_globals
      caller_globals in
  _import_file_contents_to_caller_namespace import_module preserve_globals merged
  = merged.
Proof.
  intros merged. destruct preserve_globals.
  - apply merge_skips_bound. intros name Hin He. subst merged.
    apply merge_dom. now right.
  - apply map_eq. intros name.
    destruct (decide (name ∈ map fst import_module)) as [Hin|Hin].
    + destruct (excluded_dec name) as [He|He].
      * apply merge_untouched. now left.
      * subst merged. now apply merge_overwrites.
    + apply merge_untouched. now right.
Qed.

(** ** What [translate] can raise *)

(** X19.  As long as no write to the device fails, no IOError escapes
    [translate]: the IOError of an [open], of the artifact or of the source,
    is caught and raised again as a TranslationError.  An exception
    [translate] then ends with is a TranslationError, a ValueError, an
    OSError or an IndexError. *)
Theorem translate_wraps_io_errors (filename : string) (sh : bool) (cf : string)
    (ca : option (list string)) (fo : bool) (w : World) (e : exn) :
  wfault w = None ->
  fst (translate filename sh cf ca fo w) = Raise e ->
  (exists args, e = TranslationError args) \/ (exists args, e = ValueError args)
  \/ (exists args, e = OSError args) \/ (exists args, e = IndexError args).
Proof.
  intros Hf H.
  destruct (wrapped_translate filename sh cf ca fo w Hf) as [_ Hw].
  specialize (Hw e H). destruct e; cbn in Hw; try contradiction; eauto.
Qed.

(** ** The further properties at concrete inputs *)

Lemma translation_is_needed_fails_with_TranslationError_witness :
  exists args,
    TranslationError ["File name exists but wasn't automatically generated: /r/a_repy.py"]
    = TranslationError args.
Proof.
  apply (translation_is_needed_fails_with_TranslationError "/r/a.repy" "/r/a_repy.py"
           w_foreign).
  vm_compute. reflexivity.
Defined.

Lemma stale_check_on_missing_files_witness :
  _translation_is_needed "/r/b.repy" "/r/b_repy.py" w0
  = (Raise (TranslationError ["no such file:"; "/r/b.repy"]), w0)
  /\ _translation_is_needed "/r/a.repy" "/r/a_repy.py" w0 = (Ok true, w0)
  /\ is_TranslationError (fst (_translation_is_needed "/r/a.repy" "/r/a_repy.py" w_locked))
  /\ snd (_translation_is_needed "/r/a.repy" "/r/a_repy.py" w_locked) = w_locked.
Proof.
  assert (Hs : forall w, files w !! "/r/a.repy" = Some (File true true 100 source0) ->
                         cwd w = "/r" -> is_file w "/r/a.repy").
  { intros w Hf Hc. exists true, true, 100%Z, source0. unfold OS.resolve.
    rewrite Hc. vm_compute PosixPath.abspath. cbn. now rewrite Hf. }
  split; [|split].
  - apply (stale_check_on_missing_files "/r/b.repy" "/r/b_repy.py" w0).
    intros (r & wr & t & d & E). vm_compute in E. discriminate.
  - apply (stale_check_on_missing_files "/r/a.repy" "/r/a_repy.py" w0).
    + apply Hs; reflexivity.
    + intros (r & wr & t & d & E). vm_compute in E. discriminate.
  - apply (stale_check_on_missing_files "/r/a.repy" "/r/a_repy.py" w_locked).
    + apply Hs; reflexivity.
    + exists true, 150%Z, legacy. vm_compute. reflexivity.
Defined.

Lemma source_not_older_is_regenerated_witness :
  _translation_is_needed "/r/a.repy" "/r/a_repy.py" w_legacy_stale
  = (Ok true, w_legacy_stale).
Proof.
  apply (source_not_older_is_regenerated "/r/a.repy" "/r/a_repy.py" w_legacy_stale
           true true 100 source0 true 100 legacy).
  - vm_compute. reflexivity.
  - vm_compute. reflexivity.
  - vm_compute. reflexivity.
  - lia.
Defined.

Lemma module_name_of_a_base_name_witness :
  _get_module_name "a.b.repy" = "a_b_repy".
Proof.
  destruct (module_name_of_a_base_name "a.b.repy") as [H _]; [reflexivity|].
  rewrite H. reflexivity.
Defined.

Lemma dotted_names_collide_witness :
  "a_repy" <> "a.repy" /\ _get_module_name "a_repy" = _get_module_name "a.repy".
Proof.
  destruct (dotted_names_collide "a.repy") as (H1 & _ & H2);
    [reflexivity | reflexivity |].
  split; [exact H1 | exact H2].
Defined.

Lemma translate_returns_the_module_name_witness :
  "a_repy" = replace_char "."%char "_"%char (PosixPath.basename "/r/a.repy")
  /\ contains "."%char "a_repy" = false.
Proof.
  destruct (translate_returns_the_module_name "/r/a.repy" true "import" None false w0
              "a_repy") as (H1 & H2 & _).
  - vm_compute. reflexivity.
  - split; [exact H1 | exact H2].
Defined.

Lemma cache_hit_writes_nothing_witness :
  translate "a.repy" true "import" None false w_legacy = (Ok "a_repy", w_legacy).
Proof.
  apply (cache_hit_writes_nothing "a.repy" w_legacy "/r/a.repy" "/r" "/r/a_repy.py"
           true true 100 source0 true 150 legacy).
  - vm_compute. reflexivity.
  - vm_compute. reflexivity.
  - vm_compute. reflexivity.
  - vm_compute. reflexivity.
  - vm_compute. reflexivity.
  - vm_compute. reflexivity.
  - lia.
Defined.

Lemma translate_with_empty_search_path_witness :
  translate "/r/a.repy" true "import" None false w_nopath
  = (Raise (IndexError ["list index out of range"]), w_nopath)
  /\ translate "a.repy" true "import" None false w_nopath
     = (Raise (ValueError ["File a.repy does not exist in the Python path."]), w_nopath).
Proof.
  split.
  - apply (translate_with_empty_search_path "/r/a.repy" true "import" None false w_nopath).
    reflexivity.
  - apply (translate_with_empty_search_path "a.repy" true "import" None false w_nopath).
    reflexivity.
Defined.

Lemma makedirs_failure_escapes_as_OSError_witness :
  _generate_python_file_from_repy "/r/a.repy" "/r/a.repy/a_repy.py" true "import" [] w0
  = (Raise (OSError ["cannot create directory"]), w0).
Proof.
  apply (makedirs_failure_escapes_as_OSError "/r/a.repy" "/r/a.repy/a_repy.py" true
           "import" [] w0 (OSError ["cannot create directory"])).
  - vm_compute. discriminate.
  - intros (wr & t & E). vm_compute in E. discriminate.
  - vm_compute. reflexivity.
Defined.

Lemma open_failure_is_a_TranslationError_witness :
  _generate_python_file_from_repy "/r/a.repy" "/r" true "import" [] w0
  = (Raise (TranslationError
              ["Cannot open file for translation '/r/a.repy': Is a directory"]), w0).
Proof.
  apply (open_failure_is_a_TranslationError "/r/a.repy" "/r" true "import" [] w0
           (IOError ["Is a directory"])).
  - right. exists true, 0%Z. vm_compute. reflexivity.
  - vm_compute. reflexivity.
Defined.

Lemma generator_touches_only_the_artifact_witness :
  files (snd (_generate_python_file_from_repy "/r/a.repy" "/r/a_repy.py" true "import"
                [] w_long_full)) !! "/r/a.repy"
  = Some (File true true 100 source_long).
Proof.
  apply (generator_touches_only_the_artifact "/r/a.repy" "/r/a_repy.py" true "import" []
           w_long_full "/r/a.repy").
  - vm_compute. discriminate.
  - reflexivity.
Defined.

Lemma translate_leaves_the_source_alone_witness :
  OS.resolve (snd (translate "a.repy" true "import" None false w_full)) "/r/a.repy"
  = Some (File true true 100 source0).
Proof.
  apply (translate_leaves_the_source_alone "a.repy" true "import" None false w_full
           "/r/a.repy" "/r" "/r/a_repy.py").
  - vm_compute. reflexivity.
  - vm_compute. discriminate.
  - vm_compute. reflexivity.
Defined.

Lemma cache_directory_stays_valid_witness :
  cachedir_valid (snd (translate "a.repy" true "import" None false
                         (set__importcachedir (Some "/c") w_cached))).
Proof.
  apply (cache_directory_stays_valid (set__importcachedir (Some "/c") w_cached)).
  intros d [= <-]. split.
  - exists true, 0%Z. vm_compute. reflexivity.
  - right. left.
Defined.

Lemma generated_artifact_is_recognised_witness :
  generated_header artifact0 = true
  /\ last_line_read artifact0 = TRANSLATION_TAGLINE +:+ " /r/a.repy" +:+ newline.
Proof.
  destruct (generated_artifact_is_recognised "/r/a.repy" true "import" [] source0)
    as (_ & _ & H3 & H4 & _); [reflexivity|].
  split; [exact H3 | exact H4].
Defined.

Lemma regeneration_is_byte_identical_witness :
  exists r r' text w1 w2,
    _generate_python_file_from_repy "/r/a.repy" "/r/a_repy.py" true "import" [] w0
    = (Ok tt, w1)
    /\ _generate_python_file_from_repy "/r/a.repy" "/r/a_repy.py" true "import" [] w1
       = (Ok tt, w2)
    /\ files w1 !! "/r/a_repy.py" = Some (File r true 200 text)
    /\ files w2 !! "/r/a_repy.py" = Some (File r' true 201 text).
Proof.
  destruct (regeneration_is_byte_identical w0 "/r/a.repy" "/r/a_repy.py" true "import" []
              true 100 source0)
    as (r & r' & text & w1 & w2 & H1 & H2 & H3 & H4 & _).
  - reflexivity.
  - split; [right; exists true, 0%Z; vm_compute; reflexivity|].
    eexists _, _. vm_compute. reflexivity.
  - vm_compute. reflexivity.
  - vm_compute. discriminate.
  - exists r, r', text, w1, w2. split; [exact H1|]. split; [exact H2|].
    split; [exact H3 | exact H4].
Defined.

Lemma cache_directory_redirects_the_artifact_witness :
  fst (translate_paths "a.repy" (snd (set_importcachedir (PyStr "/c") w_cached)))
  = Ok ("/r/a.repy", "/c", "/c/a_repy.py")
  /\ fst (translate_paths "a.repy"
            (snd (set_importcachedir PyNone
                    (snd (set_importcachedir (PyStr "/c") w_cached)))))
     = Ok ("/r/a.repy", "/r", "/r/a_repy.py").
Proof.
  apply (cache_directory_redirects_the_artifact w_cached "/c" "a.repy" "/r/a.repy" "/r"
           "/r/a_repy.py").
  - exists true, 0%Z. vm_compute. reflexivity.
  - right. left.
  - vm_compute. reflexivity.
Defined.

Lemma translate_wraps_io_errors_witness :
  (exists args,
     TranslationError ["Error opening /r/a.repy: Permission denied"]
     = TranslationError args)
  \/ (exists args,
        TranslationError ["Error opening /r/a.repy: Permission denied"]
        = ValueError args)
  \/ (exists args,
        TranslationError ["Error opening /r/a.repy: Permission denied"] = OSError args)
  \/ (exists args,
        TranslationError ["Error opening /r/a.repy: Permission denied"]
        = IndexError args).
Proof.
  apply (translate_wraps_io_errors "a.repy" true "import" None false w_unreadable).
  - reflexivity.
  - vm_compute. reflexivity.
Defined.

Lemma preserve_globals_keeps_the_callers_bindings_witness :
  _import_file_contents_to_caller_namespace
    [("x", PyInt 1); ("x", PyInt 2); ("y", PyInt 3)] true (<["x" := PyInt 0]> ∅) !! "x"
  = Some (PyInt 0).
Proof.
  apply (preserve_globals_keeps_the_callers_bindings
           [("x", PyInt 1); ("x", PyInt 2); ("y", PyInt 3)] (<["x" := PyInt 0]> ∅) "x"
           (PyInt 0)).
  vm_compute. reflexivity.
Defined.
